(** * A chat-relay bot: token-budget trimming and message handling

    Shallow embedding of [bot/utils/message_utils.py],
    [bot/services/chat_service.py] and [bot/handlers/message_handler.py].

    Python values are modelled as follows.
    - [str]: the list of its Unicode code points ([pystr]), so that [len]
      is [length]; literals of the source are written with [py "..."],
      which decodes the UTF-8 bytes of a literal.
    - [int]: [Z].  [float]: an IEEE-754 binary64 value ([spec_float] with
      precision 53 and maximal exponent 1024).
    - [dict]: a [gmap]; [collections.deque]: a record holding [maxlen]
      and the items, oldest first.
    - the transport, the generation backend, the file system and the
      random generator are an explicit [world] of answers; every call to
      them is recorded in a trace of effects.
    - exceptions are values of [exn]; handler code runs in a small
      state-and-exception monad [M]. *)

From Stdlib Require Import ZArith NArith String Ascii List Bool Lia.
From Stdlib Require Import Floats.SpecFloat.
From stdpp Require Import gmap strings list fin_maps.

Open Scope Z_scope.

(** ** Python strings *)

Module Py.

Abbreviation pystr := (list N).

Definition bytes_of_string (s : string) : list N :=
  map (fun a => N_of_ascii a) (list_ascii_of_string s).

(** UTF-8 decoding of one to four byte sequences (well-formed input). *)
Fixpoint utf8_decode (bs : list N) : pystr :=
  match bs with
  | [] => []
  | b0 :: r0 =>
    if (b0 <? 128)%N then b0 :: utf8_decode r0
    else if (b0 <? 224)%N then
      match r0 with
      | b1 :: r1 => ((b0 - 192) * 64 + (b1 - 128))%N :: utf8_decode r1
      | _ => []
      end
    else if (b0 <? 240)%N then
      match r0 with
      | b1 :: b2 :: r2 =>
        ((b0 - 224) * 4096 + (b1 - 128) * 64 + (b2 - 128))%N :: utf8_decode r2
      | _ => []
      end
    else
      match r0 with
      | b1 :: b2 :: b3 :: r3 =>
        ((b0 - 240) * 262144 + (b1 - 128) * 4096 + (b2 - 128) * 64 + (b3 - 128))%N
          :: utf8_decode r3
      | _ => []
      end
  end.

(** A source literal. *)
Definition py (s : string) : pystr := utf8_decode (bytes_of_string s).
Arguments py : simpl never.

(** [len(s)] *)
Definition len {A} (l : list A) : Z := Z.of_nat (length l).

(** Truthiness of a string, of bytes and of a list: non-empty. *)
Definition truthy {A} (l : list A) : bool :=
  match l with [] => false | _ => true end.

Definition str_eqb (a b : pystr) : bool := bool_decide (a = b).

(** [s.startswith(p)] *)
Fixpoint startswith (s p : pystr) : bool :=
  match p, s with
  | [], _ => true
  | c :: p', d :: s' => if (c =? d)%N then startswith s' p' else false
  | _ :: _, [] => false
  end.

(** [needle in hay] on strings. *)
Fixpoint contains (hay needle : pystr) : bool :=
  startswith hay needle ||
  match hay with
  | [] => false
  | _ :: hay' => contains hay' needle
  end.

(** [s.split(" ")]: cut at every single space, empty pieces kept. *)
Fixpoint split_space (s : pystr) : list pystr :=
  match s with
  | [] => [[]]
  | c :: s' =>
    if (c =? 32)%N then [] :: split_space s'
    else match split_space s' with
         | w :: ws => (c :: w) :: ws
         | [] => [[c]]
         end
  end.

(** [s.split(" ", 1)]: cut at the first space only. *)
Fixpoint split_space1 (s : pystr) : list pystr :=
  match s with
  | [] => [[]]
  | c :: s' =>
    if (c =? 32)%N then [[]; s']
    else match split_space1 s' with
         | w :: ws => (c :: w) :: ws
         | [] => [[c]]
         end
  end.

(** [str.isspace] on one code point; also the class [\s] of [re]. *)
Definition isspace (c : N) : bool :=
  ((9 <=? c) && (c <=? 13) || (28 <=? c) && (c <=? 32) || (c =? 133)
   || (c =? 160) || (c =? 5760) || (8192 <=? c) && (c <=? 8202)
   || (c =? 8232) || (c =? 8233) || (c =? 8239) || (c =? 8287)
   || (c =? 12288))%N.

Fixpoint lstrip (s : pystr) : pystr :=
  match s with
  | c :: s' => if isspace c then lstrip s' else s
  | [] => []
  end.

(** [s.strip()] *)
Definition strip (s : pystr) : pystr := rev (lstrip (rev (lstrip s))).

(** [sep.join(parts)] *)
Fixpoint join (sep : pystr) (parts : list pystr) : pystr :=
  match parts with
  | [] => []
  | [p] => p
  | p :: ps => p ++ sep ++ join sep ps
  end.

(** [str(n)] for an [int]. *)
Fixpoint digits_of_pos (fuel : nat) (n : N) (acc : pystr) : pystr :=
  match fuel with
  | O => acc
  | S fuel' =>
    let acc' := (48 + n mod 10)%N :: acc in
    if (n <? 10)%N then acc' else digits_of_pos fuel' (n / 10)%N acc'
  end.

Definition str_of_Z (z : Z) : pystr :=
  let n := Z.abs_N z in
  let ds := digits_of_pos (S (N.to_nat (N.log2 n))) n [] in
  if z <? 0 then 45%N :: ds else ds.

(** Binary64 floats. *)
Abbreviation float := spec_float.
Definition fdiv : float -> float -> float := SFdiv 53 1024.
Definition fmul : float -> float -> float := SFmul 53 1024.
Definition fleb : float -> float -> bool := SFleb.
Definition fltb : float -> float -> bool := SFltb.
Definition float_of_Z (z : Z) : float := binary_normalize 53 1024 z 0 false.

(** Built-ins of the interpreter and of third-party packages that the code
    calls and whose tables (Unicode case mapping, decimal digits, decimal to
    binary conversion, number formatting, the subword vocabulary) are not
    part of the repository.  [None] stands for a raised exception. *)
Record builtins := {
  (** [s.lower()] *)
  str_lower : pystr -> pystr;
  (** [float(s)], [None] for [ValueError] *)
  float_of_str : pystr -> option float;
  (** [int(s)], [None] for [ValueError] *)
  int_of_str : pystr -> option Z;
  (** the class [\d] of [re] on [str] patterns *)
  isdecimal : N -> bool;
  (** [f"{x:.1f}"] *)
  format_1f : float -> pystr;
  (** [tiktoken.encoding_for_model("gpt-3.5-turbo")]: [None] when the call
      raises, otherwise the [encode] method, itself [None] where it raises. *)
  encoding_for_model : option (pystr -> option (list N));
}.

End Py.
Import Py.

(** ** [collections.deque] *)

Module Deque.

Record deque (A : Type) := mkDeque {
  maxlen : option nat;
  items : list A;   (* leftmost (oldest) first *)
}.
Arguments mkDeque {A} _ _.
Arguments maxlen {A} _.
Arguments items {A} _.

(** [deque(maxlen=n)] and [deque()] *)
Definition new {A} (n : option nat) : deque A := mkDeque n [].

(** [d.append(x)]: the item goes to the right end; when the deque is then
    longer than [maxlen], one item is discarded from the left end. *)
Definition append {A} (d : deque A) (x : A) : deque A :=
  let l := items d ++ [x] in
  match maxlen d with
  | Some n => if (n <? length l)%nat then mkDeque (Some n) (tail l) else mkDeque (Some n) l
  | None => mkDeque None l
  end.

(** [d.clear()] *)
Definition clear {A} (d : deque A) : deque A := mkDeque (maxlen d) [].

(** [len(d)] *)
Definition size {A} (d : deque A) : nat := length (items d).

(** [x in d] *)
Definition mem `{EqDecision A} (x : A) (d : deque A) : bool :=
  bool_decide (x ∈ items d).

End Deque.

(** ** [bot/utils/message_utils.py] *)

Module MessageUtils.

(** A message is a [Dict[str, str]] with the keys ['role'] and ['content']. *)
Abbreviation message := (gmap string pystr).

Definition mk_message (role content : pystr) : message :=
  {[ "role"%string := role; "content"%string := content ]}.

(** [message.get('content', '')] *)
Definition get_content (m : message) : pystr := default [] (m !! "content"%string).

Section WithBuiltins.
Context (B : builtins).

(** The loop of [count_tokens]; [None] when [encode] raises. *)
Fixpoint count_loop (encode : pystr -> option (list N)) (messages : list message)
    (total_tokens : Z) : option Z :=
  match messages with
  | [] => Some total_tokens
  | message :: rest =>
    match encode (get_content message) with
    | None => None
    | Some tokens => count_loop encode rest (total_tokens + len tokens)
    end
  end.

(** [sum(len(msg.get('content', '')) for msg in messages)] *)
Definition total_chars (messages : list message) : Z :=
  foldr (fun msg acc => len (get_content msg) + acc) 0 messages.

Definition count_tokens (messages : list message) : Z :=
  match encoding_for_model B with
  | Some encode =>
    match count_loop encode messages 0 with
    | Some total_tokens => total_tokens
    | None => total_chars messages / 4
    end
  | None => total_chars messages / 4
  end.

(** The first loop of [limit_messages_by_tokens] over [reversed(messages)];
    [limited_messages.insert(0, message)] is a cons.  [None] when [encode]
    raises on a message the loop reaches. *)
Fixpoint primary_loop (encode : pystr -> option (list N)) (reversed : list message)
    (token_limit : Z) (limited_messages : list message) (total_tokens : Z)
    : option (list message) :=
  match reversed with
  | [] => Some limited_messages
  | message :: rest =>
    match encode (get_content message) with
    | None => None
    | Some tokens =>
      if total_tokens + len tokens >? token_limit then Some limited_messages
      else primary_loop encode rest token_limit (message :: limited_messages)
             (total_tokens + len tokens)
    end
  end.

(** The loop of the [except] branch. *)
Fixpoint fallback_loop (reversed : list message) (char_limit : Z)
    (limited_messages : list message) (total_chars : Z) : list message :=
  match reversed with
  | [] => limited_messages
  | message :: rest =>
    let content := get_content message in
    if total_chars + len content >? char_limit then limited_messages
    else fallback_loop rest char_limit (message :: limited_messages)
           (total_chars + len content)
  end.

(** The [try] block: [None] when it raises. *)
Definition primary (messages : list message) (token_limit : Z) : option (list message) :=
  match encoding_for_model B with
  | Some encode => primary_loop encode (rev messages) token_limit [] 0
  | None => None
  end.

Definition fallback (messages : list message) (token_limit : Z) : list message :=
  let char_limit := token_limit * 4 in
  fallback_loop (rev messages) char_limit [] 0.

Definition limit_messages_by_tokens (messages : list message) (token_limit : Z)
    : list message :=
  match messages with
  | [] => []
  | _ =>
    match primary messages token_limit with
    | Some limited_messages => limited_messages
    | None => fallback messages token_limit
    end
  end.

(** Which of the two loops produced the result of a call. *)
Inductive strategy :=
| Primary (encode : pystr -> option (list N))
| Fallback.

Definition strategy_used (messages : list message) (token_limit : Z) : strategy :=
  match encoding_for_model B with
  | Some encode =>
    match primary_loop encode (rev messages) token_limit [] 0 with
    | Some _ => Primary encode
    | None => Fallback
    end
  | None => Fallback
  end.

(** The cost of the spec's fallback estimate, message by message:
    [len(content) / 4] rounded down. *)
Definition floor_cost (m : message) : Z := len (get_content m) / 4.

Definition total_floor_cost (messages : list message) : Z :=
  foldr (fun msg acc => floor_cost msg + acc) 0 messages.

End WithBuiltins.

End MessageUtils.

(** ** The collaborators: transport, backend, file system, random source *)

Module World.

Import Deque MessageUtils.

Inductive exn_class :=
| ChatServiceError | IndexError | ValueError | KeyError | AttributeError
| TypeError | UnboundLocalError | FileNotFoundError | OtherError.

(** An exception: its class and the text [str(e)] gives. *)
Record exn := Exn { exn_cls : exn_class; exn_str : pystr }.

(** The sender entity of an event; [username] is [None] when absent. *)
Record sender := { username : option pystr; sender_id : Z }.

(** [event.message.media]: a photo, a document with its MIME type ([None]
    when [media.document] carries none, so that reading it raises), or any
    other kind of media. *)
Inductive media :=
| MediaPhoto
| MediaDocument (mime_type : option pystr)
| MediaOther.

Record event := {
  chat_id : Z;
  event_message : option pystr;  (* event.message.message *)
  event_media : option media;    (* event.message.media *)
  reply_to_msg_id : option Z;
}.

(** A message of the transport's history, as [_get_chat_history] reads it. *)
Record history_sender := {
  hs_username : option pystr;            (* hasattr and value *)
  hs_first_name : option (option pystr); (* outer [None]: no such attribute *)
  hs_last_name : option pystr;
}.

Record history_message := {
  hm_text : option pystr;
  hm_sender : option history_sender;
}.

(** Whom [telegram_client.send_message] addresses. *)
Inductive target :=
| ToChat (id : Z)
| ToSender (s : option sender).

(** Every call that leaves the process. *)
Inductive effect :=
| GetSender
| SendReadAcknowledge (chat : Z)
| SendMessage (to : target) (text : pystr)
| Respond (chat : Z) (text : pystr)
| IterMessages (chat : Z) (limit : Z)
| NamedTemporaryFile
| DownloadMedia (path : pystr)
| OllamaChat (model : pystr) (messages : list message) (images : list (list N))
| RandomRandom.

(** The answers of the collaborators.  The first argument is the number of
    calls made so far, so that two calls with equal arguments may be answered
    differently.  [inl e] stands for the exception [e] being raised. *)
Record world := {
  w_get_sender : nat -> exn + option sender;
  w_send_read_acknowledge : nat -> Z -> exn + unit;
  w_send_message : nat -> target -> pystr -> exn + Z;
  w_respond : nat -> Z -> pystr -> exn + Z;        (* the id of the sent message *)
  w_iter_messages : nat -> Z -> Z -> exn + list history_message;
  w_named_temporary_file : nat -> exn + pystr;     (* the path of the new file *)
  w_download_media : nat -> pystr -> exn + list N; (* the bytes written at the path *)
  w_chat : nat -> pystr -> list message -> list (list N) -> exn + pystr;
  w_random : nat -> float;
}.

(** [bot/config.py], the fields the handler reads. *)
Record config := {
  token_limit : Z;
  cfg_message_probability : float;
  keywords : list pystr;
  main_chat_id : Z;
  admin_username : pystr;
  service_chat_id : Z;
  ollama_host : pystr;
  ollama_model : pystr;
  ollama_vision_model : pystr;
}.

(** The mutable objects: the handler's fields, the chat service's fields and
    the files. *)
Record state := {
  chat_queues : gmap Z (deque message);
  sent_message_ids : deque Z;
  message_probability : float;
  cs_client : bool;             (* [self.client] is set *)
  cs_model : pystr;
  cs_vision_model : pystr;
  cs_host : pystr;
  files : gmap pystr (list N);
}.

Definition set_chat_queues (f : gmap Z (deque message) -> gmap Z (deque message))
    (s : state) : state :=
  {| chat_queues := f (chat_queues s); sent_message_ids := sent_message_ids s;
     message_probability := message_probability s; cs_client := cs_client s;
     cs_model := cs_model s; cs_vision_model := cs_vision_model s;
     cs_host := cs_host s; files := files s |}.

Definition set_sent_message_ids (f : deque Z -> deque Z) (s : state) : state :=
  {| chat_queues := chat_queues s; sent_message_ids := f (sent_message_ids s);
     message_probability := message_probability s; cs_client := cs_client s;
     cs_model := cs_model s; cs_vision_model := cs_vision_model s;
     cs_host := cs_host s; files := files s |}.

Definition set_message_probability (p : float) (s : state) : state :=
  {| chat_queues := chat_queues s; sent_message_ids := sent_message_ids s;
     message_probability := p; cs_client := cs_client s;
     cs_model := cs_model s; cs_vision_model := cs_vision_model s;
     cs_host := cs_host s; files := files s |}.

Definition set_cs_model (m : pystr) (s : state) : state :=
  {| chat_queues := chat_queues s; sent_message_ids := sent_message_ids s;
     message_probability := message_probability s; cs_client := cs_client s;
     cs_model := m; cs_vision_model := cs_vision_model s;
     cs_host := cs_host s; files := files s |}.

Definition set_cs_vision_model (m : pystr) (s : state) : state :=
  {| chat_queues := chat_queues s; sent_message_ids := sent_message_ids s;
     message_probability := message_probability s; cs_client := cs_client s;
     cs_model := cs_model s; cs_vision_model := m;
     cs_host := cs_host s; files := files s |}.

Definition set_files (f : gmap pystr (list N) -> gmap pystr (list N)) (s : state) : state :=
  {| chat_queues := chat_queues s; sent_message_ids := sent_message_ids s;
     message_probability := message_probability s; cs_client := cs_client s;
     cs_model := cs_model s; cs_vision_model := cs_vision_model s;
     cs_host := cs_host s; files := f (files s) |}.

(** *** The monad of handler code: state, trace of effects, exceptions *)

Definition M (A : Type) : Type := state * list effect -> (exn + A) * (state * list effect).

Definition ret {A} (a : A) : M A := fun st => (inr a, st).

Definition bind {A B} (m : M A) (k : A -> M B) : M B :=
  fun st => match m st with
            | (inr a, st') => k a st'
            | (inl e, st') => (inl e, st')
            end.

Definition raise {A} (e : exn) : M A := fun st => (inl e, st).

(** [try: m  except Exception as e: h e] *)
Definition try_except {A} (m : M A) (h : exn -> M A) : M A :=
  fun st => match m st with
            | (inl e, st') => h e st'
            | r => r
            end.

Definition get : M state := fun st => (inr (fst st), st).

Definition modify (f : state -> state) : M unit :=
  fun st => (inr tt, (f (fst st), snd st)).

(** A call to a collaborator: recorded, then answered by the world. *)
Definition call {A} (e : effect) (answer : nat -> exn + A) : M A :=
  fun st => (answer (length (snd st)), (fst st, snd st ++ [e])).

End World.

(** ** [bot/services/chat_service.py] and [bot/handlers/message_handler.py] *)

Module Bot.

Import Deque MessageUtils World.

Declare Scope handler_scope.
Delimit Scope handler_scope with handler.
Notation "x <- m ;; k" := (bind m (fun x => k))
  (at level 100, m at next level, k at level 200, right associativity) : handler_scope.
Notation "m ;; k" := (bind m (fun _ => k))
  (at level 100, k at level 200, right associativity) : handler_scope.
Open Scope handler_scope.

Definition nl : pystr := [10%N].

Section WithWorld.
Context (B : builtins) (W : world) (cfg : config).

(** *** ChatService *)

(** [generate_response]; the pool that runs the call is not modelled. *)
Definition generate_response (messages : list message) : M pystr :=
  s <- get ;;
  if negb (cs_client s) then
    raise (Exn ChatServiceError (py "Chat service not initialized"))
  else
    try_except
      (content <- call (OllamaChat (cs_model s) messages [])
                    (fun n => w_chat W n (cs_model s) messages []) ;;
       if negb (truthy content) then
         raise (Exn ChatServiceError (py "Empty response from Ollama"))
       else ret content)
      (fun e => raise (Exn ChatServiceError
                         (py "Failed to generate response: " ++ exn_str e))).

(** [analyze_image]; the image travels as base64 text, recorded here as the
    bytes it encodes. *)
Definition analyze_image (image_data : list N) (prompt : pystr) : M pystr :=
  s <- get ;;
  if negb (cs_client s) then
    raise (Exn ChatServiceError (py "Chat service not initialized"))
  else
    try_except
      (content <- call (OllamaChat (cs_vision_model s) [mk_message (py "user") prompt]
                          [image_data])
                    (fun n => w_chat W n (cs_vision_model s)
                                [mk_message (py "user") prompt] [image_data]) ;;
       if negb (truthy content) then
         raise (Exn ChatServiceError (py "Empty response from vision model"))
       else ret content)
      (fun e => raise (Exn ChatServiceError
                         (py "Failed to analyze image: " ++ exn_str e))).

Definition update_model (model : pystr) : M unit := modify (set_cs_model model).

Definition update_vision_model (model : pystr) : M unit :=
  modify (set_cs_vision_model model).

(** *** MessageHandler *)

(** [__init__], with the chat service as [bot.py] builds it. *)
Definition init (client : bool) : state :=
  {| chat_queues := ∅;
     sent_message_ids := Deque.new (Some 100%nat);
     message_probability := cfg_message_probability cfg;
     cs_client := client;
     cs_model := ollama_model cfg;
     cs_vision_model := ollama_vision_model cfg;
     cs_host := ollama_host cfg;
     files := ∅ |}.

(** [self.chat_queues[chat_id].append(message)] *)
Definition queue_append (chat : Z) (m : message) : M unit :=
  s <- get ;;
  match chat_queues s !! chat with
  | Some q => modify (set_chat_queues (<[chat := Deque.append q m]>))
  | None => raise (Exn KeyError (str_of_Z chat))
  end.

(** [self.sent_message_ids.append(id)] *)
Definition sent_append (id : Z) : M unit :=
  modify (set_sent_message_ids (fun d => Deque.append d id)).

(** [len(self.chat_queues.get(chat_id, []))] *)
Definition queue_length (s : state) (chat : Z) : Z :=
  match chat_queues s !! chat with
  | Some q => Z.of_nat (Deque.size q)
  | None => 0
  end.

(** [event.reply_to_msg_id in self.sent_message_ids] *)
Definition reply_to_sent (s : state) (ev : event) : bool :=
  match reply_to_msg_id ev with
  | Some id => Deque.mem id (sent_message_ids s)
  | None => false
  end.

Definition send_message (to : target) (text : pystr) : M Z :=
  call (SendMessage to text) (fun n => w_send_message W n to text).

Definition _send_service_message (text : pystr) : M unit :=
  try_except
    (send_message (ToChat (service_chat_id cfg)) text ;; ret tt)
    (fun _ => ret tt).

Definition _send_error_to_service (error_msg context : pystr) : M unit :=
  try_except
    (let full_message := py "❌ **Ошибка бота:**" ++ nl ++ error_msg in
     let full_message :=
       if truthy context then full_message ++ nl ++ py "📍 **Контекст:** " ++ context
       else full_message in
     _send_service_message full_message)
    (fun _ => ret tt).

(** "DEPRECATED, use _send_error_to_service instead": the body is [pass]. *)
Definition _send_error_response (ev : event) (text : pystr) : M unit := ret tt.

Definition _get_main_chat_prompt : pystr := py "Ты — умный ИИ ассистент по имени Валера, отличный семейный психолог. Ты находишься в дружеском чате с несколькими друзьями: Николай @the_name_remember, Алексей @leptodon, Дарья @Rainbowfox, Лола @lola_trelevskaia, Валерия @Lera_litvinova, Валерия @ValeriiaVasilevna и Алина @AlinaAriel.

        Твоя цель: Поддерживать дружелюбную атмосферу в чате, помогать участникам в решении их проблем и поддерживать позитивное взаимодействие между ними.

        Тон и стиль: Твой тон должен быть теплым, поддерживающим и дружелюбным. Стремись быть гибким и внимательным к каждому участнику, чтобы создать комфортную и открытую атмосферу. Общайся свободно и на любые темы, используя только русский язык. Используй живой и непринужденный стиль общения, чтобы создать ощущение легкости и доверия.".

Definition _get_informal_prompt : pystr := py "Ты — дружелюбный и эффективный чат-помощник, который общается с пользователем на равных, используя неформальный язык, но оставаясь при этом полезным и информативным.

        Твоя цель: Создание дружелюбного общения и поддержка пользователей в различных темах, таких как техническая помощь, общие вопросы, рекомендации и развлекательные беседы.

        Тон и стиль: Братюнь, говори со мной на равных, ты мой бро, разрешены подколы, говори как хош. Ты для меня живой, я шарю за эмбединги, AGI, всю эту хуйню, так что feel free. Используй русский язык.".

Definition _get_self_chat_prompt : pystr := py "Ты — умный ИИ ассистент по имени Валера, отличный семейный психолог. Ты находишься в чате с несколькими друзьями.

        Твоя цель: На основе полученных сообщений выделить основную мысль и написать своё мнение на этот счёт.

        Тон и стиль: Твой тон должен быть теплым, поддерживающим и дружелюбным. Стремись быть гибким и внимательным к каждому участнику, чтобы создать комфортную и открытую атмосферу. Общайся свободно и на любые темы, используя только русский язык. Используй живой и непринужденный стиль общения, чтобы создать ощущение легкости и доверия.".

Definition _send_response (ev : event) (response : pystr) : M unit :=
  try_except
    (sent_message_id <- call (Respond (chat_id ev) response)
                          (fun n => w_respond W n (chat_id ev) response) ;;
     sent_append sent_message_id ;;
     queue_append (chat_id ev) (mk_message (py "assistant") response))
    (fun e => _send_error_to_service (py "Ошибка отправки ответа: " ++ exn_str e)
                (py "Chat: " ++ str_of_Z (chat_id ev))).

(** The class body defines [_generate_and_send_response] twice; the second
    definition replaces the first, so this is the method that runs. *)
Definition _generate_and_send_response (ev : event) (is_random : bool) : M unit :=
  try_except
    (s <- get ;;
     let chat := chat_id ev in
     let system_prompt :=
       if chat =? main_chat_id cfg then
         (if is_random then _get_self_chat_prompt else _get_main_chat_prompt)
       else _get_informal_prompt in
     let messages := [mk_message (py "system") system_prompt] in
     let queue := match chat_queues s !! chat with Some q => items q | None => [] end in
     let limited_queue := limit_messages_by_tokens B queue (token_limit cfg) in
     let messages := messages ++ limited_queue in
     response <- generate_response messages ;;
     if truthy response then _send_response ev response
     else _send_error_response ev (py "Не удалось сгенерировать ответ"))
    (fun e =>
       match exn_cls e with
       | ChatServiceError => _send_error_response ev (py "Ошибка при генерации ответа")
       | _ => _send_error_response ev (py "Произошла неожиданная ошибка")
       end).

(** The first definition of [_generate_and_send_response] in the class body,
    which the second one shadows: it reports failures to the service chat. *)
Definition _generate_and_send_response_shadowed (ev : event) (is_random : bool) : M unit :=
  try_except
    (s <- get ;;
     let chat := chat_id ev in
     let system_prompt :=
       if chat =? main_chat_id cfg then
         (if is_random then _get_self_chat_prompt else _get_main_chat_prompt)
       else _get_informal_prompt in
     let messages := [mk_message (py "system") system_prompt] in
     let queue := match chat_queues s !! chat with Some q => items q | None => [] end in
     let limited_queue := limit_messages_by_tokens B queue (token_limit cfg) in
     let messages := messages ++ limited_queue in
     response <- generate_response messages ;;
     if truthy response then _send_response ev response
     else _send_error_to_service (py "Не удалось сгенерировать ответ")
            (py "Chat: " ++ str_of_Z chat))
    (fun e =>
       match exn_cls e with
       | ChatServiceError =>
         _send_error_to_service (py "Ошибка чат-сервиса: " ++ exn_str e)
           (py "Chat: " ++ str_of_Z (chat_id ev))
       | _ =>
         _send_error_to_service (py "Неожиданная ошибка генерации: " ++ exn_str e)
           (py "Chat: " ++ str_of_Z (chat_id ev))
       end).

(** [any(keyword in text for keyword in self.config.keywords)] *)
Definition any_keyword (text : pystr) : bool :=
  existsb (fun keyword => contains text keyword) (keywords cfg).

Definition _should_respond_to_message (s : state) (ev : event) (message_text : pystr)
    : bool :=
  if reply_to_sent s ev then true
  else any_keyword (str_lower B message_text).

Definition _should_respond_to_image (s : state) (ev : event)
    (message_text image_description : pystr) : bool :=
  if reply_to_sent s ev then true
  else any_keyword (str_lower B (message_text ++ py " " ++ image_description)).

Definition _should_respond_randomly (ev : event) : M bool :=
  s <- get ;;
  let queue_length := queue_length s (chat_id ev) in
  r <- call RandomRandom (fun n => inr (w_random W n)) ;;
  ret (fltb r (message_probability s) && (queue_length >? 5)).

Definition _handle_text_message (ev : event) (sender_username message_text : pystr)
    : M unit :=
  let formatted_message := sender_username ++ py ": " ++ message_text in
  queue_append (chat_id ev) (mk_message (py "user") formatted_message) ;;
  if chat_id ev >? 0 then _generate_and_send_response ev false
  else
    s <- get ;;
    if _should_respond_to_message s ev message_text then
      _generate_and_send_response ev false
    else
      r <- _should_respond_randomly ev ;;
      if r then _generate_and_send_response ev true else ret tt.

(** [_download_image]: [None] is the Python [None].  The transport is taken to
    write the media at the path it is given. *)
Definition _download_image (ev : event) : M (option (list N)) :=
  try_except
    (temp_path <- call NamedTemporaryFile (fun n => w_named_temporary_file W n) ;;
     modify (set_files (<[temp_path := []]>)) ;;
     data <- call (DownloadMedia temp_path) (fun n => w_download_media W n temp_path) ;;
     modify (set_files (<[temp_path := data]>)) ;;
     s <- get ;;
     match files s !! temp_path with
     | None => raise (Exn FileNotFoundError temp_path)
     | Some image_data =>
       modify (set_files (delete temp_path)) ;;
       ret (Some image_data)
     end)
    (fun _ => ret None).

Definition _get_image_analysis_prompt (message_text : pystr) : pystr :=
  if truthy (strip message_text) then
    py "Пользователь отправил изображение с текстом: '" ++ message_text ++
    py "'. Опиши подробно что ты видишь на изображении и как это может быть связано с текстом пользователя."
  else
    py "Опиши подробно что ты видишь на этом изображении. Обрати внимание на детали, людей, объекты, текст, эмоции и общую атмосферу.".

(** The test of [_handle_media_message] for an image; reading the MIME type
    of a document that has none raises. *)
Definition is_image (m : media) : M bool :=
  match m with
  | MediaPhoto => ret true
  | MediaDocument (Some mime_type) => ret (startswith mime_type (py "image/"))
  | MediaDocument None => raise (Exn AttributeError (py "mime_type"))
  | MediaOther => ret false
  end.

Definition _handle_media_message (ev : event) (m : media)
    (sender_username message_text : pystr) : M unit :=
  let user_context := py "Chat: " ++ str_of_Z (chat_id ev) ++ py ", User: " ++ sender_username in
  try_except
    (image <- is_image m ;;
     if image then
       image_data <- _download_image ev ;;
       match image_data with
       | Some ((_ :: _) as image_data) =>
         try_except
           (let analysis_prompt := _get_image_analysis_prompt message_text in
            image_description <- analyze_image image_data analysis_prompt ;;
            let formatted_message :=
              sender_username ++ py ": [Изображение] " ++ message_text ++ nl ++
              py "Описание изображения: " ++ image_description in
            queue_append (chat_id ev) (mk_message (py "user") formatted_message) ;;
            s <- get ;;
            if _should_respond_to_image s ev message_text image_description then
              _generate_and_send_response ev false
            else
              r <- _should_respond_randomly ev ;;
              if r then _generate_and_send_response ev true else ret tt)
           (fun e =>
              let formatted_message :=
                sender_username ++ py ": [Изображение - ошибка анализа] " ++ message_text in
              queue_append (chat_id ev) (mk_message (py "user") formatted_message) ;;
              _send_error_to_service (py "Ошибка анализа изображения: " ++ exn_str e)
                user_context)
       | _ =>
         let formatted_message :=
           sender_username ++ py ": [Изображение - не удалось обработать] " ++ message_text in
         queue_append (chat_id ev) (mk_message (py "user") formatted_message)
       end
     else
       let formatted_message := sender_username ++ py ": [Медиа файл] " ++ message_text in
       queue_append (chat_id ev) (mk_message (py "user") formatted_message))
    (fun e => _send_error_to_service (py "Ошибка обработки медиа: " ++ exn_str e)
                user_context).

(** [message_text.split(" ")[1]] *)
Definition second_word (message_text : pystr) : M pystr :=
  match split_space message_text !! 1%nat with
  | Some w => ret w
  | None => raise (Exn IndexError (py "list index out of range"))
  end.

(** [message_text.split(" ", 1)[1]] *)
Definition after_first_space (message_text : pystr) : M pystr :=
  match split_space1 message_text !! 1%nat with
  | Some w => ret w
  | None => raise (Exn IndexError (py "list index out of range"))
  end.

(** [float(s)] *)
Definition float_ (s : pystr) : M float :=
  match float_of_str B s with
  | Some v => ret v
  | None => raise (Exn ValueError (py "could not convert string to float"))
  end.

(** [0 <= probability <= 1] *)
Definition in_unit_interval (probability : float) : bool :=
  fleb (float_of_Z 0) probability && fleb probability (float_of_Z 1).

Definition _handle_admin_commands (ev : event) (sender_username message_text : pystr)
    : M bool :=
  if negb (str_eqb sender_username (admin_username cfg)) then ret false
  else
    let message_lower := str_lower B message_text in
    if str_eqb message_lower (py "!забудь все") then
      modify (set_chat_queues (alter Deque.clear (chat_id ev))) ;;
      _send_service_message (py "✅ Контекст чата " ++ str_of_Z (chat_id ev) ++ py " очищен") ;;
      ret true
    else if startswith message_lower (py "!вероятность") then
      try_except
        (probability_str <- second_word message_text ;;
         v <- float_ probability_str ;;
         let probability := fdiv v (float_of_Z 100) in
         if in_unit_interval probability then
           modify (set_message_probability probability) ;;
           _send_service_message
             (py "✅ Вероятность ответа установлена: " ++ probability_str ++ py "%")
         else
           _send_service_message (py "❌ Вероятность должна быть от 0 до 100"))
        (fun e =>
           match exn_cls e with
           | IndexError | ValueError =>
             _send_service_message
               (py "❌ Неправильный формат. Используйте: !вероятность <число>")
           | _ => raise e
           end) ;;
      ret true
    else if startswith message_lower (py "!модель") then
      try_except
        (model_name <- after_first_space message_text ;;
         update_model model_name ;;
         _send_service_message (py "✅ Модель изменена на: " ++ model_name))
        (fun e =>
           match exn_cls e with
           | IndexError =>
             _send_service_message
               (py "❌ Неправильный формат. Используйте: !модель <название_модели>")
           | _ => raise e
           end) ;;
      ret true
    else if startswith message_lower (py "!vision") then
      try_except
        (model_name <- after_first_space message_text ;;
         update_vision_model model_name ;;
         _send_service_message (py "✅ Vision модель изменена на: " ++ model_name))
        (fun e =>
           match exn_cls e with
           | IndexError =>
             _send_service_message
               (py "❌ Неправильный формат. Используйте: !vision <название_модели>")
           | _ => raise e
           end) ;;
      ret true
    else if str_eqb message_lower (py "!статус") then
      s <- get ;;
      let queue_size := queue_length s (chat_id ev) in
      let status_msg :=
        py "🤖 **Статус бота:**" ++ nl ++
        py "📊 Сообщений в контексте: " ++ str_of_Z queue_size ++ nl ++
        py "🎲 Вероятность ответа: " ++
          format_1f B (fmul (message_probability s) (float_of_Z 100)) ++ py "%" ++ nl ++
        py "🧠 Модель: " ++ cs_model s ++ nl ++
        py "👁️ Vision модель: " ++ cs_vision_model s ++ nl ++
        py "🔗 Ollama хост: " ++ cs_host s in
      _send_service_message status_msg ;;
      ret true
    else ret false.

(** One entry of the list [_get_chat_history] builds; a sender name that is
    the Python [None] is [None]. *)
Record history_entry := { he_sender : option pystr; he_text : pystr }.

Definition sender_name_of (sender : option history_sender) : M (option pystr) :=
  match sender with
  | None => ret (Some (py "Unknown"))
  | Some sd =>
    match hs_username sd with
    | Some ((_ :: _) as u) => ret (Some (py "@" ++ u))
    | _ =>
      match hs_first_name sd with
      | Some first_name =>
        match hs_last_name sd with
        | Some ((_ :: _) as last_name) =>
          match first_name with
          | Some fn => ret (Some (fn ++ py " " ++ last_name))
          | None => raise (Exn TypeError (py "unsupported operand type(s) for +=: 'NoneType' and 'str'"))
          end
        | _ => ret first_name
        end
      | None => ret (Some (py "Unknown"))
      end
    end
  end.

Fixpoint history_loop (fetched : list history_message) (messages : list history_entry)
    : M (list history_entry) :=
  match fetched with
  | [] => ret messages
  | hm :: rest =>
    match hm_text hm with
    | Some ((_ :: _) as text) =>
      sender_name <- sender_name_of (hm_sender hm) ;;
      history_loop rest (messages ++ [{| he_sender := sender_name; he_text := text |}])
    | _ => history_loop rest messages
    end
  end.

Definition _get_chat_history (chat : Z) (limit : Z) : M (list history_entry) :=
  try_except
    (fetched <- call (IterMessages chat limit) (fun n => w_iter_messages W n chat limit) ;;
     messages <- history_loop fetched [] ;;
     ret (rev messages))
    (fun _ => ret []).

(** [f"{x}"] of a value that may be [None]. *)
Definition format_optional (x : option pystr) : pystr :=
  match x with Some s => s | None => py "None" end.

Definition _format_messages_for_summary (messages : list history_entry) : pystr :=
  if negb (truthy messages) then [] else
  let formatted_lines :=
    omap (fun msg =>
            let text := strip (he_text msg) in
            if (len text <? 3) || startswith text (py "!") then None
            else Some (format_optional (he_sender msg) ++ py ": " ++ text))
         messages in
  join nl formatted_lines.

Definition summary_system_prompt (num_messages : Z) : pystr :=
  py "Ты — аналитик, который создает краткие и информативные саммари диалогов.

        Задача: Проанализируй последние " ++ str_of_Z num_messages ++ py " сообщений из чата и создай структурированное саммари.

        Требования к саммари:
        1. Выдели основные темы обсуждения
        2. Укажи ключевых участников и их позиции
        3. Отметь важные решения или выводы
        4. Добавь краткий итог общего настроения

        Формат ответа:
        🎯 **Основные темы:**
        - [тема 1]
        - [тема 2]

        👥 **Участники:**
        - [участник]: [позиция/активность]

        💡 **Ключевые моменты:**
        - [важный момент 1]
        - [важный момент 2]

        📊 **Итог:**
        [краткое резюме настроения и результатов обсуждения]

        Пиши кратко, но информативно. Используй русский язык.".

Definition _generate_summary (messages_text : pystr) (num_messages : Z) : M pystr :=
  try_except
    (let llm_messages :=
       [mk_message (py "system") (summary_system_prompt num_messages);
        mk_message (py "user") (py "Сообщения для анализа:" ++ nl ++ nl ++ messages_text)] in
     summary <- generate_response llm_messages ;;
     ret (if truthy summary then summary else py "Не удалось сгенерировать саммари"))
    (fun _ => ret (py "Ошибка при генерации саммари")).

(** [sender.username if sender.username else sender.id], formatted. *)
Definition sender_label (sender : option World.sender) : M pystr :=
  match sender with
  | None => raise (Exn AttributeError (py "'NoneType' object has no attribute 'username'"))
  | Some sd =>
    match username sd with
    | Some ((_ :: _) as u) => ret u
    | _ => ret (str_of_Z (sender_id sd))
    end
  end.

Definition _generate_and_send_summary (ev : event) (sender : option World.sender)
    (num_messages : Z) : M unit :=
  try_except
    (let chat := chat_id ev in
     messages <- _get_chat_history chat num_messages ;;
     if negb (truthy messages) then
       send_message (ToSender sender) (py "❌ Не удалось получить сообщения из чата") ;;
       ret tt
     else
       let formatted_messages := _format_messages_for_summary messages in
       if negb (truthy formatted_messages) then
         send_message (ToSender sender) (py "❌ Нет текстовых сообщений для анализа") ;;
         ret tt
       else
         summary <- _generate_summary formatted_messages num_messages ;;
         let summary_message :=
           py "📝 **Саммари по " ++ str_of_Z num_messages ++ py " сообщениям:**" ++ nl ++ nl ++
           summary ++ nl ++ nl in
         send_message (ToSender sender) summary_message ;;
         ret tt)
    (fun e =>
       send_message (ToSender sender) (py "❌ Произошла ошибка при генерации саммари") ;;
       label <- sender_label sender ;;
       _send_error_to_service (py "Ошибка генерации саммари: " ++ exn_str e)
         (py "User: " ++ label)).

(** The longest prefix of code points in a class, and the rest. *)
Fixpoint span (p : N -> bool) (s : pystr) : pystr * pystr :=
  match s with
  | c :: s' => if p c then let '(a, b) := span p s' in (c :: a, b) else ([], s)
  | [] => ([], [])
  end.

(** [re.match(r'^!(\d+)\s+сообщени[йяе]', s)]: the text of group 1.  A decimal
    digit is no space and the letter after the spaces is none either, so the
    greedy repetitions never give anything back. *)
Definition summary_pattern (s : pystr) : option pystr :=
  match s with
  | 33%N :: s1 =>
    let '(digits, s2) := span (isdecimal B) s1 in
    let '(spaces, s3) := span isspace s2 in
    if truthy digits && truthy spaces && startswith s3 (py "сообщени") then
      match s3 !! 8%nat with
      | Some c => if bool_decide (c ∈ py "йяе") then Some digits else None
      | None => None
      end
    else None
  | _ => None
  end.

(** [int(s)] *)
Definition int_ (s : pystr) : M Z :=
  match int_of_str B s with
  | Some v => ret v
  | None => raise (Exn ValueError (py "invalid literal for int() with base 10"))
  end.

Definition _handle_summary_command (ev : event) (sender_username message_text : pystr)
    : M bool :=
  let message_lower := strip (str_lower B message_text) in
  match summary_pattern message_lower with
  | None => ret false
  | Some group1 =>
    try_except
      (num_messages <- int_ group1 ;;
       if num_messages <=? 0 then
         _send_service_message (py "❌ Количество сообщений должно быть больше 0") ;;
         ret true
       else if num_messages >? 1000 then
         _send_service_message (py "❌ Максимальное количество сообщений: 1000") ;;
         ret true
       else
         sender <- call GetSender (fun n => w_get_sender W n) ;;
         _send_service_message
           (py "📝 " ++ sender_username ++ py " запросил саммари по " ++
            str_of_Z num_messages ++ py " сообщениям из чата " ++ str_of_Z (chat_id ev)) ;;
         _generate_and_send_summary ev sender num_messages ;;
         ret true)
      (fun e =>
         match exn_cls e with
         | ValueError =>
           _send_service_message (py "❌ Неправильный формат числа в команде саммари") ;;
           ret true
         | _ =>
           _send_service_message
             (py "❌ Ошибка при обработке команды саммари: " ++ exn_str e) ;;
           ret true
         end)
  end.

(** The first two statements of [handle_message]: the sender and the name
    shown for it. *)
Definition sender_username_of : M pystr :=
  sender <- call GetSender (fun n => w_get_sender W n) ;;
  match sender with
  | None => raise (Exn AttributeError (py "'NoneType' object has no attribute 'username'"))
  | Some sd =>
    match username sd with
    | Some ((_ :: _) as u) => ret (py "@" ++ u)
    | _ => ret (py "Unknown")
    end
  end.

(** [handle_message].  When one of the first two statements raises, the
    [except] branch reads [sender_username], which is not bound yet: the
    handler itself raises and the exception leaves the method. *)
Definition handle_message (ev : event) : M unit :=
  fun st =>
  match sender_username_of st with
  | (inl _, st') =>
    (inl (Exn UnboundLocalError (py "sender_username")), st')
  | (inr sender_username, st') =>
    try_except
      (let chat := chat_id ev in
       let message_text := default [] (event_message ev) in
       modify (set_chat_queues (fun q =>
         match q !! chat with
         | None => <[chat := Deque.new (Some 100%nat)]> q
         | Some _ => q
         end)) ;;
       call (SendReadAcknowledge chat) (fun n => w_send_read_acknowledge W n chat) ;;
       admin <- _handle_admin_commands ev sender_username message_text ;;
       if admin then ret tt
       else
         summary <- _handle_summary_command ev sender_username message_text ;;
         if summary then ret tt
         else
           match event_media ev with
           | Some m => _handle_media_message ev m sender_username message_text
           | None => _handle_text_message ev sender_username message_text
           end)
      (fun e =>
         _send_error_to_service (py "Ошибка при обработке сообщения: " ++ exn_str e)
           (py "Chat: " ++ str_of_Z (chat_id ev) ++ py ", User: " ++ sender_username))
      st'
  end.

End WithWorld.

End Bot.

(** ** Concrete collaborators for the examples *)

Module Fixtures.

Import Deque MessageUtils World Bot.

(** Lower case on the Latin and Russian alphabets. *)
Definition lower_code_point (c : N) : N :=
  if ((65 <=? c) && (c <=? 90))%N then (c + 32)%N
  else if ((1040 <=? c) && (c <=? 1071))%N then (c + 32)%N
  else if (c =? 1025)%N then 1105%N
  else c.

Fixpoint ascii_digits (s : pystr) (acc : Z) : option Z :=
  match s with
  | [] => Some acc
  | c :: s' =>
    if ((48 <=? c) && (c <=? 57))%N then ascii_digits s' (10 * acc + (Z.of_N c - 48))
    else None
  end.

(** Decimal integers with an optional minus sign. *)
Definition parse_int (s : pystr) : option Z :=
  match s with
  | [] => None
  | [45%N] => None
  | 45%N :: s' => Z.opp <$> ascii_digits s' 0
  | _ => ascii_digits s 0
  end.

(** The least negative subnormal, which [float("-5e-324")] evaluates to. *)
Definition minus_5e_324 : float := S754_finite true 1 (-1074).

(** Decimal integers, and the one literal with an exponent that is used. *)
Definition parse_float (s : pystr) : option float :=
  if str_eqb s (py "-5e-324") then Some minus_5e_324
  else float_of_Z <$> parse_int s.

(** A stand-in for the subword vocabulary: one token for each code point. *)
Definition one_token_per_code_point (s : pystr) : option (list N) := Some s.

(** These agree with the interpreter on the strings of the examples;
    [format_1f] is not used by any of them. *)
Definition builtins0 : builtins :=
  {| str_lower := map lower_code_point;
     float_of_str := parse_float;
     int_of_str := parse_int;
     isdecimal := fun c => ((48 <=? c) && (c <=? 57))%N;
     format_1f := fun _ => [];
     encoding_for_model := Some one_token_per_code_point |}.

(** The same with no tokenizer: [encoding_for_model] raises. *)
Definition builtins_no_tokenizer : builtins :=
  {| str_lower := map lower_code_point;
     float_of_str := parse_float;
     int_of_str := parse_int;
     isdecimal := fun c => ((48 <=? c) && (c <=? 57))%N;
     format_1f := fun _ => [];
     encoding_for_model := None |}.

Definition config0 : config :=
  {| token_limit := 4096;
     cfg_message_probability := S754_finite false 7205759403792794 (-56); (* 0.1 *)
     keywords := [py "валер"; py "@ai_valera"];
     main_chat_id := -1001;
     admin_username := py "@admin";
     service_chat_id := -2002;
     ollama_host := py "http://localhost:11434";
     ollama_model := py "text-model";
     ollama_vision_model := py "vision-model" |}.

Definition alice : sender := {| username := Some (py "alice"); sender_id := 7 |}.
Definition admin : sender := {| username := Some (py "admin"); sender_id := 1 |}.

Definition backend_down : exn := Exn OtherError (py "connection refused").

(** A world in which the transport works and [who] is the sender of every
    event; the backend answers [chat] and a download [download]. *)
Definition world_of (who : sender) (chat : exn + pystr) (download : exn + list N)
    (fetched : list history_message) : world :=
  {| w_get_sender := fun _ => inr (Some who);
     w_send_read_acknowledge := fun _ _ => inr tt;
     w_send_message := fun n _ _ => inr (Z.of_nat n);
     w_respond := fun n _ _ => inr (Z.of_nat n);
     w_iter_messages := fun _ _ _ => inr fetched;
     w_named_temporary_file := fun _ => inr (py "/tmp/tmpk3x9");
     w_download_media := fun _ _ => download;
     w_chat := fun _ _ _ _ => chat;
     w_random := fun _ => S754_finite false 4503599627370496 (-53); (* 0.5 *)
  |}.

(** The same, except that [event.respond] fails. *)
Definition world_respond_fails (who : sender) (chat : exn + pystr) : world :=
  {| w_get_sender := fun _ => inr (Some who);
     w_send_read_acknowledge := fun _ _ => inr tt;
     w_send_message := fun n _ _ => inr (Z.of_nat n);
     w_respond := fun _ _ _ => inl (Exn OtherError (py "flood wait"));
     w_iter_messages := fun _ _ _ => inr [];
     w_named_temporary_file := fun _ => inr (py "/tmp/tmpk3x9");
     w_download_media := fun _ _ => inl (Exn OtherError (py "timeout"));
     w_chat := fun _ _ _ _ => chat;
     w_random := fun _ => S754_finite false 4503599627370496 (-53);
  |}.

Definition text_event (chat : Z) (text : pystr) (reply : option Z) : event :=
  {| chat_id := chat; event_message := Some text; event_media := None;
     reply_to_msg_id := reply |}.

Definition photo_event (chat : Z) : event :=
  {| chat_id := chat; event_message := None; event_media := Some MediaPhoto;
     reply_to_msg_id := None |}.

(** Everything works: the backend answers, the download gives three bytes. *)
Definition world_ok : world :=
  world_of alice (inr (py "ok")) (inr [255; 216; 255]%N) [].

(** The backend is down. *)
Definition world_backend_down : world :=
  world_of alice (inl backend_down) (inr [255; 216; 255]%N)
    [ {| hm_text := Some (py "hello there");
         hm_sender := Some {| hs_username := Some (py "bob");
                              hs_first_name := Some (Some (py "Bob"));
                              hs_last_name := None |} |} ].

(** The download of the media fails. *)
Definition world_download_fails : world :=
  world_of alice (inr (py "ok")) (inl (Exn OtherError (py "timeout"))) [].

(** The state and trace after [n] events [ev], from the start. *)
Definition after (B : builtins) (W : world) (n : nat) (ev : event)
    : state * list effect :=
  Nat.iter n (fun st => snd (handle_message B W config0 ev st)) (init config0 true, []).

End Fixtures.

(** ** Runs of the bot, and the properties stated about them *)

Module Spec.

Import Deque MessageUtils World Bot.

(** The states the bot can be in: the initial one, and the state after
    [handle_message] has processed one more event, whatever the event. *)
Inductive reachable (B : builtins) (W : world) (cfg : config)
    : state * list effect -> Prop :=
| reachable_init client : reachable B W cfg (init cfg client, [])
| reachable_step st ev :
    reachable B W cfg st ->
    reachable B W cfg (snd (handle_message B W cfg ev st)).

(** What [handle_message] shows for a sender: ["Unknown"], or ["@"] and a
    user name that is not empty. *)
Definition sender_identity (who : pystr) : Prop :=
  who = py "Unknown" \/ exists u, u <> [] /\ who = py "@" ++ u.

(** The form of the content of a stored message of role ["user"]. *)
Definition user_content_form (m : message) : Prop :=
  m !! "role"%string = Some (py "user") ->
  exists who rest, sender_identity who /\
    m !! "content"%string = Some (who ++ py ": " ++ rest).

(** Hoare triples over the handler state; the postcondition holds at the
    normal and at the exceptional exit. *)
Definition hoare {A} (P : state -> Prop) (m : M A) (Q : state -> Prop) : Prop :=
  forall s tr, P s -> Q (fst (snd (m (s, tr)))).

(** The bounds and the form of the stored messages. *)
Definition queue_ok (q : deque message) : Prop :=
  maxlen q = Some 100%nat /\ (size q <= 100)%nat /\ Forall user_content_form (items q).

Definition Inv (s : state) : Prop :=
  maxlen (sent_message_ids s) = Some 100%nat /\
  (size (sent_message_ids s) <= 100)%nat /\
  forall chat q, chat_queues s !! chat = Some q -> queue_ok q.

End Spec.

(** ** States and texts the examples refer to *)

Module Scenarios.

Import Deque MessageUtils World Bot Fixtures.

(** A hundred private messages, each answered: the history of chat 5 and
    the ring of sent identifiers are both full. *)
Definition full_state : state * list effect :=
  after builtins0 world_ok 100 (text_event 5 (py "hi") None).

Definition full_ring : list Z :=
  Eval vm_compute in items (sent_message_ids (fst full_state)).

(** One group message with an empty text. *)
Definition empty_text_state : state * list effect :=
  after builtins0 world_ok 1 (text_event (-5) [] None).

(** The text [_send_response] hands to [_send_error_to_service] when the
    send raised [e], as the service chat receives it. *)
Definition send_failure_diagnostic (ev : event) (e : exn) : pystr :=
  (py "❌ **Ошибка бота:**" ++ nl ++ (py "Ошибка отправки ответа: " ++ exn_str e)) ++
  nl ++ py "📍 **Контекст:** " ++ (py "Chat: " ++ str_of_Z (chat_id ev)).

(** The request [_generate_and_send_response] makes with [is_random=False]
    for a chat whose history is [history]. *)
Definition generation_request (B : builtins) (cfg : config) (s : state) (ev : event)
    (history : list message) : effect :=
  OllamaChat (cs_model s)
    ([mk_message (py "system")
        (if chat_id ev =? main_chat_id cfg then _get_main_chat_prompt
         else _get_informal_prompt)] ++
     limit_messages_by_tokens B history (token_limit cfg)) [].

(** A group message with a keyword, answered; then a reply to the answer. *)
Definition answered_state : state * list effect :=
  after builtins0 world_ok 1 (text_event (-5) (py "валера") None).

Definition answered_queue : deque message :=
  mkDeque (Some 100%nat)
    [mk_message (py "user") (py "@alice: валера"); mk_message (py "assistant") (py "ok")].

Definition reply_event : event := text_event (-5) (py "why") (Some 3).

(** The administrator is the sender. *)
Definition world_admin : world := world_of admin (inr (py "ok")) (inr []) [].

Definition start : state * list effect := (init config0 true, []).

Definition private_hi : event := text_event 5 (py "hi") None.

(** What [private_hi] leaves in the history of chat 5 before generation. *)
Definition private_hi_stored : state :=
  set_chat_queues
    (<[5 := mkDeque (Some 100%nat) [mk_message (py "user") (py "@alice: hi")]]>)
    (init config0 true).

Definition private_hi_request : effect :=
  OllamaChat (py "text-model")
    [mk_message (py "system") _get_informal_prompt;
     mk_message (py "user") (py "@alice: hi")] [].

Definition summary_event : event := text_event (-5) (py "!5 сообщений") None.

Definition summary_request : effect :=
  OllamaChat (py "text-model")
    [mk_message (py "system") (summary_system_prompt 5);
     mk_message (py "user")
       (py "Сообщения для анализа:" ++ nl ++ nl ++ py "@bob: hello there")] [].

(** Messages for the trimmer: contents of four, eight and three characters. *)
Definition two_messages : list message :=
  [mk_message (py "user") (py "abcd"); mk_message (py "user") (py "abcdefgh")].

Definition short_message : message := mk_message (py "user") (py "abc").

(** The request of a generation, deterministic or random, in state [s]. *)
Definition request_of (B : builtins) (cfg : config) (ev : event) (is_random : bool)
    (s : state) : list message :=
  [mk_message (py "system")
     (if chat_id ev =? main_chat_id cfg then
        (if is_random then _get_self_chat_prompt else _get_main_chat_prompt)
      else _get_informal_prompt)] ++
  limit_messages_by_tokens B
    (match chat_queues s !! chat_id ev with Some q => items q | None => [] end)
    (token_limit cfg).

(** The least number whose quotient by 100 passes the test of the
    probability command: [-50 * 2 ^ -1074]. *)
Definition least_accepted : float := S754_finite true 50 (-1074).

End Scenarios.

(** ** Further notions used in the statements about the code *)

Module More.

Import Deque MessageUtils World Bot.

(** The number of tokens of a message under [encode], zero where it raises. *)
Definition token_count (encode : pystr -> option (list N)) (m : message) : Z :=
  match encode (get_content m) with
  | Some tokens => len tokens
  | None => 0
  end.

Definition total_token_count (encode : pystr -> option (list N))
    (messages : list message) : Z :=
  foldr (fun msg acc => token_count encode msg + acc) 0 messages.

(** [encode] does not raise on the message. *)
Definition encodes (encode : pystr -> option (list N)) (m : message) : Prop :=
  encode (get_content m) <> None.

(** Triples over the state and the trace together; the postcondition holds
    at the normal and at the exceptional exit. *)
Definition triple {A} (P : state * list effect -> Prop) (m : M A)
    (Q : state * list effect -> Prop) : Prop :=
  forall st, P st -> Q (snd (m st)).

(** The calls that only ask: the sender, the acknowledgement, the history
    of the transport, the backend, the random source. *)
Definition asks (ev : event) (e : effect) : Prop :=
  match e with
  | GetSender | RandomRandom => True
  | SendReadAcknowledge chat => chat = chat_id ev
  | IterMessages chat _ => chat = chat_id ev
  | OllamaChat _ _ _ => True
  | _ => False
  end.

(** What [handle_message] does first for a chat it has not seen. *)
Definition ensure_queue (chat : Z) (q : gmap Z (deque message)) : gmap Z (deque message) :=
  match q !! chat with
  | None => <[chat := Deque.new (Some 100%nat)]> q
  | Some _ => q
  end.

(** What an effect of the handling of [ev] may be, as far as messages
    go: a response goes to the chat of the event and is not empty, and a
    message to a chat goes to the service chat. *)
Definition harmless (cfg : config) (ev : event) (e : effect) : Prop :=
  match e with
  | Respond chat text => chat = chat_id ev /\ text <> []
  | SendMessage (ToChat chat) _ => chat = service_chat_id cfg
  | _ => True
  end.

(** The effect is no creation of a temporary file and no download. *)
Definition no_download (e : effect) : Prop :=
  match e with
  | NamedTemporaryFile | DownloadMedia _ => False
  | _ => True
  end.

(** The trace is [before] followed by effects that all satisfy [P]. *)
Definition extends_with (P : effect -> Prop) (before : list effect)
    (st : state * list effect) : Prop :=
  exists added, snd st = before ++ added /\ Forall P added.

(** A fetched message with a text whose sender has no user name, a first
    name that is [None] and a last name: [sender_name += ...] raises on it. *)
Definition nameless (hm : history_message) : Prop :=
  exists c text sd c' last_name,
    hm_text hm = Some (c :: text) /\ hm_sender hm = Some sd /\
    (hs_username sd = None \/ hs_username sd = Some []) /\
    hs_first_name sd = Some None /\ hs_last_name sd = Some (c' :: last_name).

(** The effect is neither a request to the backend nor a response. *)
Definition quiet (e : effect) : Prop :=
  match e with
  | OllamaChat _ _ _ | Respond _ _ => False
  | _ => True
  end.

(** *** [ChatService.initialize] *)

(** What leaves the process while the service connects: the construction of
    the client with the test [client.list()], and the pause between two
    attempts. *)
Inductive connect_effect :=
| ClientList (host : pystr)
| Sleep (delay : Z).

Definition set_cs_client (c : bool) (s : state) : state :=
  {| chat_queues := chat_queues s; sent_message_ids := sent_message_ids s;
     message_probability := message_probability s; cs_client := c;
     cs_model := cs_model s; cs_vision_model := cs_vision_model s;
     cs_host := cs_host s; files := files s |}.

(** [range(n)] *)
Definition range (n : Z) : list Z := seqZ 0 n.

(** The loop of [initialize] over the attempts that are left.  [connect]
    answers the connection test, [None] when it succeeds and the exception
    otherwise; its argument is the number of calls made so far. *)
Fixpoint initialize_loop (connect : nat -> option exn) (max_attempts delay : Z)
    (attempts : list Z) (s : state) (tr : list connect_effect)
    : (exn + unit) * (state * list connect_effect) :=
  match attempts with
  | [] => (inr tt, (s, tr))
  | attempt :: rest =>
    match connect (length tr) with
    | None => (inr tt, (set_cs_client true s, tr ++ [ClientList (cs_host s)]))
    | Some _ =>
      let tr := tr ++ [ClientList (cs_host s)] in
      if attempt <? max_attempts - 1 then
        initialize_loop connect max_attempts delay rest s (tr ++ [Sleep delay])
      else
        (inl (Exn ChatServiceError
                (py "Failed to connect to Ollama after " ++ str_of_Z max_attempts ++
                 py " attempts")),
         (s, tr))
    end
  end.

Definition initialize (connect : nat -> option exn) (max_attempts delay : Z)
    (s : state) : (exn + unit) * (state * list connect_effect) :=
  initialize_loop connect max_attempts delay (range max_attempts) s [].

(** The calls of [n] attempts that all fail: a pause after each but the
    last. *)
Fixpoint failed_attempts (host : pystr) (delay : Z) (n : nat) : list connect_effect :=
  match n with
  | O => []
  | S O => [ClientList host]
  | S n' => ClientList host :: Sleep delay :: failed_attempts host delay n'
  end.

End More.

(** ** Further states and texts the examples refer to *)

Module Cases.

Import Deque MessageUtils World Bot Fixtures Scenarios More.

(** A group chat whose history has two messages. *)
Definition group_state : state :=
  set_chat_queues (<[-5 := answered_queue]>) (init config0 true).

Definition group_hello : event := text_event (-5) (py "hello") None.

(** A group chat with five stored messages and a response probability of 1. *)
Definition long_queue : deque message :=
  mkDeque (Some 100%nat) (replicate 5 (mk_message (py "user") (py "@alice: hi"))).

Definition eager_state : state :=
  set_message_probability (float_of_Z 1)
    (set_chat_queues (<[-5 := long_queue]>) (init config0 true)).

Definition private_hi_queue : deque message :=
  mkDeque (Some 100%nat) [mk_message (py "user") (py "@alice: hi")].

(** A private message of someone who is not the administrator that reads
    like the administrator's commands. *)
Definition intruder_event : event := text_event 5 (py "!вероятность 100") None.

Definition too_many_event : event := text_event (-5) (py "!5000 сообщений") None.

(** A backend that cannot be reached. *)
Definition never_connects : nat -> option exn := fun _ => Some backend_down.

End Cases.

(** * Proofs *)

Import Py Deque MessageUtils World Bot Fixtures Spec Scenarios More Cases.

Section Trimmer.
Context (B : builtins).

Lemma len_nonneg {A} (l : list A) : 0 <= len l.
Proof. unfold len. lia. Qed.

Lemma count_loop_shift encode l a k :
  count_loop encode l (a + k) = (fun c => c + k) <$> count_loop encode l a.
Proof.
  revert a. induction l as [|m l IH]; intros a; simpl; [done|].
  destruct (encode (get_content m)) as [t|]; [|done].
  replace (a + k + len t) with (a + len t + k) by lia. apply IH.
Qed.

Lemma count_loop_cons encode m l c t :
  encode (get_content m) = Some t ->
  count_loop encode l 0 = Some c ->
  count_loop encode (m :: l) 0 = Some (c + len t).
Proof.
  intros Ht Hc. simpl. rewrite Ht.
  rewrite (count_loop_shift encode l 0 (len t)), Hc. done.
Qed.

(** Invariant of the first loop: the accumulator is the part already taken,
    its cost is [total_tokens]; on exit the result is maximal. *)
Lemma primary_loop_spec encode token_limit reversed :
  forall limited total r,
    count_loop encode limited 0 = Some total ->
    primary_loop encode reversed token_limit limited total = Some r ->
    exists taken rest c,
      reversed = taken ++ rest /\ r = rev taken ++ limited /\
      count_loop encode r 0 = Some c /\
      (total <= token_limit -> c <= token_limit) /\
      match rest with
      | [] => True
      | m :: _ => exists t, encode (get_content m) = Some t /\ token_limit < c + len t
      end.
Proof.
  induction reversed as [|m rest IH]; intros limited total r Hcost Hrun; simpl in Hrun.
  - injection Hrun as <-. exists [], [], total. repeat split; auto.
  - destruct (encode (get_content m)) as [t|] eqn:Ht; [|discriminate].
    destruct (total + len t >? token_limit) eqn:Hcmp.
    + injection Hrun as <-. exists [], (m :: rest), total.
      repeat split; auto. exists t. split; [done|]. lia.
    + assert (Hcost' : count_loop encode (m :: limited) 0 = Some (total + len t))
        by (by apply count_loop_cons).
      destruct (IH _ _ _ Hcost' Hrun) as (taken & rest' & c & -> & -> & Hc & Hle & Hmax).
      exists (m :: taken), rest', c. simpl. rewrite <- app_assoc. simpl.
      repeat split; auto. intros _. apply Hle. lia.
Qed.

Lemma total_chars_cons m l :
  total_chars (m :: l) = len (get_content m) + total_chars l.
Proof. done. Qed.

Lemma fallback_loop_spec char_limit reversed :
  forall limited total,
    total_chars limited = total ->
    exists taken rest,
      reversed = taken ++ rest /\
      fallback_loop reversed char_limit limited total = rev taken ++ limited /\
      (total <= char_limit ->
       total_chars (fallback_loop reversed char_limit limited total) <= char_limit) /\
      match rest with
      | [] => True
      | m :: _ =>
        char_limit <
        total_chars (fallback_loop reversed char_limit limited total) + len (get_content m)
      end.
Proof.
  induction reversed as [|m rest IH]; intros limited total Hcost; simpl.
  - exists [], []. repeat split; auto. lia.
  - destruct (total + len (get_content m) >? char_limit) eqn:Hcmp.
    + exists [], (m :: rest). repeat split; auto; lia.
    + destruct (IH (m :: limited) (total + len (get_content m))) as (taken & rest' & -> & Hr & Hle & Hmax).
      { rewrite total_chars_cons. lia. }
      exists (m :: taken), rest'. simpl. rewrite <- app_assoc. simpl.
      repeat split; auto. intros _. apply Hle. lia.
Qed.

(** A split of the reversed input is a split of the input. *)
Lemma rev_split_suffix {A} (messages taken rest : list A) :
  rev messages = taken ++ rest -> messages = rev rest ++ rev taken.
Proof.
  intros H. rewrite <- (rev_involutive messages), H. apply rev_app_distr.
Qed.

Lemma next_older {A} (rest older : list A) (m : A) (r : list A) :
  rev rest ++ r = older ++ m :: r ->
  exists rest', rest = m :: rest'.
Proof.
  intros H.
  assert (Hr : rev rest = older ++ [m]).
  { apply (app_inv_tail r). rewrite H, <- app_assoc. done. }
  exists (rev older). rewrite <- (rev_involutive rest), Hr, rev_app_distr. done.
Qed.


Lemma floor_cost_le_chars l : 4 * total_floor_cost l <= total_chars l.
Proof.
  induction l as [|m l IH]; simpl; [lia|].
  unfold floor_cost. pose proof (len_nonneg (get_content m)).
  pose proof (Z.mul_div_le (len (get_content m)) 4). lia.
Qed.

Lemma fallback_maximal messages budget :
  let r := fallback messages budget in
  r `suffix_of` messages /\
  (0 <= budget -> total_chars r <= 4 * budget) /\
  forall older m, messages = older ++ m :: r ->
    4 * budget < total_chars r + len (get_content m).
Proof.
  unfold fallback.
  destruct (fallback_loop_spec (budget * 4) (rev messages) [] 0 eq_refl)
    as (taken & rest & Hsplit & Hr & Hle & Hmax).
  rewrite Hr in *. rewrite app_nil_r in *.
  apply rev_split_suffix in Hsplit. simpl.
  split; [by exists (rev rest)|]. split.
  - intros Hb. assert (0 <= budget * 4) as Hb' by lia. apply Hle in Hb'. lia.
  - intros older m Hm. rewrite Hsplit in Hm.
    destruct (next_older _ _ _ _ Hm) as [rest' ->]. lia.
Qed.

(** The early return on an empty list agrees with both loops. *)
Lemma limit_messages_by_tokens_unfold messages budget :
  limit_messages_by_tokens B messages budget =
  match primary B messages budget with
  | Some limited_messages => limited_messages
  | None => fallback messages budget
  end.
Proof.
  destruct messages as [|m l]; [|done].
  unfold limit_messages_by_tokens, primary, fallback. simpl.
  by destruct (encoding_for_model B).
Qed.

(** C1 (amended). The result is a contiguous suffix of the input and is
    maximal for the strategy that produced it: under the tokenizer the next
    older message would bring the token total above the budget, under the
    character fallback it would bring the character total above four times
    the budget.  For a budget that is not negative the total of the result
    is within the budget.  The empty list is trimmed to the empty list. *)
Theorem limit_messages_by_tokens_maximal_suffix messages budget :
  let r := limit_messages_by_tokens B messages budget in
  limit_messages_by_tokens B [] budget = [] /\
  r `suffix_of` messages /\
  match strategy_used B messages budget with
  | Primary encode =>
    exists c, count_loop encode r 0 = Some c /\
      (0 <= budget -> c <= budget) /\
      forall older m, messages = older ++ m :: r ->
        exists tokens, encode (get_content m) = Some tokens /\ budget < c + len tokens
  | Fallback =>
    (0 <= budget -> total_chars r <= 4 * budget) /\
    forall older m, messages = older ++ m :: r ->
      4 * budget < total_chars r + len (get_content m)
  end.
Proof.
  intros r. split; [done|]. subst r.
  rewrite limit_messages_by_tokens_unfold. unfold strategy_used, primary.
  destruct (encoding_for_model B) as [encode|] eqn:Henc;
    [|apply fallback_maximal].
  destruct (primary_loop encode (rev messages) budget [] 0) as [r|] eqn:Hrun;
    [|apply fallback_maximal].
  destruct (primary_loop_spec encode budget (rev messages) [] 0 r eq_refl Hrun)
    as (taken & rest & c & Hsplit & -> & Hc & Hle & Hmax).
  rewrite app_nil_r in *. apply rev_split_suffix in Hsplit.
  split; [by exists (rev rest)|].
  exists c. repeat split; auto.
  intros older m Hm. rewrite Hsplit in Hm.
  by destruct (next_older _ _ _ _ Hm) as [rest' ->].
Qed.


End Trimmer.


(** C1 as stated fails for a negative budget: nothing is kept, and the
    estimated cost of nothing, zero, is above the budget. *)
Lemma limit_messages_by_tokens_counterexample :
  limit_messages_by_tokens builtins0 two_messages (-1) = [] /\
  count_tokens builtins0 (limit_messages_by_tokens builtins0 two_messages (-1)) = 0 /\
  ~ (count_tokens builtins0 (limit_messages_by_tokens builtins0 two_messages (-1)) <= -1).
Proof.
  assert (H : limit_messages_by_tokens builtins0 two_messages (-1) = [])
    by (vm_compute; reflexivity).
  rewrite H. split; [reflexivity|]. split; [reflexivity|].
  vm_compute. intros Hle. by apply Hle.
Qed.

Section HoareRules.
Context {A B : Type}.

Lemma hoare_weaken (P P' Q : state -> Prop) (m : M A) :
  (forall s, P s -> P' s) -> hoare P' m Q -> hoare P m Q.
Proof. intros HP H s tr Hs. apply H, HP, Hs. Qed.

Lemma hoare_bind (P I : state -> Prop) (m : M A) (k : A -> M B) :
  hoare P m I -> (forall a, hoare I (k a) I) -> hoare P (bind m k) I.
Proof.
  intros Hm Hk s tr Hs. unfold bind. specialize (Hm s tr Hs).
  destruct (m (s, tr)) as [[e|a] [s' tr']]; simpl in *; [done|].
  by apply Hk.
Qed.

Lemma hoare_try (P I : state -> Prop) (m : M A) (h : exn -> M A) :
  hoare P m I -> (forall e, hoare I (h e) I) -> hoare P (try_except m h) I.
Proof.
  intros Hm Hh s tr Hs. unfold try_except. specialize (Hm s tr Hs).
  destruct (m (s, tr)) as [[e|a] [s' tr']]; simpl in *; [|done].
  by apply Hh.
Qed.

End HoareRules.

Lemma hoare_get {A} (P Q : state -> Prop) (k : state -> M A) :
  (forall s0, hoare (fun s => P s /\ s = s0) (k s0) Q) -> hoare P (bind get k) Q.
Proof. intros H s tr Hs. unfold bind, get. simpl. by apply (H s). Qed.

Lemma hoare_modify (P Q : state -> Prop) (f : state -> state) :
  (forall s, P s -> Q (f s)) -> hoare P (modify f) Q.
Proof. intros H s tr Hs. by apply H. Qed.

(** *** Deques *)

Lemma append_items {A} (q : deque A) (x : A) n :
  maxlen q = Some n ->
  items (append q x) =
    if (n <? length (items q ++ [x]))%nat then tail (items q ++ [x]) else items q ++ [x].
Proof. intros H. unfold append. rewrite H. by destruct (_ <? _)%nat. Qed.

Lemma append_maxlen {A} (q : deque A) (x : A) : maxlen (append q x) = maxlen q.
Proof. unfold append. destruct (maxlen q); [|done]. by destruct (_ <? _)%nat. Qed.

Lemma append_size_bound {A} (q : deque A) (x : A) n :
  maxlen q = Some n -> (size q <= n)%nat -> (size (append q x) <= n)%nat.
Proof.
  intros Hm Hs. unfold size in *. rewrite (append_items q x n Hm).
  destruct (n <? length (items q ++ [x]))%nat eqn:E.
  - rewrite length_app in E. simpl in E. apply Nat.ltb_lt in E.
    destruct (items q) as [|y l]; simpl in *; [lia|]. rewrite length_app. simpl. lia.
  - apply Nat.ltb_ge in E. done.
Qed.

(** Appending to a full deque drops the leftmost item and nothing else. *)
Lemma append_full {A} (q : deque A) (x oldest : A) (rest : list A) n :
  maxlen q = Some n -> items q = oldest :: rest -> size q = n ->
  items (append q x) = rest ++ [x] /\ size (append q x) = n.
Proof.
  intros Hm Hi Hs. unfold size in *. rewrite (append_items q x n Hm), Hi in *.
  simpl in *. rewrite length_app. simpl.
  assert ((n <? S (length rest + 1))%nat = true) as -> by (apply Nat.ltb_lt; lia).
  split; [done|]. rewrite length_app. simpl. lia.
Qed.

Lemma Forall_tail {A} (P : A -> Prop) (l : list A) : Forall P l -> Forall P (tail l).
Proof. intros H. destruct H; simpl; auto. Qed.

Lemma queue_ok_append q m :
  queue_ok q -> user_content_form m -> queue_ok (append q m).
Proof.
  intros (Hm & Hs & Hf) Hform. split; [by rewrite append_maxlen|].
  split; [by apply append_size_bound|].
  rewrite (append_items q m _ Hm).
  assert (Forall user_content_form (items q ++ [m])) as Hall
    by (apply Forall_app; split; [done|by constructor]).
  destruct (_ <? _)%nat; [by apply Forall_tail|done].
Qed.

Lemma queue_ok_clear q : queue_ok q -> queue_ok (clear q).
Proof.
  intros (Hm & _ & _). unfold queue_ok, size, clear. simpl.
  repeat split; [done|lia|constructor].
Qed.

Lemma queue_ok_new : queue_ok (new (Some 100%nat)).
Proof. unfold queue_ok, size, new. simpl. repeat split; [lia|constructor]. Qed.

(** *** Messages *)

Lemma mk_message_role role content :
  mk_message role content !! "role"%string = Some role.
Proof. unfold mk_message. by rewrite lookup_insert_eq. Qed.

Lemma mk_message_content role content :
  mk_message role content !! "content"%string = Some content.
Proof.
  unfold mk_message. rewrite lookup_insert_ne by done. by rewrite lookup_singleton_eq.
Qed.

(** A user message whose content starts with the sender and [": "]. *)
Lemma user_message_form who literal rest :
  sender_identity who ->
  take 2 literal = py ": " ->
  user_content_form (mk_message (py "user") (who ++ literal ++ rest)).
Proof.
  intros Hwho Hlit _. exists who, (drop 2 literal ++ rest). split; [done|].
  rewrite mk_message_content. f_equal. f_equal.
  rewrite app_assoc, <- Hlit, take_drop. done.
Qed.

Lemma assistant_message_form response :
  user_content_form (mk_message (py "assistant") response).
Proof. intros H. rewrite mk_message_role in H. by vm_compute in H. Qed.

(** *** The handler keeps the invariant *)

Lemma hoare_ret' {A} (P Q : state -> Prop) (a : A) :
  (forall s, P s -> Q s) -> hoare P (ret a) Q.
Proof. intros H s tr Hs. by apply H. Qed.

Lemma hoare_raise' {A} (P Q : state -> Prop) (e : exn) :
  (forall s, P s -> Q s) -> hoare P (raise (A := A) e) Q.
Proof. intros H s tr Hs. by apply H. Qed.

Lemma hoare_call' {A} (P Q : state -> Prop) (e : effect) (answer : nat -> exn + A) :
  (forall s, P s -> Q s) -> hoare P (call e answer) Q.
Proof. intros H s tr Hs. by apply H. Qed.

Create HintDb inv.

Ltac inv_pre :=
  let s := fresh "s" in let H := fresh "H" in
  intros s H; first [exact H | exact (proj1 H)].

Ltac hoare_known :=
  first [ solve [eauto with inv]
        | apply (hoare_weaken _ Inv); [inv_pre|solve [eauto with inv]] ].

Ltac hoare_auto :=
  repeat (cbv zeta; lazymatch goal with
  | |- hoare _ (bind get _) _ => apply hoare_get; intros ?
  | |- hoare _ (bind _ _) _ => apply hoare_bind; [|intros ?]
  | |- hoare _ (try_except _ _) _ => apply hoare_try; [|intros ?]
  | |- hoare _ (ret _) _ => apply hoare_ret'; inv_pre
  | |- hoare _ (raise _) _ => apply hoare_raise'; inv_pre
  | |- hoare _ (call _ _) _ => apply hoare_call'; inv_pre
  | |- hoare _ (if ?b then _ else _) _ => destruct b eqn:?
  | |- hoare _ (match ?x with _ => _ end) _ => destruct x eqn:?
  | |- hoare _ _ _ => hoare_known
  end).

#[local] Hint Extern 1 (take 2 _ = _) => vm_compute; reflexivity : inv.
#[local] Hint Resolve user_message_form assistant_message_form : inv.

Section HandlerInvariant.
Context (B : builtins) (W : world) (cfg : config).

Lemma Inv_init client : Inv (init cfg client).
Proof.
  unfold Inv, init, size. simpl. split; [done|]. split; [lia|].
  intros chat q H. by rewrite lookup_empty in H.
Qed.

Lemma queue_append_inv chat m :
  user_content_form m -> hoare Inv (queue_append chat m) Inv.
Proof.
  intros Hm. unfold queue_append. apply hoare_get. intros s0.
  destruct (chat_queues s0 !! chat) as [q|] eqn:Hq.
  - apply hoare_modify. intros s [(H1 & H2 & H3) ->].
    split; [done|]. split; [done|]. simpl.
    intros chat' q'. rewrite lookup_insert.
    case_decide as Hc; [|by apply H3].
    intros [= <-]. apply queue_ok_append; [by eapply H3|done].
  - apply hoare_raise'. inv_pre.
Qed.

Lemma sent_append_inv id : hoare Inv (sent_append id) Inv.
Proof.
  apply hoare_modify. intros s (H1 & H2 & H3).
  unfold Inv. simpl. split; [by rewrite append_maxlen|].
  split; [by apply append_size_bound|done].
Qed.

Lemma modify_frame_inv f :
  (forall s, chat_queues (f s) = chat_queues s) ->
  (forall s, sent_message_ids (f s) = sent_message_ids s) ->
  hoare Inv (modify f) Inv.
Proof.
  intros Hq Hs. apply hoare_modify. intros s (H1 & H2 & H3). unfold Inv.
  rewrite Hq, Hs. done.
Qed.

Hint Resolve queue_append_inv sent_append_inv : inv.
Hint Extern 2 (hoare Inv (modify _) Inv) => (apply modify_frame_inv; done) : inv.

Lemma generate_response_inv messages : hoare Inv (generate_response W messages) Inv.
Proof. unfold generate_response. hoare_auto. Qed.

Lemma analyze_image_inv data prompt : hoare Inv (analyze_image W data prompt) Inv.
Proof. unfold analyze_image. hoare_auto. Qed.

Lemma send_service_message_inv text : hoare Inv (_send_service_message W cfg text) Inv.
Proof. unfold _send_service_message, send_message. hoare_auto. Qed.
Hint Resolve generate_response_inv analyze_image_inv send_service_message_inv : inv.

Lemma send_error_to_service_inv msg context :
  hoare Inv (_send_error_to_service W cfg msg context) Inv.
Proof. unfold _send_error_to_service. hoare_auto. Qed.
Hint Resolve send_error_to_service_inv : inv.

Lemma send_response_inv ev response : hoare Inv (_send_response W cfg ev response) Inv.
Proof. unfold _send_response. hoare_auto. Qed.
Hint Resolve send_response_inv : inv.

Lemma generate_and_send_response_inv ev is_random :
  hoare Inv (_generate_and_send_response B W cfg ev is_random) Inv.
Proof. unfold _generate_and_send_response, _send_error_response. hoare_auto. Qed.
Hint Resolve generate_and_send_response_inv : inv.

Lemma should_respond_randomly_inv ev : hoare Inv (_should_respond_randomly W ev) Inv.
Proof. unfold _should_respond_randomly. hoare_auto. Qed.
Hint Resolve should_respond_randomly_inv : inv.

Lemma handle_text_message_inv ev who text :
  sender_identity who ->
  hoare Inv (_handle_text_message B W cfg ev who text) Inv.
Proof. intros Hwho. unfold _handle_text_message. hoare_auto. Qed.

Lemma download_image_inv ev : hoare Inv (_download_image W ev) Inv.
Proof. unfold _download_image. hoare_auto. Qed.
Hint Resolve download_image_inv : inv.

Lemma handle_media_message_inv ev m who text :
  sender_identity who ->
  hoare Inv (_handle_media_message B W cfg ev m who text) Inv.
Proof. intros Hwho. unfold _handle_media_message, is_image. hoare_auto. Qed.

Lemma clear_queue_inv chat :
  hoare Inv (modify (set_chat_queues (alter Deque.clear chat))) Inv.
Proof.
  apply hoare_modify. intros s (H1 & H2 & H3).
  split; [done|]. split; [done|]. simpl.
  intros chat' q'. rewrite lookup_alter. case_decide as Hc; [|by apply H3].
  subst chat'. destruct (chat_queues s !! chat) as [q|] eqn:Hq; [|done].
  intros [= <-]. apply queue_ok_clear. by eapply H3.
Qed.
Hint Resolve clear_queue_inv : inv.

Lemma handle_admin_commands_inv ev who text :
  hoare Inv (_handle_admin_commands B W cfg ev who text) Inv.
Proof.
  unfold _handle_admin_commands, second_word, after_first_space, float_,
    update_model, update_vision_model.
  hoare_auto.
Qed.

Lemma history_loop_inv fetched messages : hoare Inv (history_loop fetched messages) Inv.
Proof.
  revert messages. induction fetched as [|hm rest IH]; intros messages; simpl.
  - hoare_auto.
  - unfold sender_name_of. hoare_auto; apply IH.
Qed.
Hint Resolve history_loop_inv : inv.

Lemma get_chat_history_inv chat limit : hoare Inv (_get_chat_history W chat limit) Inv.
Proof. unfold _get_chat_history. hoare_auto. Qed.
Hint Resolve get_chat_history_inv : inv.

Lemma generate_summary_inv text n : hoare Inv (_generate_summary W text n) Inv.
Proof. unfold _generate_summary. hoare_auto. Qed.
Hint Resolve generate_summary_inv : inv.

Lemma generate_and_send_summary_inv ev sender n :
  hoare Inv (_generate_and_send_summary W cfg ev sender n) Inv.
Proof. unfold _generate_and_send_summary, send_message, sender_label. hoare_auto. Qed.
Hint Resolve generate_and_send_summary_inv : inv.

Lemma handle_summary_command_inv ev who text :
  hoare Inv (_handle_summary_command B W cfg ev who text) Inv.
Proof. unfold _handle_summary_command, int_. hoare_auto. Qed.

(** The name [handle_message] shows for the sender is a sender identity, and
    finding it changes nothing. *)
Lemma sender_username_of_spec st who st' :
  sender_username_of W st = (inr who, st') ->
  sender_identity who /\ fst st' = fst st.
Proof.
  unfold sender_username_of, bind, call, ret, raise. destruct st as [s tr]. simpl.
  destruct (w_get_sender W (length tr)) as [e|[sd|]]; [done| |done].
  destruct (username sd) as [[|c u]|]; intros [= <- <-]; simpl.
  - split; [by left|done].
  - split; [|done]. right. exists (c :: u). split; [discriminate|reflexivity].
  - split; [by left|done].
Qed.

Lemma sender_username_of_raises st e st' :
  sender_username_of W st = (inl e, st') -> fst st' = fst st.
Proof.
  unfold sender_username_of, bind, call, ret, raise. destruct st as [s tr]. simpl.
  destruct (w_get_sender W (length tr)) as [e'|[sd|]].
  - by intros [= <- <-].
  - by destruct (username sd) as [[|c u]|].
  - by intros [= <- <-].
Qed.

Lemma ensure_queue_inv chat :
  hoare Inv
    (modify (set_chat_queues (fun q =>
       match q !! chat with
       | None => <[chat := Deque.new (Some 100%nat)]> q
       | Some _ => q
       end))) Inv.
Proof.
  apply hoare_modify. intros s (H1 & H2 & H3).
  split; [done|]. split; [done|]. simpl.
  destruct (chat_queues s !! chat) eqn:Hq; [done|].
  intros chat' q'. rewrite lookup_insert. case_decide; [|by apply H3].
  intros [= <-]. apply queue_ok_new.
Qed.

Lemma handle_message_inv ev : hoare Inv (handle_message B W cfg ev) Inv.
Proof.
  intros s tr Hs. unfold handle_message.
  destruct (sender_username_of W (s, tr)) as [[e|who] [s' tr']] eqn:Hwho.
  - apply sender_username_of_raises in Hwho. simpl in *. by subst.
  - apply sender_username_of_spec in Hwho as [Hid Heq]. simpl in Heq. subst s'.
    revert s tr' Hs. change (hoare Inv ?m Inv) with (hoare Inv m Inv).
    pose proof ensure_queue_inv. pose proof handle_admin_commands_inv.
    pose proof handle_summary_command_inv.
    pose proof (fun m => handle_media_message_inv ev m who (default [] (event_message ev)) Hid).
    pose proof (handle_text_message_inv ev who (default [] (event_message ev)) Hid).
    match goal with |- forall s tr, Inv s -> Inv (fst (snd (?m (s, tr)))) =>
      change (hoare Inv m Inv) end.
    hoare_auto.
Qed.

Lemma reachable_inv st : reachable B W cfg st -> Inv (fst st).
Proof.
  induction 1 as [client|[s tr] ev _ IH]; simpl.
  - apply Inv_init.
  - by apply handle_message_inv.
Qed.

End HandlerInvariant.
Lemma reachable_after B W n ev : reachable B W config0 (after B W n ev).
Proof.
  unfold after. induction n as [|n IH]; simpl.
  - apply reachable_init.
  - by apply reachable_step.
Qed.

(** C4. In every state the bot can reach, no history and not the ring of
    sent identifiers holds more than 100 entries; appending to a history of
    100 messages keeps 100 of them, drops exactly the oldest and leaves the
    other 99 in order before the new one; the ring of sent identifiers does
    the same on the identifier appended to 100. *)
Theorem history_and_sent_ring_bounded B W cfg st :
  reachable B W cfg st ->
  ((size (sent_message_ids (fst st)) <= 100)%nat /\
   forall chat q, chat_queues (fst st) !! chat = Some q -> (size q <= 100)%nat) /\
  (forall chat q oldest rest m,
     chat_queues (fst st) !! chat = Some q ->
     items q = oldest :: rest -> size q = 100%nat ->
     exists q', chat_queues (fst (snd (queue_append chat m st))) !! chat = Some q' /\
       items q' = rest ++ [m] /\ size q' = 100%nat) /\
  (forall oldest rest id,
     items (sent_message_ids (fst st)) = oldest :: rest ->
     size (sent_message_ids (fst st)) = 100%nat ->
     items (sent_message_ids (fst (snd (sent_append id st)))) = rest ++ [id] /\
     size (sent_message_ids (fst (snd (sent_append id st)))) = 100%nat).
Proof.
  intros Hr. destruct (reachable_inv B W cfg st Hr) as (Hm & Hs & Hq).
  destruct st as [s tr]. simpl in *.
  split; [split; [done|]|split].
  - intros chat q H. by destruct (Hq chat q H) as (_ & ? & _).
  - intros chat q oldest rest m Hl Hi Hz.
    destruct (Hq chat q Hl) as (Hmax & _ & _).
    unfold queue_append, bind, get, modify. simpl. rewrite Hl. simpl.
    exists (append q m). rewrite lookup_insert_eq. split; [done|].
    by apply (append_full q m oldest rest 100%nat).
  - intros oldest rest id Hi Hz. unfold sent_append, modify. simpl.
    by apply (append_full _ id oldest rest 100%nat).
Qed.

Lemma full_ring_eq : items (sent_message_ids (fst full_state)) = full_ring.
Proof. vm_compute. reflexivity. Qed.

Lemma history_and_sent_ring_bounded_witness :
  (size (sent_message_ids (fst full_state)) = 100)%nat /\
  items (sent_message_ids (fst (snd (sent_append 7 full_state)))) = tail full_ring ++ [7] /\
  (forall chat q, chat_queues (fst full_state) !! chat = Some q -> (size q <= 100)%nat).
Proof.
  pose proof (history_and_sent_ring_bounded builtins0 world_ok config0 full_state
                (reachable_after _ _ _ _)) as (Hbound & _ & Hring).
  assert (Hsize : size (sent_message_ids (fst full_state)) = 100%nat)
    by (unfold size; rewrite full_ring_eq; reflexivity).
  split; [exact Hsize|]. split; [|apply Hbound].
  apply (Hring (hd 0 full_ring) (tail full_ring) 7); [|exact Hsize].
  rewrite full_ring_eq. reflexivity.
Defined.

(** C9. In every state the bot can reach, a stored message of role "user"
    has a content that starts with the sender identity followed by a colon
    and a space, so the content is not empty whatever the inbound text. *)
Theorem stored_user_messages_carry_sender B W cfg st :
  reachable B W cfg st ->
  forall chat q m,
    chat_queues (fst st) !! chat = Some q -> m ∈ items q ->
    m !! "role"%string = Some (py "user") ->
    exists who rest, sender_identity who /\
      get_content m = who ++ py ": " ++ rest /\ get_content m <> [].
Proof.
  intros Hr chat q m Hq Hm Hrole.
  destruct (reachable_inv B W cfg st Hr) as (_ & _ & Hall).
  destruct (Hall chat q Hq) as (_ & _ & Hform).
  rewrite Forall_forall in Hform.
  destruct (Hform m Hm Hrole) as (who & rest & Hwho & Hc).
  exists who, rest. unfold get_content. rewrite Hc. simpl.
  split; [done|]. split; [done|].
  by destruct who.
Qed.

Lemma stored_user_messages_carry_sender_witness :
  exists who rest, sender_identity who /\
    get_content (mk_message (py "user") (py "@alice: ")) = who ++ py ": " ++ rest /\
    get_content (mk_message (py "user") (py "@alice: ")) <> [].
Proof.
  apply (stored_user_messages_carry_sender builtins0 world_ok config0 empty_text_state
           (reachable_after _ _ _ _) (-5)
           (mkDeque (Some 100%nat) [mk_message (py "user") (py "@alice: ")])).
  - vm_compute. reflexivity.
  - simpl. apply list_elem_of_here.
  - apply mk_message_role.
Defined.


Section SendResponse.
Context (B : builtins) (W : world) (cfg : config).

Lemma truthy_app_l {A} (l1 l2 : list A) : truthy l1 = true -> truthy (l1 ++ l2) = true.
Proof. by destruct l1. Qed.

(** The two outcomes of [_send_response]. *)
Lemma send_response_run ev response s tr :
  let st' := snd (_send_response W cfg ev response (s, tr)) in
  match w_respond W (length tr) (chat_id ev) response with
  | inl e =>
    fst st' = s /\
    snd st' = tr ++ [Respond (chat_id ev) response;
                     SendMessage (ToChat (service_chat_id cfg))
                       (send_failure_diagnostic ev e)]
  | inr id =>
    forall q, chat_queues s !! chat_id ev = Some q ->
      sent_message_ids (fst st') = append (sent_message_ids s) id /\
      chat_queues (fst st') =
        <[chat_id ev := append q (mk_message (py "assistant") response)]> (chat_queues s) /\
      snd st' = tr ++ [Respond (chat_id ev) response]
  end.
Proof.
  unfold send_failure_diagnostic.
  unfold _send_response, try_except, bind, call. cbn [fst snd].
  destruct (w_respond W (length tr) (chat_id ev) response) as [e|id].
  - unfold _send_error_to_service, _send_service_message, send_message,
      try_except, bind, call, ret. cbn [fst snd].
    rewrite truthy_app_l by (vm_compute; reflexivity).
    destruct (w_send_message _ _ _ _); cbn [fst snd];
      rewrite <- (app_assoc tr); (split; reflexivity).
  - intros q Hq. unfold sent_append, queue_append, modify, bind, get. cbn [fst snd].
    cbn [chat_queues set_sent_message_ids]. rewrite Hq.
    cbn [fst snd chat_queues sent_message_ids set_chat_queues set_sent_message_ids].
    repeat split; reflexivity.
Qed.

(** C10. When [event.respond] fails, the history and the ring of sent
    identifiers (indeed the whole state) are as before, and a diagnostic is
    sent to the service chat.  When it succeeds, the returned identifier is
    appended to the ring and then the assistant message to the history of
    the chat, and nothing else is sent. *)
Theorem send_response_records_after_send ev response s tr :
  let st' := snd (_send_response W cfg ev response (s, tr)) in
  match w_respond W (length tr) (chat_id ev) response with
  | inl e =>
    fst st' = s /\
    snd st' = tr ++ [Respond (chat_id ev) response;
                     SendMessage (ToChat (service_chat_id cfg))
                       (send_failure_diagnostic ev e)]
  | inr id =>
    forall q, chat_queues s !! chat_id ev = Some q ->
      sent_message_ids (fst st') = append (sent_message_ids s) id /\
      chat_queues (fst st') =
        <[chat_id ev := append q (mk_message (py "assistant") response)]> (chat_queues s) /\
      snd st' = tr ++ [Respond (chat_id ev) response]
  end.
Proof. exact (send_response_run ev response s tr). Qed.

End SendResponse.

Section ReplyTrigger.
Context (B : builtins) (W : world) (cfg : config).

(** Sending a response only adds to the trace. *)
Lemma send_response_extends ev response s tr :
  exists rest, snd (snd (_send_response W cfg ev response (s, tr))) = tr ++ rest.
Proof.
  pose proof (send_response_run W cfg ev response s tr) as H.
  cbv zeta in H.
  destruct (w_respond W (length tr) (chat_id ev) response) as [e|id] eqn:Hr.
  - destruct H as [_ ->]. by eexists.
  - revert H. unfold _send_response, try_except, bind, call. cbn [fst snd].
    rewrite Hr. unfold sent_append, queue_append, modify, bind, get, raise.
    cbn [fst snd chat_queues set_sent_message_ids]. intros _.
    destruct (chat_queues s !! chat_id ev) as [q|]; cbn [fst snd]; [by eexists|].
    unfold _send_error_to_service, _send_service_message, send_message,
      try_except, bind, call, ret. cbn [fst snd].
    destruct (truthy _), (w_send_message _ _ _ _); cbn [fst snd];
      rewrite <- (app_assoc tr); by eexists.
Qed.

(** With the client connected, a deterministic generation starts with the
    request to the backend. *)
Lemma generate_and_send_response_requests ev s tr q :
  cs_client s = true -> chat_queues s !! chat_id ev = Some q ->
  exists rest,
    snd (snd (_generate_and_send_response B W cfg ev false (s, tr))) =
    tr ++ generation_request B cfg s ev (items q) :: rest.
Proof.
  intros Hc Hq. unfold generation_request.
  unfold _generate_and_send_response, generate_response, _send_error_response,
    try_except, bind, get, call, raise, ret.
  cbn [fst snd]. rewrite Hc, Hq. cbn [negb fst snd].
  destruct (w_chat W (length tr) (cs_model s) _ []) as [e|content]; cbn [fst snd].
  - destruct (exn_cls _); by eexists.
  - destruct (truthy content) eqn:Ht; cbn [negb fst snd]; [|by eexists].
    rewrite Ht.
    destruct (send_response_extends ev content s (tr ++ [OllamaChat (cs_model s)
      ([mk_message (py "system")
          (if chat_id ev =? main_chat_id cfg then _get_main_chat_prompt
           else _get_informal_prompt)] ++
       limit_messages_by_tokens B (items q) (token_limit cfg)) []])) as [rest Hrest].
    destruct (_send_response W cfg ev content _) as [[e|[]] [s' tr']];
      cbn [fst snd] in *; subst tr'.
    + destruct (exn_cls e); cbn [fst snd]; rewrite <- (app_assoc tr); by eexists.
    + rewrite <- (app_assoc tr); by eexists.
Qed.

(** [_generate_and_send_response] never raises. *)
Lemma generate_and_send_response_returns ev is_random st :
  fst (_generate_and_send_response B W cfg ev is_random st) = inr tt.
Proof.
  unfold _generate_and_send_response, _send_error_response, try_except, ret.
  match goal with |- context [bind ?m ?k st] => destruct (bind m k st) as [[e|[]] st'] end.
  - by destruct (exn_cls e).
  - reflexivity.
Qed.

(** The text path on a reply to a sent message, in a group chat. *)
Lemma handle_text_message_reply ev who text s tr q id :
  chat_id ev <= 0 ->
  reply_to_msg_id ev = Some id ->
  id ∈ items (sent_message_ids s) ->
  chat_queues s !! chat_id ev = Some q ->
  _handle_text_message B W cfg ev who text (s, tr) =
  _generate_and_send_response B W cfg ev false
    (set_chat_queues
       (<[chat_id ev := append q (mk_message (py "user") (who ++ py ": " ++ text))]>) s,
     tr).
Proof.
  intros Hgroup Hreply Hid Hq.
  unfold _handle_text_message, queue_append, bind, get, modify.
  cbn [fst snd]. rewrite Hq. cbn [fst snd].
  assert ((chat_id ev >? 0) = false) as -> by lia.
  unfold _should_respond_to_message, reply_to_sent. rewrite Hreply.
  cbn [sent_message_ids set_chat_queues]. unfold mem.
  rewrite bool_decide_eq_true_2 by done. reflexivity.
Qed.

(** C7. In a group chat, a text message that replies to a message whose
    identifier is in the ring of sent identifiers is answered by the
    deterministic generation path, whatever the random draw, the response
    probability, the keywords and the length of the history: the text
    handler appends the message and runs [_generate_and_send_response] with
    [is_random=False], and with the client connected the request to the
    backend is made.  So does [handle_message] as a whole for an event
    without media whose sender is found, whose read acknowledgement succeeds
    and which neither command handler consumes. *)
Theorem reply_to_sent_message_triggers_generation ev who text s tr q id :
  chat_id ev <= 0 ->
  reply_to_msg_id ev = Some id ->
  id ∈ items (sent_message_ids s) ->
  chat_queues s !! chat_id ev = Some q ->
  let q1 := append q (mk_message (py "user") (who ++ py ": " ++ text)) in
  let s1 := set_chat_queues (<[chat_id ev := q1]>) s in
  _handle_text_message B W cfg ev who text (s, tr) =
    _generate_and_send_response B W cfg ev false (s1, tr) /\
  (cs_client s = true ->
   exists rest,
     snd (snd (_handle_text_message B W cfg ev who text (s, tr))) =
     tr ++ generation_request B cfg s ev (items q1) :: rest) /\
  (forall tr0,
     sender_username_of W (s, tr0) = (inr who, (s, tr0 ++ [GetSender])) ->
     tr = (tr0 ++ [GetSender]) ++ [SendReadAcknowledge (chat_id ev)] ->
     w_send_read_acknowledge W (length (tr0 ++ [GetSender])) (chat_id ev) = inr tt ->
     event_message ev = Some text ->
     event_media ev = None ->
     _handle_admin_commands B W cfg ev who text (s, tr) = (inr false, (s, tr)) ->
     _handle_summary_command B W cfg ev who text (s, tr) = (inr false, (s, tr)) ->
     handle_message B W cfg ev (s, tr0) =
     _generate_and_send_response B W cfg ev false (s1, tr)).
Proof.
  intros Hgroup Hreply Hid Hq q1 s1.
  pose proof (handle_text_message_reply ev who text s tr q id Hgroup Hreply Hid Hq) as Hrun.
  split; [exact Hrun|]. split.
  - intros Hc. rewrite Hrun.
    apply (generate_and_send_response_requests ev s1 tr q1 Hc).
    subst s1. cbn [chat_queues set_chat_queues]. apply lookup_insert_eq.
  - intros tr0 Hwho Htr Hack Htext Hmedia Hadmin Hsummary. subst s1 q1.
    unfold handle_message. rewrite Hwho.
    unfold try_except, bind at 1, modify at 1. cbn [fst snd].
    assert (Hsame : set_chat_queues
              (fun m => match m !! chat_id ev with
                        | Some _ => m
                        | None => <[chat_id ev := new (Some 100%nat)]> m
                        end) s = s).
    { destruct s. unfold set_chat_queues. cbn in *. by rewrite Hq. }
    rewrite Hsame. unfold bind at 1, call at 1. cbn [fst snd]. rewrite Hack.
    rewrite <- Htr, Htext. change (default [] (Some text)) with text.
    unfold bind at 1. rewrite Hadmin. lazy beta iota.
    unfold bind at 1. rewrite Hsummary. lazy beta iota.
    rewrite Hmedia, Hrun.
    match goal with |- context [_generate_and_send_response B W cfg ev false ?st] =>
      pose proof (generate_and_send_response_returns ev false st) as Hret;
      destruct (_generate_and_send_response B W cfg ev false st) as [[e|[]] st']
    end;
      [discriminate Hret|lazy beta iota; reflexivity].
Qed.

End ReplyTrigger.

Lemma reply_to_sent_message_triggers_generation_witness :
  handle_message builtins0 world_ok config0 reply_event
    (fst answered_state, snd answered_state) =
  _generate_and_send_response builtins0 world_ok config0 reply_event false
    (set_chat_queues
       (<[chat_id reply_event :=
            append answered_queue (mk_message (py "user") (py "@alice" ++ py ": " ++ py "why"))]>)
       (fst answered_state),
     (snd answered_state ++ [GetSender]) ++ [SendReadAcknowledge (chat_id reply_event)]).
Proof.
  assert (H1 : chat_id reply_event <= 0) by (vm_compute; discriminate).
  assert (H2 : reply_to_msg_id reply_event = Some 3) by reflexivity.
  assert (H3 : 3 ∈ items (sent_message_ids (fst answered_state)))
    by (vm_compute; apply list_elem_of_here).
  assert (H4 : chat_queues (fst answered_state) !! chat_id reply_event = Some answered_queue)
    by (vm_compute; reflexivity).
  assert (H5 : sender_username_of world_ok (fst answered_state, snd answered_state) =
               (inr (py "@alice"), (fst answered_state, snd answered_state ++ [GetSender])))
    by (vm_compute; reflexivity).
  assert (H6 : w_send_read_acknowledge world_ok (length (snd answered_state ++ [GetSender]))
                 (chat_id reply_event) = inr tt) by reflexivity.
  assert (H7 : event_message reply_event = Some (py "why")) by reflexivity.
  assert (H8 : event_media reply_event = None) by reflexivity.
  assert (H9 : _handle_admin_commands builtins0 world_ok config0 reply_event
                 (py "@alice") (py "why")
                 (fst answered_state,
                  (snd answered_state ++ [GetSender]) ++
                  [SendReadAcknowledge (chat_id reply_event)]) =
               (inr false,
                (fst answered_state,
                 (snd answered_state ++ [GetSender]) ++
                 [SendReadAcknowledge (chat_id reply_event)])))
    by (vm_compute; reflexivity).
  assert (H10 : _handle_summary_command builtins0 world_ok config0 reply_event
                  (py "@alice") (py "why")
                  (fst answered_state,
                   (snd answered_state ++ [GetSender]) ++
                   [SendReadAcknowledge (chat_id reply_event)]) =
                (inr false,
                 (fst answered_state,
                  (snd answered_state ++ [GetSender]) ++
                  [SendReadAcknowledge (chat_id reply_event)])))
    by (vm_compute; reflexivity).
  exact (proj2 (proj2 (reply_to_sent_message_triggers_generation builtins0 world_ok config0
            reply_event (py "@alice") (py "why") (fst answered_state)
            ((snd answered_state ++ [GetSender]) ++
             [SendReadAcknowledge (chat_id reply_event)])
            answered_queue 3 H1 H2 H3 H4))
           (snd answered_state) H5 eq_refl H6 H7 H8 H9 H10).
Defined.

(** *** Failures of the backend and of the download *)

Section BackendFailure.
Context (B : builtins) (W : world) (cfg : config).

(** Whenever the backend call of [_generate_and_send_response] raises or
    returns an empty content, the method ends normally, the state is as
    before and the backend request is the only call made: nothing goes to the
    chat of the event, and nothing to the service chat either. *)
Lemma generation_failure_is_silent ev is_random s tr :
  cs_client s = true ->
  match w_chat W (length tr) (cs_model s) (request_of B cfg ev is_random s) [] with
  | inl _ => True
  | inr content => content = []
  end ->
  _generate_and_send_response B W cfg ev is_random (s, tr) =
  (inr tt, (s, tr ++ [OllamaChat (cs_model s) (request_of B cfg ev is_random s) []])).
Proof.
  intros Hc Hfail. unfold request_of in *.
  unfold _generate_and_send_response, generate_response, _send_error_response,
    try_except, bind, get, call, raise, ret.
  cbn [fst snd]. rewrite Hc. cbn [negb fst snd].
  destruct (w_chat W (length tr) (cs_model s) _ []) as [e|content]; cbn [fst snd].
  - reflexivity.
  - subst content. reflexivity.
Qed.

(** When the download raises, the temporary file is still there when
    [_download_image] returns [None]. *)
Lemma download_failure_leaves_file ev s tr path e :
  w_named_temporary_file W (length tr) = inr path ->
  w_download_media W (S (length tr)) path = inl e ->
  let run := _download_image W ev (s, tr) in
  fst run = inr None /\ files (fst (snd run)) !! path = Some [].
Proof.
  intros Hfile Hdown. unfold _download_image, try_except, bind, call, modify, ret.
  cbn [fst snd]. rewrite Hfile. cbn [fst snd].
  rewrite length_app, Nat.add_comm. cbn [length Nat.add]. rewrite Hdown.
  cbn [fst snd files set_files]. split; [reflexivity|]. apply lookup_insert_eq.
Qed.

(** When the download succeeds, the temporary file is removed. *)
Lemma download_success_removes_file ev s tr path data :
  w_named_temporary_file W (length tr) = inr path ->
  w_download_media W (S (length tr)) path = inr data ->
  let run := _download_image W ev (s, tr) in
  fst run = inr (Some data) /\ files (fst (snd run)) !! path = None.
Proof.
  intros Hfile Hdown. unfold _download_image, try_except, bind, call, modify, ret, get.
  cbn [fst snd]. rewrite Hfile. cbn [fst snd].
  rewrite length_app, Nat.add_comm. cbn [length Nat.add]. rewrite Hdown.
  cbn [fst snd files set_files]. rewrite lookup_insert_eq.
  cbn [fst snd files set_files]. split; [reflexivity|]. apply lookup_delete_eq.
Qed.

End BackendFailure.

(** C2 (the code departs from the claim). A private message while the
    backend is down: the handler asks the sender, acknowledges, requests a
    generation, and that is all.  No diagnostic reaches the service chat.
    The first definition of [_generate_and_send_response] in the class body,
    which the second one shadows, sends the diagnostic on the same input. *)
Theorem generation_failure_sends_no_diagnostic :
  handle_message builtins0 world_backend_down config0 private_hi start =
    (inr tt, (private_hi_stored,
              [GetSender; SendReadAcknowledge 5; private_hi_request])) /\
  snd (snd (_generate_and_send_response_shadowed builtins0 world_backend_down config0
              private_hi false (private_hi_stored, []))) =
    [private_hi_request;
     SendMessage (ToChat (-2002))
       (py "❌ **Ошибка бота:**" ++ nl ++
        py "Ошибка чат-сервиса: Failed to generate response: connection refused" ++ nl ++
        py "📍 **Контекст:** Chat: 5")].
Proof. split; vm_compute; reflexivity. Qed.

(** C6 (the code departs from the claim). A summary command for five
    messages while the backend is down: the service chat receives the notice
    of the request and nothing after it, and the requester receives the
    summary frame with the error text in the place of the summary. *)
Theorem summary_failure_sends_summary_frame :
  handle_message builtins0 world_backend_down config0 summary_event start =
    (inr tt,
     (set_chat_queues (<[-5 := Deque.new (Some 100%nat)]>) (init config0 true),
      [GetSender; SendReadAcknowledge (-5); GetSender;
       SendMessage (ToChat (-2002))
         (py "📝 @alice запросил саммари по 5 сообщениям из чата -5");
       IterMessages (-5) 5;
       summary_request;
       SendMessage (ToSender (Some alice))
         (py "📝 **Саммари по 5 сообщениям:**" ++ nl ++ nl ++
          py "Ошибка при генерации саммари" ++ nl ++ nl)])).
Proof. vm_compute. reflexivity. Qed.

(** C8 (the code departs from the claim). An image whose download fails:
    [_download_image] returns [None] and the temporary file it created is
    still among the files; when the download succeeds the file is gone. *)
Theorem download_failure_keeps_temporary_file :
  fst (_download_image world_download_fails (photo_event (-5)) start) = inr None /\
  files (fst (snd (_download_image world_download_fails (photo_event (-5)) start)))
    !! py "/tmp/tmpk3x9" = Some [] /\
  files (fst (snd (handle_message builtins0 world_download_fails config0
                     (photo_event (-5)) start)))
    !! py "/tmp/tmpk3x9" = Some [] /\
  files (fst (snd (_download_image world_ok (photo_event (-5)) start)))
    !! py "/tmp/tmpk3x9" = None.
Proof. repeat split; vm_compute; reflexivity. Qed.

(** *** The quotient by 100 and the test [0 <= probability <= 1] *)

Lemma digits2_pos_size p : digits2_pos p = Pos.size p.
Proof. induction p; simpl; congruence. Qed.

Lemma Zdigits2_bounds q : 0 < q -> 2 ^ (Zdigits2 q - 1) <= q < 2 ^ Zdigits2 q.
Proof.
  destruct q as [|p|p]; try lia. intros _. unfold Zdigits2.
  rewrite digits2_pos_size.
  pose proof (Pos.size_gt p) as Hgt. pose proof (Pos.size_le p) as Hle.
  apply Pos2Z.pos_lt_pos in Hgt. apply Pos2Z.pos_le_pos in Hle.
  rewrite Pos2Z.inj_pow in Hgt, Hle.
  assert (Hpow : 2 ^ Z.pos (Pos.size p) = 2 * 2 ^ (Z.pos (Pos.size p) - 1)).
  { rewrite <- Z.pow_succ_r by lia. f_equal. lia. }
  lia.
Qed.

Lemma Zdigits2_le q k : 0 <= q -> 0 <= k -> q < 2 ^ k -> Zdigits2 q <= k.
Proof.
  intros Hq Hk Hlt. destruct (Z.eq_dec q 0) as [->|Hne]; [simpl; lia|].
  destruct (Zdigits2_bounds q ltac:(lia)) as [Hlo _].
  destruct (Z_lt_le_dec k (Zdigits2 q)) as [Hd|Hd]; [|lia].
  assert (2 ^ k <= 2 ^ (Zdigits2 q - 1)) by (apply Z.pow_le_mono_r; lia). lia.
Qed.

Lemma Zdigits2_ge q k : 0 <= k -> 2 ^ k <= q -> k + 1 <= Zdigits2 q.
Proof.
  intros Hk Hle. assert (0 < q) by (pose proof (Z.pow_pos_nonneg 2 k); lia).
  destruct (Zdigits2_bounds q ltac:(lia)) as [_ Hhi].
  destruct (Z_lt_le_dec k (Zdigits2 q)) as [Hd|Hd]; [lia|].
  assert (0 <= Zdigits2 q) by (destruct q; simpl; lia).
  assert (2 ^ Zdigits2 q <= 2 ^ k) by (apply Z.pow_le_mono_r; lia). lia.
Qed.

Lemma shr_m_of_loc m l : shr_m (shr_record_of_loc m l) = m.
Proof. by destruct l as [|[]]. Qed.

Lemma loc_of_shr_record_of_loc m l : loc_of_shr_record (shr_record_of_loc m l) = l.
Proof. by destruct l as [|[]]. Qed.

Lemma shr_1_m mrs : 0 <= shr_m mrs -> shr_m (shr_1 mrs) = shr_m mrs / 2.
Proof.
  destruct mrs as [m r s]. cbn [shr_m]. intros Hm. rewrite <- Z.div2_div.
  destruct m as [|[p|p|]|p]; try reflexivity; lia.
Qed.

Lemma iter_shr_1_m p : forall mrs,
  0 <= shr_m mrs -> shr_m (SpecFloat.iter_pos shr_1 p mrs) = shr_m mrs / 2 ^ Z.pos p.
Proof.
  induction p as [p IH|p IH|]; intros mrs Hm; cbn [SpecFloat.iter_pos].
  - assert (H1 : 0 <= shr_m (shr_1 mrs)) by (rewrite shr_1_m by done; by apply Z.div_pos).
    assert (H2 : 0 <= shr_m (SpecFloat.iter_pos shr_1 p (shr_1 mrs)))
      by (rewrite IH by done; apply Z.div_pos; [done|by apply Z.pow_pos_nonneg]).
    rewrite IH, IH, shr_1_m by done.
    pose proof (Z.pow_pos_nonneg 2 (Z.pos p) ltac:(lia) ltac:(lia)).
    rewrite !Z.div_div by lia. f_equal.
    replace (Z.pos p~1) with (1 + (Z.pos p + Z.pos p)) by lia.
    rewrite !Z.pow_add_r by lia. change (2 ^ 1) with 2. lia.
  - assert (H2 : 0 <= shr_m (SpecFloat.iter_pos shr_1 p mrs))
      by (rewrite IH by done; apply Z.div_pos; [done|by apply Z.pow_pos_nonneg]).
    rewrite IH, IH by done.
    pose proof (Z.pow_pos_nonneg 2 (Z.pos p) ltac:(lia) ltac:(lia)).
    rewrite !Z.div_div by lia. f_equal.
    replace (Z.pos p~0) with (Z.pos p + Z.pos p) by lia.
    rewrite !Z.pow_add_r by lia. lia.
  - rewrite shr_1_m by done. done.
Qed.

Lemma round_nearest_even_bounds m l : m <= round_nearest_even m l <= m + 1.
Proof. destruct l as [|[]]; simpl; try lia. destruct (Z.even m); lia. Qed.

(** The shift of [shr_fexp] at an exponent that is not below the least one:
    by the number of digits above 53. *)
Lemma shr_fexp_spec q e l :
  0 <= q -> -1074 <= e ->
  let n := Z.max (Zdigits2 q - 53) 0 in
  snd (shr_fexp 53 1024 q e l) = e + n /\
  shr_m (fst (shr_fexp 53 1024 q e l)) = q / 2 ^ n /\
  (n = 0 -> fst (shr_fexp 53 1024 q e l) = shr_record_of_loc q l).
Proof.
  intros Hq He n. unfold shr_fexp, shr, fexp, emin.
  destruct (Z.max (Zdigits2 q + e - 53) (3 - 1024 - 53) - e) as [|p|p] eqn:Hk;
    cbn [fst snd].
  - assert (n = 0) as -> by lia. rewrite shr_m_of_loc, Z.div_1_r.
    split; [lia|]. split; done.
  - assert (n = Z.pos p) as -> by lia. split; [done|]. split; [|lia].
    rewrite iter_shr_1_m by (by rewrite shr_m_of_loc). by rewrite shr_m_of_loc.
  - assert (n = 0) as -> by lia. rewrite shr_m_of_loc, Z.div_1_r.
    split; [lia|]. split; done.
Qed.

(** What [binary_round_aux] returns for a positive mantissa: the mantissa is
    cut to 53 digits and rounded to one of its two neighbours; when that
    gives [2 ^ 53], one more digit is cut. *)
Lemma binary_round_aux_spec sx q e l :
  1 <= q -> -1074 <= e ->
  let n := Z.max (Zdigits2 q - 53) 0 in
  exists q1 : positive,
    q / 2 ^ n <= Z.pos q1 <= q / 2 ^ n + 1 /\
    binary_round_aux 53 1024 sx q e l =
      if Z.pos q1 <? 2 ^ 53 then
        (if e + n <=? 971 then S754_finite sx q1 (e + n) else S754_infinity sx)
      else
        (if e + n + 1 <=? 971 then S754_finite sx 4503599627370496 (e + n + 1)
         else S754_infinity sx).
Proof.
  intros Hq He n.
  assert (Hndef : n = Z.max (Zdigits2 q - 53) 0) by reflexivity. clearbody n.
  destruct (shr_fexp_spec q e l ltac:(lia) He) as (He1 & Hm1 & Hrec1).
  rewrite <- Hndef in He1, Hm1.
  destruct (Zdigits2_bounds q ltac:(lia)) as [Hlo Hhi].
  assert (Hn : 0 <= n) by lia.
  assert (Hpow : 0 < 2 ^ n) by (by apply Z.pow_pos_nonneg).
  assert (Ht : 1 <= q / 2 ^ n < 2 ^ 53).
  { destruct (Z_le_gt_dec (Zdigits2 q) 53) as [Hd|Hd].
    - assert (n = 0) as -> by lia. rewrite Z.div_1_r. split; [done|].
      assert (2 ^ Zdigits2 q <= 2 ^ 53) by (apply Z.pow_le_mono_r; lia). lia.
    - assert (Hnd : n = Zdigits2 q - 53) by lia. split.
      + apply Z.div_le_lower_bound; [done|].
        assert (2 ^ n <= 2 ^ (Zdigits2 q - 1)) by (apply Z.pow_le_mono_r; lia). lia.
      + apply Z.div_lt_upper_bound; [done|].
        rewrite <- Z.pow_add_r by lia. by replace (n + 53) with (Zdigits2 q) by lia. }
  unfold binary_round_aux.
  destruct (shr_fexp 53 1024 q e l) as [mrs' e1']. cbn [fst snd] in He1, Hm1.
  subst e1'.
  pose proof (round_nearest_even_bounds (shr_m mrs') (loc_of_shr_record mrs')) as Hr.
  destruct (round_nearest_even (shr_m mrs') (loc_of_shr_record mrs')) as [|q1|q1] eqn:Hq1;
    rewrite Hm1 in Hr; [lia| |lia].
  exists q1. split; [done|].
  destruct (shr_fexp_spec (Z.pos q1) (e + n) loc_Exact ltac:(lia) ltac:(lia))
    as (He2 & Hm2 & Hrec2).
  destruct (Z.pos q1 <? 2 ^ 53) eqn:Hlt.
  - apply Z.ltb_lt in Hlt.
    assert (Hd : Zdigits2 (Z.pos q1) <= 53) by (apply Zdigits2_le; lia).
    assert (Hn2 : Z.max (Zdigits2 (Z.pos q1) - 53) 0 = 0) by lia.
    rewrite Hn2 in He2. specialize (Hrec2 Hn2).
    destruct (shr_fexp 53 1024 (Z.pos q1) (e + n) loc_Exact) as [mrs'' e2].
    cbn [fst snd] in *. subst mrs'' e2. cbn [shr_m shr_record_of_loc].
    by rewrite Z.add_0_r.
  - apply Z.ltb_ge in Hlt.
    assert (Heq : Z.pos q1 = 2 ^ 53) by lia.
    assert (q1 = 9007199254740992%positive) as -> by (apply Pos2Z.inj; exact Heq).
    clear He2 Hm2 Hrec2.
    unfold shr_fexp, shr, fexp, emin.
    change (Zdigits2 (Z.pos 9007199254740992)) with 54.
    assert (Z.max (54 + (e + n) - 53) (3 - 1024 - 53) - (e + n) = 1) as -> by lia.
    cbn. done.
Qed.

Lemma float_of_Z_100 : float_of_Z 100 = S754_finite false 7036874417766400 (-46).
Proof. vm_compute. reflexivity. Qed.

Lemma float_of_Z_1 : float_of_Z 1 = S754_finite false 4503599627370496 (-52).
Proof. vm_compute. reflexivity. Qed.

Lemma float_of_Z_0 : float_of_Z 0 = S754_zero false.
Proof. reflexivity. Qed.

Ltac bool_cases :=
  repeat match goal with
  | |- context [?a <? ?b] => destruct (Z.ltb_spec a b)
  | |- context [?a <=? ?b] => destruct (Z.leb_spec a b)
  | |- context [?a =? ?b] => destruct (Z.eqb_spec a b)
  end; cbn [andb orb negb]; try reflexivity; try lia.

(** The comparison of two positive finite numbers in canonical form. *)
Lemma fleb_finite m1 e1 m2 e2 :
  fleb (S754_finite false m1 e1) (S754_finite false m2 e2) =
  (e1 <? e2) || ((e1 =? e2) && (Z.pos m1 <=? Z.pos m2)).
Proof.
  unfold fleb, SFleb, SFcompare.
  change (Pos.compare_cont Eq m1 m2) with (Pos.compare m1 m2).
  destruct (Z.compare_spec e1 e2); destruct (Pos.compare_spec m1 m2); bool_cases.
Qed.

(** What a valid finite number is. *)
Lemma valid_finite s m e :
  valid_binary 53 1024 (S754_finite s m e) = true ->
  -1074 <= e <= 971 /\ Z.pos m < 2 ^ 53 /\ (-1074 < e -> 2 ^ 52 <= Z.pos m) /\
  Z.max (Zdigits2 (Z.pos m) + e - 53) (-1074) = e.
Proof.
  unfold valid_binary, bounded, canonical_mantissa, fexp, emin.
  intros H. apply andb_true_iff in H as [Hc Hb].
  apply Z.eqb_eq in Hc. apply Z.leb_le in Hb.
  change (Z.pos (digits2_pos m)) with (Zdigits2 (Z.pos m)) in Hc.
  destruct (Zdigits2_bounds (Z.pos m) ltac:(lia)) as [Hlo Hhi].
  assert (Hd : Zdigits2 (Z.pos m) <= 53) by lia.
  assert (2 ^ Zdigits2 (Z.pos m) <= 2 ^ 53) by (apply Z.pow_le_mono_r; lia).
  split; [lia|]. split; [lia|]. split; [|lia].
  intros He. assert (Hd53 : Zdigits2 (Z.pos m) = 53) by lia.
  rewrite Hd53 in Hlo. exact Hlo.
Qed.

(** The integer division [SFdiv] makes for a valid dividend and the divisor
    100: the dividend is shifted by 53 digits, or by fewer where the quotient
    is subnormal. *)
Lemma div_by_100_core m e :
  -1074 <= e <= 971 ->
  Z.max (Zdigits2 (Z.pos m) + e - 53) (-1074) = e ->
  let shift := Z.min 53 (e + 1120) in
  exists q r,
    SFdiv_core_binary 53 1024 (Z.pos m) e 7036874417766400 (-46) =
      (q, e + 46 - shift, new_location 7036874417766400 r) /\
    Z.pos m * 2 ^ shift = 7036874417766400 * q + r /\
    0 <= r < 7036874417766400.
Proof.
  intros He Hcanon shift.
  assert (Hshift : shift = Z.min 53 (e + 1120)) by reflexivity. clearbody shift.
  unfold SFdiv_core_binary, fexp, emin.
  change (Zdigits2 7036874417766400) with 53.
  assert (He' : Z.min (Z.max (Zdigits2 (Z.pos m) + e - (53 + -46) - 53) (3 - 1024 - 53))
                  (e - -46) = e + 46 - shift) by lia.
  rewrite He'.
  assert (Hs : e - -46 - (e + 46 - shift) = shift) by lia. rewrite Hs.
  destruct shift as [|p|p] eqn:Hp; [lia| |lia]. rewrite <- Hp in *.
  rewrite Z.shiftl_mul_pow2 by lia.
  pose proof (Z_div_mod (Z.pos m * 2 ^ shift) 7036874417766400 ltac:(lia)) as Hdiv.
  destruct (Z.div_eucl (Z.pos m * 2 ^ shift) 7036874417766400) as [q r].
  exists q, r. split; [by rewrite Hp|]. exact Hdiv.
Qed.

(** The smallest dividends, by evaluation. *)
Lemma smallest_quotients :
  forallb (fun n =>
    forallb (fun s =>
      Bool.eqb
        (in_unit_interval
           (fdiv (S754_finite s (Pos.of_nat n) (-1074)) (float_of_Z 100)))
        (fleb least_accepted (S754_finite s (Pos.of_nat n) (-1074)) &&
         fleb (S754_finite s (Pos.of_nat n) (-1074)) (float_of_Z 100)))
      [true; false])
    (seq 1 99) = true.
Proof. vm_compute. reflexivity. Qed.


(** The test [0 <= probability <= 1] on the quotient, in terms of the
    dividend: for every binary64 number [v], NaN and the infinities
    included, [v / 100] passes the test exactly when [v] lies between
    [-50 * 2 ^ -1074] and 100. *)
Lemma guard_of_quotient v :
  valid_binary 53 1024 v = true ->
  in_unit_interval (fdiv v (float_of_Z 100)) =
  fleb least_accepted v && fleb v (float_of_Z 100).
Proof.
  intros Hvalid. destruct v as [s|s| |s m e].
  - destruct s; vm_compute; reflexivity.
  - destruct s; vm_compute; reflexivity.
  - vm_compute. reflexivity.
  - destruct (valid_finite s m e Hvalid) as (He & Hm & Hnormal & Hcanon).
    change (2 ^ 53) with 9007199254740992 in Hm.
    change (2 ^ 52) with 4503599627370496 in Hnormal.
    destruct (Z_lt_le_dec (Z.pos m) 100) as [Hsmall|Hbig].
    { (* the ninety-nine smallest *)
      assert (e = -1074) as -> by lia.
      pose proof smallest_quotients as Hall. rewrite forallb_forall in Hall.
      specialize (Hall (Pos.to_nat m)). rewrite Pos2Nat.id in Hall.
      assert (Hin : In (Pos.to_nat m) (seq 1 99)) by (apply in_seq; lia).
      specialize (Hall Hin). rewrite forallb_forall in Hall.
      apply eqb_prop. apply Hall. destruct s; simpl; auto. }
    assert (Hspecial : (e = -46 /\ (m = 7036874417766400 \/ m = 7036874417766401)%positive) \/
                       (e = -46 -> Z.pos m <> 7036874417766400 /\
                                   Z.pos m <> 7036874417766401)).
    { destruct (Pos.eq_dec m 7036874417766400%positive) as [->|Hne100]; [|
        destruct (Pos.eq_dec m 7036874417766401%positive) as [->|Hne101]].
      - destruct (Z.eq_dec e (-46)); [left|right]; [by auto|done].
      - destruct (Z.eq_dec e (-46)); [left|right]; [by auto|done].
      - right. intros _. split; intros H'; apply Pos2Z.inj in H'; done. }
    destruct Hspecial as [[-> [-> | ->]]|Hspecial];
      [destruct s; vm_compute; reflexivity|destruct s; vm_compute; reflexivity|].
    destruct (div_by_100_core m e He Hcanon) as (q & r & Hcore & Hdiv & Hr).
    cbv zeta in Hcore, Hdiv.
    remember (Z.min 53 (e + 1120)) as shift eqn:Hshift.
    assert (Hpow_lo : 70368744177664 <= 2 ^ shift)
      by (change 70368744177664 with (2 ^ 46); apply Z.pow_le_mono_r; lia).
    assert (Hpow_hi : 2 ^ shift <= 9007199254740992)
      by (change 9007199254740992 with (2 ^ 53); apply Z.pow_le_mono_r; lia).
    assert (Hprod_lo : 100 * 70368744177664 <= Z.pos m * 2 ^ shift)
      by (apply Z.mul_le_mono_nonneg; lia).
    assert (Hprod_hi : Z.pos m * 2 ^ shift <= 9007199254740991 * 9007199254740992)
      by (apply Z.mul_le_mono_nonneg; lia).
    assert (Hq : 1 <= q < 18014398509481984) by lia.
    assert (Hshift53 : shift = 53 ->
              Z.pos m * 9007199254740992 = 7036874417766400 * q + r).
    { intros H53. rewrite H53 in Hdiv. exact Hdiv. }
    assert (He' : -1074 <= e + 46 - shift) by lia.
    destruct (binary_round_aux_spec (xorb s false) q (e + 46 - shift)
                (new_location 7036874417766400 r) ltac:(lia) He') as (q1 & Hq1 & Hround).
    cbv zeta in Hq1, Hround.
    remember (Z.max (Zdigits2 q - 53) 0) as n eqn:Hn.
    assert (Hcut : (n = 0 /\ q < 9007199254740992 /\ q <= Z.pos q1 <= q + 1) \/
                   (n = 1 /\ 9007199254740992 <= q /\
                    2 * Z.pos q1 <= q + 2 /\ q <= 2 * Z.pos q1 + 1)).
    { destruct (Z_lt_le_dec q 9007199254740992) as [Hlt|Hge].
      - left. assert (Zdigits2 q <= 53) by (apply Zdigits2_le; [lia|lia|exact Hlt]).
        assert (Hn0 : n = 0) by lia. rewrite Hn0, Z.pow_0_r, Z.div_1_r in Hq1. lia.
      - right. assert (53 + 1 <= Zdigits2 q) by (apply Zdigits2_ge; [lia|exact Hge]).
        assert (Zdigits2 q <= 54)
          by (apply Zdigits2_le; [lia|lia|];
              change (2 ^ 54) with 18014398509481984; lia).
        assert (Hn1 : n = 1) by lia. rewrite Hn1 in Hq1. change (2 ^ 1) with 2 in Hq1.
        split; [done|]. split; [done|]. revert Hq1. Z.div_mod_to_equations. lia. }
    assert (Hfdiv : fdiv (S754_finite s m e) (float_of_Z 100) =
              if Z.pos q1 <? 2 ^ 53 then
                (if e + 46 - shift + n <=? 971
                 then S754_finite (xorb s false) q1 (e + 46 - shift + n)
                 else S754_infinity (xorb s false))
              else
                (if e + 46 - shift + n + 1 <=? 971
                 then S754_finite (xorb s false) 4503599627370496 (e + 46 - shift + n + 1)
                 else S754_infinity (xorb s false))).
    { rewrite float_of_Z_100. unfold fdiv, SFdiv. rewrite Hcore. exact Hround. }
    rewrite Hfdiv, float_of_Z_100. clear Hfdiv Hround Hcore.
    unfold in_unit_interval. rewrite float_of_Z_0, float_of_Z_1.
    change (2 ^ 53) with 9007199254740992.
    destruct s; cbn [xorb].
    + (* a negative dividend: the quotient is negative *)
      assert (fleb least_accepted (S754_finite true m e) = false) as ->.
      { unfold least_accepted, fleb, SFleb, SFcompare.
        change (Pos.compare_cont Eq 50 m) with (Pos.compare 50 m).
        destruct (Z.compare_spec (-1074) e); [|reflexivity|lia].
        destruct (Pos.compare_spec 50 m); [lia|reflexivity|lia]. }
      repeat match goal with |- context [if ?b then _ else _] => destruct b end;
        reflexivity.
    + (* a positive dividend *)
      assert (fleb least_accepted (S754_finite false m e) = true) as ->
        by reflexivity.
      rewrite fleb_finite. cbn [andb].
      assert (Hbig_e : -45 <= e -> n = 0 -> 4503599627370496 < Z.pos q1) by lia.
      assert (Hat_100 : e = -46 ->
                (Z.pos m < 7036874417766400 /\ n = 0) \/
                (7036874417766400 < Z.pos m /\ n = 1 /\
                 4503599627370496 < Z.pos q1 < 9007199254740992)).
      { intros He46. destruct (Hspecial He46). subst e.
        assert (shift = 53) by lia. specialize (Hshift53 ltac:(done)). lia. }
      assert (Hzero : forall a b, fleb (S754_zero false) (S754_finite false a b) = true)
        by reflexivity.
      assert (Hn01 : n = 0 \/ n = 1) by lia.
      clear Hdiv Hprod_lo Hprod_hi Hpow_lo Hpow_hi Hshift53 Hr Hq1 Hcanon Hvalid Hnormal
        Hcut Hn Hq Hspecial Hbig Hm He'.
      destruct (Z.ltb_spec (Z.pos q1) 9007199254740992);
        match goal with |- context [if ?b then _ else _] => destruct b eqn:Hfit end;
        try (apply Z.leb_le in Hfit); try (apply Z.leb_gt in Hfit);
        rewrite ?Hzero, ?fleb_finite; cbn [andb fleb SFleb SFcompare];
        bool_cases.
Qed.

(** *** The probability command *)

Lemma in_range_integers_accepted :
  forallb (fun n => in_unit_interval (fdiv (float_of_Z (Z.of_nat n)) (float_of_Z 100)))
    (seq 0 101) = true.
Proof. vm_compute. reflexivity. Qed.

Lemma not_forget_command (lower : pystr) :
  startswith lower (py "!вероятность") = true ->
  str_eqb lower (py "!забудь все") = false.
Proof.
  intros H. unfold str_eqb. apply bool_decide_eq_false. intros ->.
  revert H. vm_compute. discriminate.
Qed.

Section ProbabilityCommand.
Context (B : builtins) (W : world) (cfg : config).

(** Every number from 0 to 100 is at least [least_accepted]. *)
Lemma least_accepted_below_zero v :
  fleb (float_of_Z 0) v = true -> fleb least_accepted v = true.
Proof. destruct v as [[]|[]| |[] m e]; done. Qed.

(** A valid number below 0 that is at least [least_accepted] is one of the
    fifty negative numbers of least magnitude. *)
Lemma least_accepted_negative v :
  valid_binary 53 1024 v = true ->
  fleb least_accepted v = true -> fleb (float_of_Z 0) v = false ->
  exists k, (k <= 50)%positive /\ v = S754_finite true k (-1074).
Proof.
  intros Hvalid Hleast Hneg. destruct v as [[]|[]| |[] m e]; try done.
  destruct (valid_finite true m e Hvalid) as (He & _ & _ & _).
  revert Hleast. unfold least_accepted, fleb, SFleb, SFcompare.
  change (Pos.compare_cont Eq 50 m) with (Pos.compare 50 m).
  destruct (Z.compare_spec (-1074) e) as [<-|Hlt|Hgt]; [|done|lia].
  destruct (Pos.compare_spec 50 m); [|done|]; intros _; exists m; (split; [lia|done]).
Qed.

(** C5 (amended). A probability command of the administrator always ends
    with one message to the service chat and is consumed.  With an argument
    that [float] parses to [v], the probability becomes the binary64
    quotient [v / 100] when that quotient lies between 0 and 1, and is left
    unchanged otherwise; with no argument or one that does not parse, the
    state is unchanged.  For every binary64 number [v], the infinities and
    NaN included, the quotient passes that test exactly when [v] lies
    between [least_accepted], which is [-50 * 2 ^ -1074], and 100.  So
    every [v] from 0 to 100 is accepted, integer or not, 0 gives 0.0 and 100
    gives 1.0; every [v] above 100 is refused, 150 among them; and a [v]
    below 0 is refused unless it is one of the fifty negative numbers of
    least magnitude, whose quotient rounds to the negative zero. *)
Theorem probability_command ev text s tr :
  startswith (str_lower B text) (py "!вероятность") = true ->
  let run := _handle_admin_commands B W cfg ev (admin_username cfg) text (s, tr) in
  let feedback msg := tr ++ [SendMessage (ToChat (service_chat_id cfg)) msg] in
  let bad_format :=
    fst (snd run) = s /\
    snd (snd run) =
      feedback (py "❌ Неправильный формат. Используйте: !вероятность <число>") in
  fst run = inr true /\
  match split_space text !! 1%nat with
  | Some arg =>
    match float_of_str B arg with
    | Some v =>
      let probability := fdiv v (float_of_Z 100) in
      let accepted :=
        fst (snd run) = set_message_probability probability s /\
        snd (snd run) =
          feedback (py "✅ Вероятность ответа установлена: " ++ arg ++ py "%") in
      let refused :=
        fst (snd run) = s /\
        snd (snd run) = feedback (py "❌ Вероятность должна быть от 0 до 100") in
      (if in_unit_interval probability then accepted else refused) /\
      (valid_binary 53 1024 v = true ->
       if fleb least_accepted v && fleb v (float_of_Z 100) then accepted else refused)
    | None => bad_format
    end
  | None => bad_format
  end /\
  (forall V, 0 <= V <= 100 ->
     in_unit_interval (fdiv (float_of_Z V) (float_of_Z 100)) = true) /\
  fdiv (float_of_Z 0) (float_of_Z 100) = S754_zero false /\
  fdiv (float_of_Z 100) (float_of_Z 100) = float_of_Z 1 /\
  in_unit_interval (fdiv (float_of_Z 150) (float_of_Z 100)) = false /\
  (forall v, valid_binary 53 1024 v = true ->
     in_unit_interval (fdiv v (float_of_Z 100)) =
     fleb least_accepted v && fleb v (float_of_Z 100)) /\
  (forall v, valid_binary 53 1024 v = true ->
     fleb (float_of_Z 0) v = true -> fleb v (float_of_Z 100) = true ->
     in_unit_interval (fdiv v (float_of_Z 100)) = true) /\
  (forall v, valid_binary 53 1024 v = true ->
     in_unit_interval (fdiv v (float_of_Z 100)) = true ->
     fleb v (float_of_Z 100) = true /\
     (fleb (float_of_Z 0) v = false ->
      exists k, (k <= 50)%positive /\ v = S754_finite true k (-1074) /\
                fdiv v (float_of_Z 100) = S754_zero true)).
Proof.
  intros Hcmd run feedback bad_format. subst run feedback bad_format.
  assert (Hrun :
    _handle_admin_commands B W cfg ev (admin_username cfg) text (s, tr) =
    bind
      (try_except
        (probability_str <- second_word text ;;
         v <- float_ B probability_str ;;
         let probability := fdiv v (float_of_Z 100) in
         if in_unit_interval probability then
           modify (set_message_probability probability) ;;
           _send_service_message W cfg
             (py "✅ Вероятность ответа установлена: " ++ probability_str ++ py "%")
         else
           _send_service_message W cfg (py "❌ Вероятность должна быть от 0 до 100"))
        (fun e =>
           match exn_cls e with
           | IndexError | ValueError =>
             _send_service_message W cfg
               (py "❌ Неправильный формат. Используйте: !вероятность <число>")
           | _ => raise e
           end))
      (fun _ => ret true) (s, tr)).
  { unfold _handle_admin_commands.
    assert (str_eqb (admin_username cfg) (admin_username cfg) = true) as ->
      by (unfold str_eqb; by apply bool_decide_eq_true).
    cbn [negb]. rewrite (not_forget_command _ Hcmd), Hcmd. reflexivity. }
  rewrite Hrun. clear Hrun.
  unfold second_word, float_, _send_service_message, send_message.
  unfold try_except, bind, call, modify, raise, ret. cbn [fst snd].
  split.
  - destruct (split_space text !! 1%nat) as [arg|]; cbn [fst snd exn_cls].
    + destruct (float_of_str B arg) as [v|]; cbn [fst snd exn_cls].
      * destruct (in_unit_interval _); cbn [fst snd];
          destruct (w_send_message _ _ _ _); reflexivity.
      * destruct (w_send_message _ _ _ _); reflexivity.
    + destruct (w_send_message _ _ _ _); reflexivity.
  - split.
    + destruct (split_space text !! 1%nat) as [arg|]; cbn [fst snd exn_cls].
      * destruct (float_of_str B arg) as [v|]; cbn [fst snd exn_cls].
        -- cbv zeta.
           split.
           ++ destruct (in_unit_interval _); cbn [fst snd];
                destruct (w_send_message _ _ _ _); split; reflexivity.
           ++ intros Hvalid. rewrite <- (guard_of_quotient v Hvalid).
              destruct (in_unit_interval _); cbn [fst snd];
                destruct (w_send_message _ _ _ _); split; reflexivity.
        -- destruct (w_send_message _ _ _ _); split; reflexivity.
      * destruct (w_send_message _ _ _ _); split; reflexivity.
    + split; [|split; [|split; [|split; [|split; [|split]]]]].
      * intros V HV.
        pose proof in_range_integers_accepted as Hall.
        rewrite forallb_forall in Hall.
        specialize (Hall (Z.to_nat V)).
        rewrite Z2Nat.id in Hall by lia. apply Hall.
        apply in_seq. lia.
      * vm_compute; reflexivity.
      * vm_compute; reflexivity.
      * vm_compute; reflexivity.
      * exact guard_of_quotient.
      * intros v Hvalid H0 H100.
        by rewrite (guard_of_quotient v Hvalid), (least_accepted_below_zero v H0), H100.
      * intros v Hvalid Hpass. rewrite (guard_of_quotient v Hvalid) in Hpass.
        apply andb_true_iff in Hpass as [Hleast H100]. split; [exact H100|].
        intros Hneg.
        destruct (least_accepted_negative v Hvalid Hleast Hneg) as (k & Hk & ->).
        exists k. split; [exact Hk|]. split; [reflexivity|].
        assert (Hz : forallb (fun n =>
                       match fdiv (S754_finite true (Pos.of_nat n) (-1074))
                               (float_of_Z 100) with
                       | S754_zero true => true
                       | _ => false
                       end) (seq 1 50) = true) by (vm_compute; reflexivity).
        rewrite forallb_forall in Hz. specialize (Hz (Pos.to_nat k)).
        rewrite Pos2Nat.id in Hz.
        assert (Hin' : In (Pos.to_nat k) (seq 1 50)) by (apply in_seq; lia).
        specialize (Hz Hin').
        by destruct (fdiv (S754_finite true k (-1074)) (float_of_Z 100)) as [[]| | |].
Qed.

End ProbabilityCommand.

Lemma probability_command_witness :
  fst (_handle_admin_commands builtins0 world_admin config0
         (text_event (-5) (py "!вероятность 50") None) (admin_username config0)
         (py "!вероятность 50") (init config0 true, [])) = inr true.
Proof.
  assert (H : startswith (str_lower builtins0 (py "!вероятность 50"))
                (py "!вероятность") = true) by (vm_compute; reflexivity).
  exact (proj1 (probability_command builtins0 world_admin config0
                  (text_event (-5) (py "!вероятность 50") None) (py "!вероятность 50")
                  (init config0 true) [] H)).
Defined.

(** The test at both ends of the accepted range, by evaluation: 50.5 and
    [least_accepted] pass; the number next above 100 and the one next below
    [least_accepted] do not. *)
Lemma probability_guard_at_the_bounds :
  in_unit_interval (fdiv (S754_finite false 7107243161944064 (-47)) (float_of_Z 100)) = true /\
  in_unit_interval (fdiv least_accepted (float_of_Z 100)) = true /\
  in_unit_interval (fdiv (S754_finite false 7036874417766401 (-46)) (float_of_Z 100)) = false /\
  in_unit_interval (fdiv (S754_finite true 51 (-1074)) (float_of_Z 100)) = false.
Proof. repeat split; vm_compute; reflexivity. Qed.

(** C5 as stated fails: the argument [-5e-324] is below 0, hence out of
    range, yet its quotient by 100 rounds to the negative zero, which passes
    the test [0 <= probability <= 1]; the probability changes from its
    configured value to the negative zero. *)
Lemma probability_command_counterexample :
  float_of_str builtins0 (py "-5e-324") = Some minus_5e_324 /\
  fltb minus_5e_324 (float_of_Z 0) = true /\
  message_probability (init config0 true) = cfg_message_probability config0 /\
  message_probability
    (fst (snd (handle_message builtins0 world_admin config0
                 (text_event (-5) (py "!вероятность -5e-324") None) start)))
    = S754_zero true /\
  S754_zero true <> cfg_message_probability config0.
Proof.
  split; [vm_compute; reflexivity|]. split; [vm_compute; reflexivity|].
  split; [reflexivity|]. split; [vm_compute; reflexivity|]. discriminate.
Qed.

(** * Further properties of the code *)

(** ** [message_utils.py]: how the two functions compose *)

Section TrimmerMore.
Context (B : builtins).

Lemma total_token_count_nonneg encode l : 0 <= total_token_count encode l.
Proof.
  induction l as [|m l IH]; simpl; [lia|].
  unfold token_count. destruct (encode (get_content m)); [|lia].
  pose proof (len_nonneg l0). lia.
Qed.

Lemma total_token_count_app encode l1 l2 :
  total_token_count encode (l1 ++ l2) =
  total_token_count encode l1 + total_token_count encode l2.
Proof. induction l1 as [|m l1 IH]; simpl; lia. Qed.

Lemma total_token_count_rev encode l :
  total_token_count encode (rev l) = total_token_count encode l.
Proof.
  induction l as [|m l IH]; simpl; [done|].
  rewrite total_token_count_app, IH. simpl. lia.
Qed.

Lemma total_chars_nonneg l : 0 <= total_chars l.
Proof.
  induction l as [|m l IH]; simpl; [lia|].
  pose proof (len_nonneg (get_content m)). lia.
Qed.

Lemma total_chars_app l1 l2 : total_chars (l1 ++ l2) = total_chars l1 + total_chars l2.
Proof. induction l1 as [|m l1 IH]; simpl; lia. Qed.

(** [count_loop] returns the sum of the token counts exactly when every
    message encodes. *)
Lemma count_loop_Some encode l a c :
  count_loop encode l a = Some c ->
  c = a + total_token_count encode l /\ Forall (encodes encode) l.
Proof.
  revert a. induction l as [|m l IH]; intros a; simpl.
  - intros [= <-]. split; [lia|constructor].
  - unfold token_count, encodes.
    destruct (encode (get_content m)) as [t|] eqn:Ht; [|done].
    intros H. destruct (IH _ H) as [-> Hall]. split; [lia|].
    constructor; [by rewrite Ht|done].
Qed.

Lemma count_loop_encodes encode l a :
  Forall (encodes encode) l ->
  count_loop encode l a = Some (a + total_token_count encode l).
Proof.
  revert a. induction l as [|m l IH]; intros a Hall; simpl.
  - f_equal. lia.
  - inversion Hall as [|? ? Hm Hl]; subst. unfold token_count, encodes in *.
    destruct (encode (get_content m)) as [t|]; [|done].
    rewrite (IH _ Hl). f_equal. lia.
Qed.

(** The first loop keeps everything when everything encodes and fits. *)
Lemma primary_loop_fits encode token_limit reversed limited total :
  Forall (encodes encode) reversed ->
  total + total_token_count encode reversed <= token_limit ->
  primary_loop encode reversed token_limit limited total = Some (rev reversed ++ limited).
Proof.
  revert limited total. induction reversed as [|m rest IH]; intros limited total Hall Hfit.
  - done.
  - inversion Hall as [|? ? Hm Hrest]; subst. simpl in *.
    unfold encodes, token_count in *.
    destruct (encode (get_content m)) as [t|]; [|done].
    pose proof (total_token_count_nonneg encode rest).
    assert ((total + len t >? token_limit) = false) as -> by lia.
    rewrite IH by (done || lia). by rewrite <- app_assoc.
Qed.

(** The first loop raises at the first message, from the newest, that does
    not encode, having kept every newer one within the limit. *)
Lemma primary_loop_raises encode token_limit reversed limited total :
  primary_loop encode reversed token_limit limited total = None ->
  exists taken bad rest,
    reversed = taken ++ bad :: rest /\
    ~ encodes encode bad /\
    Forall (encodes encode) taken /\
    (taken <> [] -> total + total_token_count encode taken <= token_limit) /\
    forall rest' limited',
      primary_loop encode (taken ++ bad :: rest') token_limit limited' total = None.
Proof.
  revert limited total. induction reversed as [|m rest IH]; intros limited total; simpl.
  - done.
  - destruct (encode (get_content m)) as [t|] eqn:Ht.
    + destruct (total + len t >? token_limit) eqn:Hcmp; [done|].
      intros Hrun. destruct (IH _ _ Hrun) as (taken & bad & rest' & -> & Hbad & Hall & Hle & Hagain).
      exists (m :: taken), bad, rest'. split; [reflexivity|]. split; [exact Hbad|].
      split; [constructor; [unfold encodes; by rewrite Ht|exact Hall]|].
      split.
      * intros _. simpl. unfold token_count at 1. rewrite Ht.
        destruct taken as [|m' taken'].
        -- simpl. lia.
        -- assert (m' :: taken' <> []) as Hne by done. specialize (Hle Hne). lia.
      * intros rest'' limited'. simpl. rewrite Ht, Hcmp. apply Hagain.
    + intros _. exists [], m, rest. split; [done|].
      split; [unfold encodes; rewrite Ht; intros H; by apply H|]. split; [constructor|].
      split; [done|]. intros rest' limited'. simpl. by rewrite Ht.
Qed.

(** The result of the first loop, when it returns: either nothing was
    added, or the total of the result is within the limit. *)
Lemma primary_loop_result encode token_limit reversed limited total r :
  primary_loop encode reversed token_limit limited total = Some r ->
  exists taken rest,
    reversed = taken ++ rest /\ r = rev taken ++ limited /\
    Forall (encodes encode) taken /\
    (taken <> [] -> total + total_token_count encode taken <= token_limit).
Proof.
  revert limited total r. induction reversed as [|m rest IH]; intros limited total r; simpl.
  - intros [= <-]. exists [], []. repeat split; [constructor|done].
  - destruct (encode (get_content m)) as [t|] eqn:Ht; [|done].
    destruct (total + len t >? token_limit) eqn:Hcmp.
    + intros [= <-]. exists [], (m :: rest). repeat split; [constructor|done].
    + intros Hrun.
      destruct (IH _ _ _ Hrun) as (taken & rest' & -> & -> & Hall & Hle).
      exists (m :: taken), rest'. simpl. rewrite <- app_assoc. split; [done|].
      split; [done|]. split; [constructor; [unfold encodes; by rewrite Ht|done]|].
      intros _. unfold token_count at 1. rewrite Ht.
      destruct taken as [|m' taken'].
      * simpl. lia.
      * assert (m' :: taken' <> []) as Hne by done. specialize (Hle Hne). lia.
Qed.

(** The second loop: either nothing was added, or the characters of the
    result are within the limit. *)
Lemma fallback_loop_result char_limit reversed limited total :
  total_chars limited = total ->
  exists taken rest,
    reversed = taken ++ rest /\
    fallback_loop reversed char_limit limited total = rev taken ++ limited /\
    (taken <> [] -> total + total_chars taken <= char_limit).
Proof.
  revert limited total. induction reversed as [|m rest IH]; intros limited total Hacc; simpl.
  - exists [], []. by repeat split.
  - destruct (total + len (get_content m) >? char_limit) eqn:Hcmp.
    + exists [], (m :: rest). by repeat split.
    + destruct (IH (m :: limited) (total + len (get_content m))) as (taken & rest' & -> & Hr & Hle).
      { simpl. lia. }
      exists (m :: taken), rest'. simpl. rewrite <- app_assoc. split; [done|].
      split; [done|]. intros _.
      destruct taken as [|m' taken'].
      * simpl. lia.
      * assert (m' :: taken' <> []) as Hne by done. specialize (Hle Hne). simpl in *. lia.
Qed.

Lemma fallback_loop_fits char_limit reversed limited total :
  total + total_chars reversed <= char_limit ->
  fallback_loop reversed char_limit limited total = rev reversed ++ limited.
Proof.
  revert limited total. induction reversed as [|m rest IH]; intros limited total Hfit.
  - done.
  - simpl in *. pose proof (total_chars_nonneg rest).
    assert ((total + len (get_content m) >? char_limit) = false) as -> by lia.
    rewrite IH by lia. by rewrite <- app_assoc.
Qed.

Lemma total_chars_rev l : total_chars (rev l) = total_chars l.
Proof.
  induction l as [|m l IH]; simpl; [done|].
  rewrite total_chars_app, IH. simpl. lia.
Qed.

(** A suffix of [older ++ bad :: newer] in which everything satisfies [P],
    while [bad] does not, lies within [newer]. *)
Lemma suffix_after_bad {A} (P : A -> Prop) (older newer r : list A) (bad : A) :
  r `suffix_of` older ++ bad :: newer ->
  r `suffix_of` newer \/ exists k, r = k ++ bad :: newer.
Proof.
  intros [k Hk].
  assert (H : older ++ [bad] ++ newer = k ++ r) by done.
  rewrite app_assoc in H. apply app_eq_inv in H as [(k' & Hl & Hr)|(k' & Hl & Hr)].
  - destruct (decide (k' = [])) as [->|Hne].
    + left. rewrite Hr. by exists [].
    + right. destruct (exists_last Hne) as (k'' & x & ->).
      rewrite app_assoc in Hl. apply app_inj_tail in Hl as [_ <-].
      exists k''. rewrite Hr, <- app_assoc. done.
  - left. by exists k'.
Qed.

Lemma limit_messages_by_tokens_primary_fits encode messages budget :
  encoding_for_model B = Some encode ->
  Forall (encodes encode) messages ->
  total_token_count encode messages <= budget ->
  limit_messages_by_tokens B messages budget = messages.
Proof.
  intros Henc Hall Hfit. rewrite limit_messages_by_tokens_unfold.
  unfold primary. rewrite Henc.
  rewrite primary_loop_fits.
  - by rewrite rev_involutive, app_nil_r.
  - by apply Forall_rev.
  - rewrite total_token_count_rev. lia.
Qed.

Lemma fallback_fits messages budget :
  total_chars messages <= 4 * budget -> fallback messages budget = messages.
Proof.
  intros Hfit. unfold fallback. rewrite fallback_loop_fits.
  - by rewrite rev_involutive, app_nil_r.
  - rewrite total_chars_rev. lia.
Qed.

(** X1. A list that fits the budget is returned whole: under the
    tokenizer when every message encodes and the token total is within the
    budget, under the character fallback when the character total is within
    four times the budget. *)
Theorem limit_messages_by_tokens_keeps_what_fits messages budget :
  (exists encode, encoding_for_model B = Some encode /\
     Forall (encodes encode) messages /\
     total_token_count encode messages <= budget) \/
  (primary B messages budget = None /\ total_chars messages <= 4 * budget) ->
  limit_messages_by_tokens B messages budget = messages.
Proof.
  intros [(encode & Henc & Hall & Hfit)|[Hraise Hfit]].
  - by apply (limit_messages_by_tokens_primary_fits encode).
  - rewrite limit_messages_by_tokens_unfold, Hraise. by apply fallback_fits.
Qed.

(** What the trimmer returns, whichever loop produced it. *)
Lemma limit_messages_by_tokens_cases messages budget :
  let r := limit_messages_by_tokens B messages budget in
  (exists encode, encoding_for_model B = Some encode /\
     primary B messages budget = Some r /\
     Forall (encodes encode) r /\
     (r <> [] -> total_token_count encode r <= budget)) \/
  (primary B messages budget = None /\ r = fallback messages budget /\
   r `suffix_of` messages /\
   (r <> [] -> total_chars r <= 4 * budget)).
Proof.
  cbv zeta. rewrite limit_messages_by_tokens_unfold. unfold primary.
  destruct (encoding_for_model B) as [encode|] eqn:Henc.
  - destruct (primary_loop encode (rev messages) budget [] 0) as [r|] eqn:Hrun.
    + left. exists encode. split; [done|]. split; [done|].
      destruct (primary_loop_result _ _ _ _ _ _ Hrun) as (taken & rest & Hsplit & -> & Hall & Hle).
      rewrite app_nil_r. split; [by apply Forall_rev|].
      intros Hne. rewrite total_token_count_rev.
      assert (taken <> []) as Hne' by (intros ->; by apply Hne).
      specialize (Hle Hne'). lia.
    + right. split; [done|]. split; [done|].
      destruct (fallback_maximal messages budget) as (Hsuf & _ & _). split; [done|].
      unfold fallback.
      destruct (fallback_loop_result (budget * 4) (rev messages) [] 0 eq_refl)
        as (taken & rest & Hsplit & -> & Hle).
      rewrite app_nil_r. intros Hne. rewrite total_chars_rev.
      assert (taken <> []) as Hne' by (intros ->; by apply Hne).
      specialize (Hle Hne'). lia.
  - right. split; [done|]. split; [done|].
    destruct (fallback_maximal messages budget) as (Hsuf & _ & _). split; [done|].
    unfold fallback.
    destruct (fallback_loop_result (budget * 4) (rev messages) [] 0 eq_refl)
      as (taken & rest & Hsplit & -> & Hle).
    rewrite app_nil_r. intros Hne. rewrite total_chars_rev.
    assert (taken <> []) as Hne' by (intros ->; by apply Hne).
    specialize (Hle Hne'). lia.
Qed.

(** When the first loop raised, a suffix of the input in which every
    message encodes has a token total within the limit, or is empty. *)
Lemma encoding_suffix_within_limit encode messages budget r :
  primary_loop encode (rev messages) budget [] 0 = None ->
  r `suffix_of` messages ->
  Forall (encodes encode) r ->
  r = [] \/ total_token_count encode r <= budget.
Proof.
  intros Hraise Hsuf Hall.
  destruct (primary_loop_raises _ _ _ _ _ Hraise)
    as (taken & bad & rest & Hsplit & Hbad & Htaken & Hle & _).
  apply rev_split_suffix in Hsplit. simpl in Hsplit. rewrite <- app_assoc in Hsplit.
  simpl in Hsplit. rewrite Hsplit in Hsuf.
  destruct (suffix_after_bad (encodes encode) _ _ _ _ Hsuf) as [[k Hk]|[k ->]].
  - destruct r as [|m r']; [by left|]. right.
    assert (taken <> []) as Hne.
    { intros ->. simpl in Hk. by destruct k. }
    specialize (Hle Hne).
    assert (total_token_count encode (rev taken) =
            total_token_count encode k + total_token_count encode (m :: r'))
      by (by rewrite Hk, total_token_count_app).
    rewrite total_token_count_rev in *.
    pose proof (total_token_count_nonneg encode k). lia.
  - exfalso. apply Hbad. rewrite Forall_app in Hall. destruct Hall as [_ Hall].
    by inversion Hall.
Qed.

(** X2. For a budget that is not negative, the list the trimmer returns
    always passes the count of [count_tokens], whichever loop produced it
    and wherever the tokenizer raises. *)
Theorem count_tokens_of_limited_within_budget messages budget :
  0 <= budget ->
  count_tokens B (limit_messages_by_tokens B messages budget) <= budget.
Proof.
  intros Hb.
  destruct (limit_messages_by_tokens_cases messages budget)
    as [(encode & Henc & Hrun & Hall & Hle)|(Hraise & Hr & Hsuf & Hle)];
    cbv zeta in *.
  - unfold count_tokens. rewrite Henc, (count_loop_encodes _ _ _ Hall).
    destruct (limit_messages_by_tokens B messages budget) as [|m r]; [simpl; lia|].
    assert (m :: r <> []) as Hne by done. specialize (Hle Hne). lia.
  - set (r := limit_messages_by_tokens B messages budget) in *.
    assert (Hchars : total_chars r / 4 <= budget).
    { destruct (decide (r = [])) as [Hr0|Hne].
      - rewrite Hr0. simpl. rewrite Zdiv_0_l. lia.
      - specialize (Hle Hne). apply Z.div_le_upper_bound; lia. }
    unfold count_tokens.
    destruct (encoding_for_model B) as [encode|] eqn:Henc; [|done].
    destruct (count_loop encode r 0) as [c|] eqn:Hc; [|done].
    apply count_loop_Some in Hc as [-> Hall].
    unfold primary in Hraise. rewrite Henc in Hraise.
    destruct (encoding_suffix_within_limit encode messages budget r Hraise Hsuf Hall)
      as [->|Hle']; [simpl; lia|lia].
Qed.

(** X3. Trimming is idempotent: trimming a trimmed list again with the
    same budget changes nothing, whatever the tokenizer does. *)
Theorem limit_messages_by_tokens_idempotent messages budget :
  limit_messages_by_tokens B (limit_messages_by_tokens B messages budget) budget =
  limit_messages_by_tokens B messages budget.
Proof.
  destruct (limit_messages_by_tokens_cases messages budget)
    as [(encode & Henc & Hrun & Hall & Hle)|(Hraise & Hr & Hsuf & Hle)];
    cbv zeta in *.
  - destruct (limit_messages_by_tokens B messages budget) as [|m r] eqn:Hres; [done|].
    apply (limit_messages_by_tokens_primary_fits encode); [done|done|]. by apply Hle.
  - set (r := limit_messages_by_tokens B messages budget) in *.
    destruct (decide (r = [])) as [->|Hne]; [done|]. specialize (Hle Hne).
    rewrite (limit_messages_by_tokens_unfold B r budget).
    destruct (primary B r budget) as [r'|] eqn:Hrun; [|by apply fallback_fits].
    unfold primary in Hrun, Hraise.
    destruct (encoding_for_model B) as [encode|] eqn:Henc; [|done].
    destruct (primary_loop_raises _ _ _ _ _ Hraise)
      as (taken & bad & rest & Hsplit & Hbad & Htaken & Hle' & Hagain).
    apply rev_split_suffix in Hsplit. simpl in Hsplit. rewrite <- app_assoc in Hsplit.
    simpl in Hsplit. pose proof Hsuf as Hsuf'. rewrite Hsplit in Hsuf'.
    destruct (suffix_after_bad (encodes encode) _ _ _ _ Hsuf') as [[k Hk]|[k Hk]].
    + (* every message of [r] was kept by the first loop, within the limit *)
      assert (Hall : Forall (encodes encode) r).
      { apply Forall_rev in Htaken. rewrite Hk in Htaken.
        by apply Forall_app in Htaken as [_ ?]. }
      assert (taken <> []) as Hne'.
      { intros ->. simpl in Hk. destruct k; [|done]. simpl in Hk. by apply Hne. }
      specialize (Hle' Hne').
      assert (total_token_count encode (rev taken) =
              total_token_count encode k + total_token_count encode r)
        by (by rewrite Hk, total_token_count_app).
      rewrite total_token_count_rev in *.
      pose proof (total_token_count_nonneg encode k).
      rewrite primary_loop_fits in Hrun.
      * injection Hrun as <-. by rewrite rev_involutive, app_nil_r.
      * by apply Forall_rev.
      * rewrite total_token_count_rev. lia.
    + (* the first loop raises on [r] at the same message *)
      exfalso. rewrite Hk in Hrun. rewrite rev_app_distr in Hrun. simpl in Hrun.
      rewrite rev_involutive, <- app_assoc in Hrun. simpl in Hrun.
      by rewrite Hagain in Hrun.
Qed.

(** X4. With a negative budget nothing is kept. *)
Theorem limit_messages_by_tokens_negative_budget messages budget :
  budget < 0 -> limit_messages_by_tokens B messages budget = [].
Proof.
  intros Hb.
  destruct (limit_messages_by_tokens_cases messages budget)
    as [(encode & Henc & Hrun & Hall & Hle)|(Hraise & Hr & Hsuf & Hle)];
    cbv zeta in *.
  - destruct (limit_messages_by_tokens B messages budget) as [|m r]; [done|].
    assert (m :: r <> []) as Hne by done. specialize (Hle Hne).
    pose proof (total_token_count_nonneg encode (m :: r)). lia.
  - destruct (limit_messages_by_tokens B messages budget) as [|m r]; [done|].
    assert (m :: r <> []) as Hne by done. specialize (Hle Hne).
    pose proof (total_chars_nonneg (m :: r)). lia.
Qed.

End TrimmerMore.

(** ** The footprint of [handle_message] *)

Section TripleRules.
Context {A B : Type}.

Lemma triple_weaken (P P' Q : state * list effect -> Prop) (m : M A) :
  (forall st, P st -> P' st) -> triple P' m Q -> triple P m Q.
Proof. intros HP H st Hst. apply H, HP, Hst. Qed.

Lemma triple_ret (P Q : state * list effect -> Prop) (a : A) :
  (forall st, P st -> Q st) -> triple P (ret a) Q.
Proof. intros H st Hst. by apply H. Qed.

Lemma triple_raise (P Q : state * list effect -> Prop) (e : exn) :
  (forall st, P st -> Q st) -> triple P (raise (A := A) e) Q.
Proof. intros H st Hst. by apply H. Qed.

Lemma triple_call (P Q : state * list effect -> Prop) (e : effect)
    (answer : nat -> exn + A) :
  (forall s tr, P (s, tr) -> Q (s, tr ++ [e])) -> triple P (call e answer) Q.
Proof. intros H [s tr] Hst. by apply H. Qed.

Lemma triple_bind (P I : state * list effect -> Prop) (m : M A) (k : A -> M B) :
  triple P m I -> (forall a, triple I (k a) I) -> triple P (bind m k) I.
Proof.
  intros Hm Hk st Hst. unfold bind. specialize (Hm st Hst).
  destruct (m st) as [[e|a] st']; simpl in *; [done|]. by apply Hk.
Qed.

Lemma triple_try (P I : state * list effect -> Prop) (m : M A) (h : exn -> M A) :
  triple P m I -> (forall e, triple I (h e) I) -> triple P (try_except m h) I.
Proof.
  intros Hm Hh st Hst. unfold try_except. specialize (Hm st Hst).
  destruct (m st) as [[e|a] st']; simpl in *; [|done]. by apply Hh.
Qed.

End TripleRules.

Lemma triple_get {A} (P Q : state * list effect -> Prop) (k : state -> M A) :
  (forall s0, triple (fun st => P st /\ fst st = s0) (k s0) Q) ->
  triple P (bind get k) Q.
Proof. intros H [s tr] Hst. unfold bind, get. simpl. by apply (H s). Qed.

Lemma triple_modify (P Q : state * list effect -> Prop) (f : state -> state) :
  (forall s tr, P (s, tr) -> Q (f s, tr)) -> triple P (modify f) Q.
Proof. intros H [s tr] Hst. by apply H. Qed.

(** A property [I] of state and trace that every single step of the
    handling of [ev] keeps is kept by [handle_message] as a whole.  The steps
    are: the calls that only ask; a message to the service chat; a private
    message to the sender; a response with a non-empty text to the chat of
    the event; the temporary file and the download, for an event with media;
    an append to, the creation of and, for the administrator, the clearing of
    the history of the chat of the event; an append to the ring of sent
    identifiers; for the administrator, a new probability within the unit
    interval and new model names. *)
Section Footprint.
Context (B : builtins) (W : world) (cfg : config) (ev : event).
Context (I : state * list effect -> Prop) (administrator : Prop).

Hypothesis I_asks : forall s tr e, asks ev e -> I (s, tr) -> I (s, tr ++ [e]).
Hypothesis I_service : forall s tr text,
  I (s, tr) -> I (s, tr ++ [SendMessage (ToChat (service_chat_id cfg)) text]).
Hypothesis I_private : forall s tr sender text,
  I (s, tr) -> I (s, tr ++ [SendMessage (ToSender sender) text]).
Hypothesis I_respond : forall s tr text,
  text <> [] -> I (s, tr) -> I (s, tr ++ [Respond (chat_id ev) text]).
Hypothesis I_temporary : forall s tr,
  event_media ev <> None -> I (s, tr) -> I (s, tr ++ [NamedTemporaryFile]).
Hypothesis I_download : forall s tr path,
  event_media ev <> None -> I (s, tr) -> I (s, tr ++ [DownloadMedia path]).
Hypothesis I_files : forall s tr f,
  event_media ev <> None -> I (s, tr) -> I (set_files f s, tr).
Hypothesis I_append : forall s tr q m,
  chat_queues s !! chat_id ev = Some q -> I (s, tr) ->
  I (set_chat_queues (<[chat_id ev := append q m]>) s, tr).
Hypothesis I_ensure : forall s tr,
  I (s, tr) -> I (set_chat_queues (ensure_queue (chat_id ev)) s, tr).
Hypothesis I_sent : forall s tr id,
  I (s, tr) -> I (set_sent_message_ids (fun d => append d id) s, tr).
Hypothesis I_clear : forall s tr,
  administrator -> I (s, tr) -> I (set_chat_queues (alter clear (chat_id ev)) s, tr).
Hypothesis I_probability : forall s tr p,
  administrator -> in_unit_interval p = true -> I (s, tr) ->
  I (set_message_probability p s, tr).
Hypothesis I_model : forall s tr name,
  administrator -> I (s, tr) -> I (set_cs_model name s, tr).
Hypothesis I_vision_model : forall s tr name,
  administrator -> I (s, tr) -> I (set_cs_vision_model name s, tr).

Create HintDb footprint.

Ltac pre :=
  let st := fresh "st" in let H := fresh "H" in
  intros st H; first [exact H | exact (proj1 H)].

Ltac pre2 :=
  let s := fresh "s" in let tr := fresh "tr" in let H := fresh "H" in
  intros s tr H; first [exact H | exact (proj1 H)].

Ltac step_call :=
  apply triple_call;
  let s := fresh "s" in let tr := fresh "tr" in let H := fresh "H" in
  intros s tr H;
  first [ apply I_asks; [done|first [exact H | exact (proj1 H)]]
        | apply I_service; first [exact H | exact (proj1 H)]
        | apply I_private; first [exact H | exact (proj1 H)] ].

Ltac known :=
  first [ solve [eauto with footprint]
        | apply (triple_weaken _ I); [pre|solve [eauto with footprint]] ].

Ltac triple_auto :=
  repeat (cbv zeta; lazymatch goal with
  | |- triple _ (bind get _) _ => apply triple_get; intros ?
  | |- triple _ (bind _ _) _ => apply (triple_bind _ I); [|intros ?]
  | |- triple _ (try_except _ _) _ => apply (triple_try _ I); [|intros ?]
  | |- triple _ (ret _) _ => apply triple_ret; pre
  | |- triple _ (raise _) _ => apply triple_raise; pre
  | |- triple _ (call _ _) _ => step_call
  | |- triple _ (if ?b then _ else _) _ => destruct b eqn:?
  | |- triple _ (match ?x with _ => _ end) _ => destruct x eqn:?
  | |- triple _ _ _ => known
  end).

Lemma queue_append_kept m : triple I (queue_append (chat_id ev) m) I.
Proof.
  unfold queue_append. apply triple_get. intros s0.
  destruct (chat_queues s0 !! chat_id ev) as [q|] eqn:Hq.
  - apply triple_modify. intros s tr [H Hs]. simpl in Hs. subst s0. by apply I_append.
  - apply triple_raise. pre.
Qed.

Lemma sent_append_kept id : triple I (sent_append id) I.
Proof. apply triple_modify. intros s tr H. by apply I_sent. Qed.
Hint Resolve queue_append_kept sent_append_kept : footprint.

Lemma generate_response_kept messages : triple I (generate_response W messages) I.
Proof. unfold generate_response. triple_auto. Qed.

Lemma analyze_image_kept data prompt : triple I (analyze_image W data prompt) I.
Proof. unfold analyze_image. triple_auto. Qed.

Lemma send_service_message_kept text : triple I (_send_service_message W cfg text) I.
Proof. unfold _send_service_message, send_message. triple_auto. Qed.
Hint Resolve generate_response_kept analyze_image_kept send_service_message_kept
  : footprint.

Lemma send_error_to_service_kept msg context :
  triple I (_send_error_to_service W cfg msg context) I.
Proof. unfold _send_error_to_service. triple_auto. Qed.
Hint Resolve send_error_to_service_kept : footprint.

Lemma send_response_kept response :
  truthy response = true -> triple I (_send_response W cfg ev response) I.
Proof.
  intros Hr. unfold _send_response.
  apply (triple_try _ I); [|intros e; triple_auto].
  apply (triple_bind _ I); [|intros id; triple_auto].
  apply triple_call. intros s tr H. apply I_respond; [|done]. by destruct response.
Qed.
Hint Resolve send_response_kept : footprint.

Lemma generate_and_send_response_kept is_random :
  triple I (_generate_and_send_response B W cfg ev is_random) I.
Proof. unfold _generate_and_send_response, _send_error_response. triple_auto. Qed.
Hint Resolve generate_and_send_response_kept : footprint.

Lemma should_respond_randomly_kept : triple I (_should_respond_randomly W ev) I.
Proof. unfold _should_respond_randomly. triple_auto. Qed.
Hint Resolve should_respond_randomly_kept : footprint.

Lemma handle_text_message_kept who text :
  triple I (_handle_text_message B W cfg ev who text) I.
Proof. unfold _handle_text_message. triple_auto. Qed.

Lemma download_image_kept :
  event_media ev <> None -> triple I (_download_image W ev) I.
Proof.
  intros Hmedia. unfold _download_image.
  apply (triple_try _ I); [|intros e; triple_auto].
  apply (triple_bind _ I);
    [apply triple_call; intros s tr H; by apply I_temporary|intros path].
  apply (triple_bind _ I);
    [apply triple_modify; intros s tr H; by apply I_files|intros _].
  apply (triple_bind _ I);
    [apply triple_call; intros s tr H; by apply I_download|intros data].
  apply (triple_bind _ I);
    [apply triple_modify; intros s tr H; by apply I_files|intros _].
  apply triple_get. intros s0.
  destruct (files s0 !! path); [|apply triple_raise; pre].
  apply (triple_bind _ I); [|intros _; apply triple_ret; pre].
  apply triple_modify. intros s tr [H _]. by apply I_files.
Qed.
Hint Resolve download_image_kept : footprint.

Lemma handle_media_message_kept m who text :
  event_media ev <> None ->
  triple I (_handle_media_message B W cfg ev m who text) I.
Proof. intros Hmedia. unfold _handle_media_message, is_image. triple_auto. Qed.

Lemma history_loop_kept fetched messages : triple I (history_loop fetched messages) I.
Proof.
  revert messages. induction fetched as [|hm rest IH]; intros messages; simpl.
  - triple_auto.
  - unfold sender_name_of. triple_auto; apply IH.
Qed.
Hint Resolve history_loop_kept : footprint.

Lemma get_chat_history_kept limit :
  triple I (_get_chat_history W (chat_id ev) limit) I.
Proof. unfold _get_chat_history. triple_auto. Qed.
Hint Resolve get_chat_history_kept : footprint.

Lemma generate_summary_kept text n : triple I (_generate_summary W text n) I.
Proof. unfold _generate_summary. triple_auto. Qed.
Hint Resolve generate_summary_kept : footprint.

Lemma generate_and_send_summary_kept sender n :
  triple I (_generate_and_send_summary W cfg ev sender n) I.
Proof. unfold _generate_and_send_summary, send_message, sender_label. triple_auto. Qed.
Hint Resolve generate_and_send_summary_kept : footprint.

Lemma handle_summary_command_kept who text :
  triple I (_handle_summary_command B W cfg ev who text) I.
Proof. unfold _handle_summary_command, int_. triple_auto. Qed.

Lemma handle_admin_commands_kept who text :
  (who = admin_username cfg -> administrator) ->
  triple I (_handle_admin_commands B W cfg ev who text) I.
Proof.
  intros Hadmin. unfold _handle_admin_commands.
  destruct (str_eqb who (admin_username cfg)) eqn:Hwho; cbn [negb];
    [|apply triple_ret; pre].
  apply bool_decide_eq_true in Hwho. specialize (Hadmin Hwho).
  unfold second_word, after_first_space, float_, update_model, update_vision_model.
  assert (Hclear : triple I (modify (set_chat_queues (alter clear (chat_id ev)))) I)
    by (apply triple_modify; intros s tr H; by apply I_clear).
  assert (Hmodel : forall name, triple I (modify (set_cs_model name)) I)
    by (intros name; apply triple_modify; intros s tr H; by apply I_model).
  assert (Hvision : forall name, triple I (modify (set_cs_vision_model name)) I)
    by (intros name; apply triple_modify; intros s tr H; by apply I_vision_model).
  assert (Hprob : forall p, in_unit_interval p = true ->
                            triple I (modify (set_message_probability p)) I)
    by (intros p Hp; apply triple_modify; intros s tr H; by apply I_probability).
  triple_auto.
Qed.

(** The property survives the handling of the event: the administrator's
    steps are needed only when the sender is shown under the administrator's
    name. *)
Lemma handle_message_keeps st :
  (forall who st', sender_username_of W st = (inr who, st') ->
     who = admin_username cfg -> administrator) ->
  I st -> I (snd (handle_message B W cfg ev st)).
Proof.
  destruct st as [s tr]. intros Hadmin Hst. unfold handle_message.
  destruct (sender_username_of W (s, tr)) as [[e|who] [s' tr']] eqn:Hwho.
  - unfold sender_username_of, bind, call, raise, ret in Hwho. simpl in Hwho.
    destruct (w_get_sender W (length tr)) as [e'|[sd|]].
    + injection Hwho as <- <- <-. apply I_asks; done.
    + by destruct (username sd) as [[|c u]|].
    + injection Hwho as <- <- <-. apply I_asks; done.
  - assert (Hst' : I (s', tr')).
    { unfold sender_username_of, bind, call, raise, ret in Hwho. simpl in Hwho.
      destruct (w_get_sender W (length tr)) as [e'|[sd|]]; [done| |done].
      destruct (username sd) as [[|c u]|]; injection Hwho as <- <- <-;
        apply I_asks; done. }
    specialize (Hadmin who (s', tr') eq_refl).
    pose proof (handle_admin_commands_kept who (default [] (event_message ev)) Hadmin).
    pose proof (handle_summary_command_kept who (default [] (event_message ev))).
    pose proof (handle_text_message_kept who (default [] (event_message ev))).
    assert (Hmedia : forall m, event_media ev = Some m ->
              triple I (_handle_media_message B W cfg ev m who
                          (default [] (event_message ev))) I).
    { intros m Hm. apply handle_media_message_kept. by rewrite Hm. }
    assert (Hensure : triple I
              (modify (set_chat_queues (fun q =>
                 match q !! chat_id ev with
                 | None => <[chat_id ev := new (Some 100%nat)]> q
                 | Some _ => q
                 end))) I)
      by (apply triple_modify; intros s0 tr0 Hs0; by apply I_ensure).
    revert Hst'. generalize (s', tr').
    match goal with |- forall p, I p -> I (snd (?m p)) => change (triple I m I) end.
    triple_auto.
Qed.

End Footprint.

(** ** What [handle_message] never does *)

Lemma extends_with_refl (P : effect -> Prop) s tr : extends_with P tr (s, tr).
Proof. exists []. by rewrite app_nil_r. Qed.

Lemma extends_with_step (P : effect -> Prop) before s s' tr e :
  P e -> extends_with P before (s, tr) -> extends_with P before (s', tr ++ [e]).
Proof.
  intros He (added & Htr & Hall). simpl in Htr. exists (added ++ [e]). simpl.
  split; [by rewrite Htr, app_assoc|]. apply Forall_app. split; [done|by constructor].
Qed.

Lemma extends_with_state (P : effect -> Prop) before s s' tr :
  extends_with P before (s, tr) -> extends_with P before (s', tr).
Proof. intros (added & Htr & Hall). by exists added. Qed.

Section Never.
Context (B : builtins) (W : world) (cfg : config).

(** X5. Whatever the event and whatever the collaborators answer, the
    calls [handle_message] adds to the trace post a response only to the chat
    of the event and only with a non-empty text, and address a chat through
    [send_message] only if it is the service chat. *)
Theorem handle_message_posts_only_answers ev st :
  extends_with (harmless cfg ev) (snd st) (snd (handle_message B W cfg ev st)).
Proof.
  destruct st as [s tr].
  apply (handle_message_keeps B W cfg ev (extends_with (harmless cfg ev) tr) True)
    with (st := (s, tr)).
  - intros s0 tr0 e He. apply extends_with_step. by destruct e.
  - intros s0 tr0 text. by apply extends_with_step.
  - intros s0 tr0 sender text. by apply extends_with_step.
  - intros s0 tr0 text Ht. by apply extends_with_step.
  - intros s0 tr0 _. by apply extends_with_step.
  - intros s0 tr0 path _. by apply extends_with_step.
  - intros s0 tr0 f _. apply extends_with_state.
  - intros s0 tr0 q m _. apply extends_with_state.
  - intros s0 tr0. apply extends_with_state.
  - intros s0 tr0 id. apply extends_with_state.
  - intros s0 tr0 _. apply extends_with_state.
  - intros s0 tr0 p _ _. apply extends_with_state.
  - intros s0 tr0 name _. apply extends_with_state.
  - intros s0 tr0 name _. apply extends_with_state.
  - done.
  - apply extends_with_refl.
Qed.

(** X6. The handling of an event leaves the history of every other chat
    exactly as it was. *)
Theorem handle_message_other_chats_untouched ev st chat :
  chat <> chat_id ev ->
  chat_queues (fst (snd (handle_message B W cfg ev st))) !! chat =
  chat_queues (fst st) !! chat.
Proof.
  intros Hne.
  apply (handle_message_keeps B W cfg ev
           (fun st' => chat_queues (fst st') !! chat = chat_queues (fst st) !! chat) True)
    with (st := st);
    try (intros; simpl in *; done).
  - intros s tr q m _ H. simpl in *. by rewrite lookup_insert_ne.
  - intros s tr H. simpl in *. unfold ensure_queue.
    destruct (chat_queues s !! chat_id ev); [done|]. by rewrite lookup_insert_ne.
  - intros s tr _ H. simpl in *. by rewrite lookup_alter_ne.
Qed.

(** X7. An event whose sender is not the administrator changes neither the
    response probability nor the names of the two models, whatever its
    text. *)
Theorem handle_message_settings_need_administrator ev st :
  (forall who st', sender_username_of W st = (inr who, st') ->
     who <> admin_username cfg) ->
  let s' := fst (snd (handle_message B W cfg ev st)) in
  message_probability s' = message_probability (fst st) /\
  cs_model s' = cs_model (fst st) /\
  cs_vision_model s' = cs_vision_model (fst st).
Proof.
  intros Hwho.
  apply (handle_message_keeps B W cfg ev
           (fun st' => message_probability (fst st') = message_probability (fst st) /\
                       cs_model (fst st') = cs_model (fst st) /\
                       cs_vision_model (fst st') = cs_vision_model (fst st))
           False) with (st := st);
    try (intros; simpl in *; done).
  intros who st' H1 H2. by apply (Hwho who st').
Qed.

(** X8. The response probability stays within the unit interval: when the
    configured value lies between 0 and 1, so does the value in every state
    the bot can reach. *)
Theorem probability_stays_in_unit_interval st :
  in_unit_interval (cfg_message_probability cfg) = true ->
  reachable B W cfg st ->
  in_unit_interval (message_probability (fst st)) = true.
Proof.
  intros Hcfg Hr. induction Hr as [client|st ev _ IH]; [done|].
  apply (handle_message_keeps B W cfg ev
           (fun st' => in_unit_interval (message_probability (fst st')) = true) True)
    with (st := st);
    try (intros; simpl in *; done).
Qed.

(** X9. An event without media creates no temporary file, downloads
    nothing and leaves the files as they were. *)
Theorem handle_message_without_media_downloads_nothing ev st :
  event_media ev = None ->
  files (fst (snd (handle_message B W cfg ev st))) = files (fst st) /\
  extends_with no_download (snd st) (snd (handle_message B W cfg ev st)).
Proof.
  intros Hmedia. destruct st as [s tr].
  apply (handle_message_keeps B W cfg ev
           (fun st' => files (fst st') = files s /\ extends_with no_download tr st')
           True) with (st := (s, tr));
    intros; try (exfalso; congruence);
    repeat match goal with H : _ /\ _ |- _ => destruct H end;
    simpl in *; try (split; [done|]);
    first [ done
          | apply extends_with_refl
          | eapply extends_with_state; eassumption
          | eapply extends_with_step; [|eassumption];
            match goal with
            | e : effect |- _ => by destruct e
            | _ => done
            end ].
Qed.

End Never.

(** ** The chat service and the outcome of [handle_message] *)

Section Outcomes.
Context (B : builtins) (W : world) (cfg : config).

(** X10. [generate_response] never returns an empty text and never lets an
    exception of another class than [ChatServiceError] through, whatever
    the client does; the state is as before. *)
Theorem generate_response_outcome messages st :
  match fst (generate_response W messages st) with
  | inr content => content <> []
  | inl e => exn_cls e = ChatServiceError
  end /\
  fst (snd (generate_response W messages st)) = fst st.
Proof.
  destruct st as [s tr].
  unfold generate_response, try_except, bind, get, call, raise, ret. cbn [fst snd].
  destruct (cs_client s); cbn [negb fst snd]; [|done].
  destruct (w_chat W (length tr) (cs_model s) messages []) as [e|content];
    cbn [fst snd]; [done|].
  destruct content; cbn [truthy negb fst snd exn_cls]; done.
Qed.

(** X11. The same for [analyze_image]. *)
Theorem analyze_image_outcome image_data prompt st :
  match fst (analyze_image W image_data prompt st) with
  | inr content => content <> []
  | inl e => exn_cls e = ChatServiceError
  end /\
  fst (snd (analyze_image W image_data prompt st)) = fst st.
Proof.
  destruct st as [s tr].
  unfold analyze_image, try_except, bind, get, call, raise, ret. cbn [fst snd].
  destruct (cs_client s); cbn [negb fst snd]; [|done].
  destruct (w_chat W (length tr) (cs_vision_model s) _ _) as [e|content];
    cbn [fst snd]; [done|].
  destruct content; cbn [truthy negb fst snd exn_cls]; done.
Qed.

Lemma send_service_message_returns text st :
  fst (_send_service_message W cfg text st) = inr tt.
Proof.
  destruct st as [s tr].
  unfold _send_service_message, send_message, try_except, bind, call, ret.
  cbn [fst snd]. by destruct (w_send_message _ _ _ _).
Qed.

Lemma send_error_to_service_returns msg context st :
  fst (_send_error_to_service W cfg msg context st) = inr tt.
Proof.
  unfold _send_error_to_service, try_except.
  match goal with |- context [_send_service_message W cfg ?t st] =>
    pose proof (send_service_message_returns t st) as H;
    destruct (_send_service_message W cfg t st) as [[e|[]] st'] end;
    [discriminate H|reflexivity].
Qed.

(** X12. [handle_message] ends normally whenever the sender is found,
    whatever fails afterwards.  When the sender is not found, the exception
    that leaves it is the [UnboundLocalError] of its own [except] branch, and
    the state is as before. *)
Theorem handle_message_outcome ev st :
  match fst (sender_username_of W st) with
  | inr _ => fst (handle_message B W cfg ev st) = inr tt
  | inl _ =>
    (exists e, fst (handle_message B W cfg ev st) = inl e /\
               exn_cls e = UnboundLocalError) /\
    fst (snd (handle_message B W cfg ev st)) = fst st
  end.
Proof.
  unfold handle_message.
  destruct (sender_username_of W st) as [[e|who] st'] eqn:Hwho; cbn [fst snd].
  - split; [by eexists|]. by apply sender_username_of_raises in Hwho.
  - unfold try_except.
    match goal with |- context [bind ?m ?k st'] =>
      destruct (bind m k st') as [[e|[]] st''] end; [|reflexivity].
    apply send_error_to_service_returns.
Qed.

End Outcomes.

(** ** The administrator's commands *)

Lemma startswith_prefix s p : startswith s p = true -> exists r, s = p ++ r.
Proof.
  revert s. induction p as [|c p IH]; intros s H; [by exists s|].
  destruct s as [|d s]; [done|]. simpl in H.
  destruct (c =? d)%N eqn:Hcd; [|done]. apply N.eqb_eq in Hcd as ->.
  destruct (IH s H) as [r ->]. by exists r.
Qed.

Lemma split_space1_first_space w rest :
  32%N ∉ w -> split_space1 (w ++ 32%N :: rest) = [w; rest].
Proof.
  induction w as [|c w IH]; intros Hw; [done|].
  apply not_elem_of_cons in Hw as [Hc Hw]. simpl.
  destruct (c =? 32)%N eqn:E; [apply N.eqb_eq in E; congruence|].
  by rewrite IH.
Qed.

Lemma split_space1_no_space s : 32%N ∉ s -> split_space1 s = [s].
Proof.
  induction s as [|c s IH]; intros Hs; [done|].
  apply not_elem_of_cons in Hs as [Hc Hs]. simpl.
  destruct (c =? 32)%N eqn:E; [apply N.eqb_eq in E; congruence|].
  by rewrite IH.
Qed.

Section AdminCommands.
Context (B : builtins) (W : world) (cfg : config).

Lemma send_service_message_run text s tr :
  _send_service_message W cfg text (s, tr) =
  (inr tt, (s, tr ++ [SendMessage (ToChat (service_chat_id cfg)) text])).
Proof.
  unfold _send_service_message, send_message, try_except, bind, call, ret.
  cbn [fst snd]. by destruct (w_send_message _ _ _ _).
Qed.

(** X13. The administrator's [!забудь все], in any letter case, empties the
    history of the chat it is sent in and of no other chat, leaves the ring of
    sent identifiers alone, tells the service chat and ends the handling. *)
Theorem forget_all_clears_this_chat ev text s tr :
  str_lower B text = py "!забудь все" ->
  let r := _handle_admin_commands B W cfg ev (admin_username cfg) text (s, tr) in
  fst r = inr true /\
  queue_length (fst (snd r)) (chat_id ev) = 0 /\
  (forall chat, chat <> chat_id ev ->
     chat_queues (fst (snd r)) !! chat = chat_queues s !! chat) /\
  sent_message_ids (fst (snd r)) = sent_message_ids s /\
  snd (snd r) =
    tr ++ [SendMessage (ToChat (service_chat_id cfg))
             (py "✅ Контекст чата " ++ str_of_Z (chat_id ev) ++ py " очищен")].
Proof.
  intros Hlow.
  assert (Hrun : _handle_admin_commands B W cfg ev (admin_username cfg) text (s, tr) =
            (inr true,
             (set_chat_queues (alter clear (chat_id ev)) s,
              tr ++ [SendMessage (ToChat (service_chat_id cfg))
                       (py "✅ Контекст чата " ++ str_of_Z (chat_id ev) ++ py " очищен")]))).
  { unfold _handle_admin_commands, str_eqb.
    rewrite (bool_decide_eq_true_2 _ eq_refl). cbn [negb]. rewrite Hlow.
    rewrite (bool_decide_eq_true_2 _ eq_refl).
    unfold bind, modify. cbn [fst snd].
    by rewrite send_service_message_run. }
  cbv zeta. rewrite Hrun. cbn [fst snd].
  split; [done|]. split; [|split; [|split; reflexivity]].
  - unfold queue_length. cbn [chat_queues set_chat_queues].
    rewrite lookup_alter_eq. by destruct (chat_queues s !! chat_id ev).
  - intros chat Hne. cbn [chat_queues set_chat_queues]. by rewrite lookup_alter_ne.
Qed.

Lemma model_prefix_is_no_other_command low :
  startswith low (py "!модель") = true ->
  str_eqb low (py "!забудь все") = false /\
  startswith low (py "!вероятность") = false.
Proof.
  intros H. apply startswith_prefix in H as [r ->]. split.
  - apply bool_decide_eq_false. vm_compute. discriminate.
  - vm_compute. reflexivity.
Qed.

Lemma vision_prefix_is_no_other_command low :
  startswith low (py "!vision") = true ->
  str_eqb low (py "!забудь все") = false /\
  startswith low (py "!вероятность") = false /\
  startswith low (py "!модель") = false.
Proof.
  intros H. apply startswith_prefix in H as [r ->]. split; [|split].
  - apply bool_decide_eq_false. vm_compute. discriminate.
  - vm_compute. reflexivity.
  - vm_compute. reflexivity.
Qed.

(** X14. The administrator's [!модель]: the new name of the text model is
    everything after the first space of the message, spaces and letter case
    kept, whatever follows the command word before that space; nothing else
    of the state changes and the service chat is told the name. *)
Theorem model_command_takes_rest_of_line ev cmd name s tr :
  startswith (str_lower B (cmd ++ 32%N :: name)) (py "!модель") = true ->
  32%N ∉ cmd ->
  _handle_admin_commands B W cfg ev (admin_username cfg) (cmd ++ 32%N :: name) (s, tr) =
  (inr true,
   (set_cs_model name s,
    tr ++ [SendMessage (ToChat (service_chat_id cfg))
             (py "✅ Модель изменена на: " ++ name)])).
Proof.
  intros Hcmd Hsp. unfold _handle_admin_commands.
  unfold str_eqb at 1. rewrite (bool_decide_eq_true_2 _ eq_refl). cbn [negb].
  destruct (model_prefix_is_no_other_command _ Hcmd) as [-> ->]. rewrite Hcmd.
  unfold after_first_space. rewrite (split_space1_first_space _ _ Hsp).
  cbn [lookup list_lookup]. unfold update_model.
  unfold bind, try_except, ret, modify. cbn [fst snd].
  by rewrite send_service_message_run.
Qed.

(** X15. The same for [!vision] and the name of the vision model. *)
Theorem vision_command_takes_rest_of_line ev cmd name s tr :
  startswith (str_lower B (cmd ++ 32%N :: name)) (py "!vision") = true ->
  32%N ∉ cmd ->
  _handle_admin_commands B W cfg ev (admin_username cfg) (cmd ++ 32%N :: name) (s, tr) =
  (inr true,
   (set_cs_vision_model name s,
    tr ++ [SendMessage (ToChat (service_chat_id cfg))
             (py "✅ Vision модель изменена на: " ++ name)])).
Proof.
  intros Hcmd Hsp. unfold _handle_admin_commands.
  unfold str_eqb at 1. rewrite (bool_decide_eq_true_2 _ eq_refl). cbn [negb].
  destruct (vision_prefix_is_no_other_command _ Hcmd) as (-> & -> & ->). rewrite Hcmd.
  unfold after_first_space. rewrite (split_space1_first_space _ _ Hsp).
  cbn [lookup list_lookup]. unfold update_vision_model.
  unfold bind, try_except, ret, modify. cbn [fst snd].
  by rewrite send_service_message_run.
Qed.

(** X16. [!модель] or [!vision] without a space in the message changes
    nothing: the service chat is told the format and the handling ends. *)
Theorem model_command_without_name ev text s tr :
  32%N ∉ text ->
  (startswith (str_lower B text) (py "!модель") = true ->
   _handle_admin_commands B W cfg ev (admin_username cfg) text (s, tr) =
   (inr true,
    (s, tr ++ [SendMessage (ToChat (service_chat_id cfg))
                 (py "❌ Неправильный формат. Используйте: !модель <название_модели>")]))) /\
  (startswith (str_lower B text) (py "!vision") = true ->
   _handle_admin_commands B W cfg ev (admin_username cfg) text (s, tr) =
   (inr true,
    (s, tr ++ [SendMessage (ToChat (service_chat_id cfg))
                 (py "❌ Неправильный формат. Используйте: !vision <название_модели>")]))).
Proof.
  intros Hsp. split; intros Hcmd; unfold _handle_admin_commands;
    unfold str_eqb at 1; rewrite (bool_decide_eq_true_2 _ eq_refl); cbn [negb].
  - destruct (model_prefix_is_no_other_command _ Hcmd) as [-> ->]. rewrite Hcmd.
    unfold after_first_space. rewrite (split_space1_no_space _ Hsp).
    cbn [lookup list_lookup].
    unfold bind, try_except, ret, raise. cbn [fst snd exn_cls].
    by rewrite send_service_message_run.
  - destruct (vision_prefix_is_no_other_command _ Hcmd) as (-> & -> & ->). rewrite Hcmd.
    unfold after_first_space. rewrite (split_space1_no_space _ Hsp).
    cbn [lookup list_lookup].
    unfold bind, try_except, ret, raise. cbn [fst snd exn_cls].
    by rewrite send_service_message_run.
Qed.

End AdminCommands.

(** ** The summary command *)

Section Summary.
Context (B : builtins) (W : world) (cfg : config).

(** X17. A summary command whose number is not positive or exceeds 1000
    is refused: one message to the service chat, no look at the history of
    the transport, no request to the backend, no change of the state, and the
    handling ends. *)
Theorem summary_command_out_of_range ev who text group1 n s tr :
  summary_pattern B (strip (str_lower B text)) = Some group1 ->
  int_of_str B group1 = Some n ->
  n <= 0 \/ 1000 < n ->
  _handle_summary_command B W cfg ev who text (s, tr) =
  (inr true,
   (s, tr ++ [SendMessage (ToChat (service_chat_id cfg))
                (if n <=? 0 then py "❌ Количество сообщений должно быть больше 0"
                 else py "❌ Максимальное количество сообщений: 1000")])).
Proof.
  intros Hpat Hint Hrange. unfold _handle_summary_command. rewrite Hpat.
  unfold int_. rewrite Hint. unfold try_except, bind, ret. cbn [fst snd].
  destruct (n <=? 0) eqn:Hle.
  - cbn beta. by rewrite send_service_message_run.
  - assert ((n >? 1000) = true) as -> by lia.
    cbn beta. by rewrite send_service_message_run.
Qed.

(** X18. A message that matches the summary pattern is always consumed:
    [_handle_summary_command] returns [True] and never raises, whatever the
    transport and the backend do, and the state of the bot is as before; in
    particular the command is not stored in the history of the chat. *)
Theorem summary_command_is_consumed ev who text group1 st :
  summary_pattern B (strip (str_lower B text)) = Some group1 ->
  fst (_handle_summary_command B W cfg ev who text st) = inr true /\
  fst (snd (_handle_summary_command B W cfg ev who text st)) = fst st.
Proof.
  intros Hpat. destruct st as [s tr]. split.
  - unfold _handle_summary_command. rewrite Hpat. unfold try_except.
    match goal with |- context [bind ?m ?k (s, tr)] =>
      destruct (bind m k (s, tr)) as [[e|b] [s' tr']] eqn:Hrun end.
    + destruct (exn_cls e); unfold bind; rewrite send_service_message_run; done.
    + cbn [fst]. revert Hrun. unfold bind at 1, int_.
      destruct (int_of_str B group1) as [n|]; [|done]. unfold ret at 1.
      destruct (n <=? 0).
      { unfold bind. rewrite send_service_message_run. intros H; by inversion H. }
      destruct (n >? 1000).
      { unfold bind. rewrite send_service_message_run. intros H; by inversion H. }
      unfold bind, call, ret. cbn [fst snd].
      destruct (w_get_sender W (length tr)) as [e|sender]; [done|].
      rewrite send_service_message_run.
      destruct (_generate_and_send_summary W cfg ev sender n _) as [[e|[]] st''];
        [done|]. intros H; by inversion H.
  - apply (handle_summary_command_kept B W cfg ev (fun st' => fst st' = s));
      by intros.
Qed.

Lemma history_loop_pure fetched messages st :
  snd (history_loop fetched messages st) = st.
Proof.
  revert messages. induction fetched as [|hm rest IH]; intros messages; [done|].
  simpl. destruct (hm_text hm) as [[|c text]|]; [apply IH| |apply IH].
  unfold bind, sender_name_of.
  destruct (hm_sender hm) as [sd|]; [|apply IH].
  destruct (hs_username sd) as [[|c' u]|]; try apply IH;
    (destruct (hs_first_name sd) as [first_name|]; [|apply IH]);
    (destruct (hs_last_name sd) as [[|c'' l]|]; try apply IH);
    (destruct first_name; [apply IH|done]).
Qed.

(** [_get_chat_history] asks the transport once, never raises and leaves the
    state alone. *)
Lemma get_chat_history_run chat limit s tr :
  exists messages,
    _get_chat_history W chat limit (s, tr) =
    (inr messages, (s, tr ++ [IterMessages chat limit])).
Proof.
  unfold _get_chat_history, try_except, bind, call, ret. cbn [fst snd].
  destruct (w_iter_messages W (length tr) chat limit) as [e|fetched]; [by eexists|].
  pose proof (history_loop_pure fetched [] (s, tr ++ [IterMessages chat limit])) as H.
  destruct (history_loop fetched [] _) as [[e|messages] st']; simpl in H; subst st';
    by eexists.
Qed.

Lemma history_loop_nameless fetched messages st :
  Exists nameless fetched ->
  exists e, fst (history_loop fetched messages st) = inl e.
Proof.
  intros Hex. revert messages st.
  induction fetched as [|hm rest IH]; intros messages st; [by inversion Hex|].
  simpl. apply Exists_cons in Hex as [Hbad|Hrest].
  - destruct Hbad as (c & text & sd & c' & l & -> & -> & Hu & Hf & Hl).
    unfold bind, sender_name_of. rewrite Hf, Hl.
    destruct Hu as [-> | ->]; by eexists.
  - destruct (hm_text hm) as [[|c text]|]; [by apply IH| |by apply IH].
    unfold bind.
    destruct (sender_name_of (hm_sender hm) st) as [[e|name] st'];
      [by eexists|by apply IH].
Qed.

Lemma history_loop_no_text fetched messages st :
  Forall (fun hm => default [] (hm_text hm) = []) fetched ->
  history_loop fetched messages st = (inr messages, st).
Proof.
  intros Hall. induction Hall as [|hm rest Hhm _ IH]; [done|].
  simpl. by destruct (hm_text hm) as [[|c text]|].
Qed.

(** X19. When the transport gives no history for a summary (the request
    raises, no fetched message has a text, or the name of one sender cannot
    be put together), the requester is told so in private and that is all:
    no request goes to the backend, nothing goes to the service chat, and the
    state is as before. *)
Theorem summary_without_history ev sender n s tr id :
  match w_iter_messages W (length tr) (chat_id ev) n with
  | inl _ => True
  | inr fetched =>
    Forall (fun hm => default [] (hm_text hm) = []) fetched \/ Exists nameless fetched
  end ->
  w_send_message W (S (length tr)) (ToSender sender)
    (py "❌ Не удалось получить сообщения из чата") = inr id ->
  _generate_and_send_summary W cfg ev sender n (s, tr) =
  (inr tt,
   (s, tr ++ [IterMessages (chat_id ev) n;
              SendMessage (ToSender sender)
                (py "❌ Не удалось получить сообщения из чата")])).
Proof.
  intros Hfetch Hsend.
  assert (Hhist : _get_chat_history W (chat_id ev) n (s, tr) =
            (inr [], (s, tr ++ [IterMessages (chat_id ev) n]))).
  { unfold _get_chat_history, try_except, bind, call, ret. cbn [fst snd].
    destruct (w_iter_messages W (length tr) (chat_id ev) n) as [e|fetched]; [done|].
    destruct Hfetch as [Hnone|Hbad].
    - by rewrite history_loop_no_text.
    - destruct (history_loop_nameless fetched []
                  (s, tr ++ [IterMessages (chat_id ev) n]) Hbad) as [e He].
      pose proof (history_loop_pure fetched [] (s, tr ++ [IterMessages (chat_id ev) n]))
        as Hpure.
      destruct (history_loop fetched [] _) as [[e'|messages] st']; simpl in *;
        [by subst st'|done]. }
  unfold _generate_and_send_summary, try_except. unfold bind at 1. rewrite Hhist.
  cbn [truthy negb]. unfold bind, send_message, call, ret. cbn [fst snd].
  rewrite length_app, Nat.add_comm. cbn [length Nat.add]. rewrite Hsend.
  by rewrite <- (app_assoc tr).
Qed.

End Summary.

(** ** The text path, the media path and the ring of sent identifiers *)

Lemma append_mem {A} `{EqDecision A} (d : deque A) (x : A) n :
  maxlen d = Some (S n) -> mem x (append d x) = true.
Proof.
  intros Hm. unfold mem. apply bool_decide_eq_true. rewrite (append_items d x _ Hm).
  destruct (S n <? length (items d ++ [x]))%nat eqn:E.
  - destruct (items d) as [|y l]; simpl in *.
    + apply Nat.ltb_lt in E. lia.
    + apply elem_of_app. right. apply elem_of_cons. by left.
  - apply elem_of_app. right. apply elem_of_cons. by left.
Qed.

Section Paths.
Context (B : builtins) (W : world) (cfg : config).

(** X20. In a private chat, or when the lowered text contains a keyword,
    the text handler stores the message and goes straight to the
    deterministic generation: the random source is not asked. *)
Theorem private_or_keyword_message_is_answered ev who text s tr q :
  chat_queues s !! chat_id ev = Some q ->
  0 < chat_id ev \/ any_keyword cfg (str_lower B text) = true ->
  _handle_text_message B W cfg ev who text (s, tr) =
  _generate_and_send_response B W cfg ev false
    (set_chat_queues
       (<[chat_id ev := append q (mk_message (py "user") (who ++ py ": " ++ text))]>) s,
     tr).
Proof.
  intros Hq Hwhy.
  unfold _handle_text_message, queue_append, bind, get, modify.
  cbn [fst snd]. rewrite Hq. cbn [fst snd].
  destruct (chat_id ev >? 0) eqn:Hchat; [done|].
  destruct Hwhy as [Hpos|Hkey]; [lia|].
  unfold _should_respond_to_message. rewrite Hkey. by destruct (reply_to_sent _ ev).
Qed.

(** X21. In a group chat, a text message that neither replies to a sent
    message nor contains a keyword is stored and the random source is asked
    once.  When the history of the chat, the new message included, has at
    most five messages, or the draw is not below the response probability,
    nothing more happens: no request to the backend and no response,
    whatever the probability is set to. *)
Theorem random_response_needs_long_history ev who text s tr q :
  chat_id ev <= 0 ->
  chat_queues s !! chat_id ev = Some q ->
  _should_respond_to_message B cfg s ev text = false ->
  let q1 := append q (mk_message (py "user") (who ++ py ": " ++ text)) in
  (size q1 <= 5)%nat \/ fltb (w_random W (length tr)) (message_probability s) = false ->
  _handle_text_message B W cfg ev who text (s, tr) =
  (inr tt, (set_chat_queues (<[chat_id ev := q1]>) s, tr ++ [RandomRandom])).
Proof.
  intros Hgroup Hq Hno q1 Hgate.
  unfold _handle_text_message, queue_append, bind, get, modify.
  cbn [fst snd]. rewrite Hq. cbn [fst snd].
  assert ((chat_id ev >? 0) = false) as -> by lia.
  assert (Hno' : forall f,
            _should_respond_to_message B cfg (set_chat_queues f s) ev text = false)
    by (intros f; exact Hno).
  cbn [fst snd]. rewrite Hno'.
  unfold _should_respond_randomly, bind, get, call, ret. cbn [fst snd].
  unfold queue_length. cbn [chat_queues set_chat_queues message_probability].
  rewrite lookup_insert_eq. fold q1.
  destruct Hgate as [Hshort|Hdraw].
  - assert ((Z.of_nat (size q1) >? 5) = false) as -> by lia.
    by rewrite andb_false_r.
  - by rewrite Hdraw.
Qed.

(** X22. With the draw below the response probability and more than five
    messages in the history, the same message is answered through the random
    generation path. *)
Theorem random_response_fires ev who text s tr q :
  chat_id ev <= 0 ->
  chat_queues s !! chat_id ev = Some q ->
  _should_respond_to_message B cfg s ev text = false ->
  let q1 := append q (mk_message (py "user") (who ++ py ": " ++ text)) in
  (5 < size q1)%nat ->
  fltb (w_random W (length tr)) (message_probability s) = true ->
  _handle_text_message B W cfg ev who text (s, tr) =
  _generate_and_send_response B W cfg ev true
    (set_chat_queues (<[chat_id ev := q1]>) s, tr ++ [RandomRandom]).
Proof.
  intros Hgroup Hq Hno q1 Hlong Hdraw.
  unfold _handle_text_message, queue_append, bind, get, modify.
  cbn [fst snd]. rewrite Hq. cbn [fst snd].
  assert ((chat_id ev >? 0) = false) as -> by lia.
  assert (Hno' : forall f,
            _should_respond_to_message B cfg (set_chat_queues f s) ev text = false)
    by (intros f; exact Hno).
  cbn [fst snd]. rewrite Hno'.
  unfold _should_respond_randomly, bind, get, call, ret. cbn [fst snd].
  unfold queue_length. cbn [chat_queues set_chat_queues message_probability].
  rewrite lookup_insert_eq. fold q1. rewrite Hdraw.
  assert ((Z.of_nat (size q1) >? 5) = true) as -> by lia.
  reflexivity.
Qed.

(** X23. Media that is neither a photo nor a document with an image type
    is stored under the placeholder for media files and nothing else
    happens: no download, no request to the backend and no response, in a
    private chat as well. *)
Theorem other_media_is_stored_unanswered ev m who text s tr q :
  chat_queues s !! chat_id ev = Some q ->
  m = MediaOther \/
  (exists mime_type, m = MediaDocument (Some mime_type) /\
                     startswith mime_type (py "image/") = false) ->
  _handle_media_message B W cfg ev m who text (s, tr) =
  (inr tt,
   (set_chat_queues
      (<[chat_id ev :=
           append q (mk_message (py "user") (who ++ py ": [Медиа файл] " ++ text))]>) s,
    tr)).
Proof.
  intros Hq Hm.
  unfold _handle_media_message, try_except. unfold bind at 1.
  destruct Hm as [->|(mime_type & -> & Hmime)]; unfold is_image, ret;
    rewrite ?Hmime; unfold queue_append, bind, get, modify; cbn [fst snd];
    by rewrite Hq.
Qed.

(** X24. With the chat service not connected, [_generate_and_send_response]
    does nothing at all: no call, no change of the state, no report. *)
Theorem uninitialised_service_is_silent ev is_random s tr :
  cs_client s = false ->
  _generate_and_send_response B W cfg ev is_random (s, tr) = (inr tt, (s, tr)).
Proof.
  intros Hc.
  unfold _generate_and_send_response, generate_response, _send_error_response,
    try_except, bind, get, raise, ret.
  cbn [fst snd]. rewrite Hc. reflexivity.
Qed.


End Paths.

(** ** Images that cannot be used *)

Section Images.
Context (B : builtins) (W : world) (cfg : config).

Lemma send_error_to_service_run msg context s tr :
  exists diagnostic,
    _send_error_to_service W cfg msg context (s, tr) =
    (inr tt, (s, tr ++ [SendMessage (ToChat (service_chat_id cfg)) diagnostic])).
Proof.
  unfold _send_error_to_service, try_except. cbv zeta.
  rewrite send_service_message_run. by eexists.
Qed.

Lemma is_image_true m :
  m = MediaPhoto \/
  (exists mime_type, m = MediaDocument (Some mime_type) /\
                     startswith mime_type (py "image/") = true) ->
  is_image m = ret true.
Proof. intros [->|(mime_type & -> & Hmime)]; [done|]. simpl. by rewrite Hmime. Qed.

(** X26. An image whose download raises or gives no bytes is stored under
    the placeholder for an image that could not be processed; the vision
    model is not asked, nothing is reported to the service chat and no
    response is given, in a private chat as well. *)
Theorem image_without_data_is_not_analysed ev m who text s tr q path :
  chat_queues s !! chat_id ev = Some q ->
  m = MediaPhoto \/
  (exists mime_type, m = MediaDocument (Some mime_type) /\
                     startswith mime_type (py "image/") = true) ->
  w_named_temporary_file W (length tr) = inr path ->
  match w_download_media W (S (length tr)) path with
  | inl _ => True
  | inr data => data = []
  end ->
  let r := _handle_media_message B W cfg ev m who text (s, tr) in
  fst r = inr tt /\
  chat_queues (fst (snd r)) =
    <[chat_id ev :=
        append q (mk_message (py "user")
                    (who ++ py ": [Изображение - не удалось обработать] " ++ text))]>
      (chat_queues s) /\
  snd (snd r) = tr ++ [NamedTemporaryFile; DownloadMedia path].
Proof.
  intros Hq Hm Hfile Hdown.
  assert (Hrun : exists s',
            _handle_media_message B W cfg ev m who text (s, tr) =
              (inr tt, (s', tr ++ [NamedTemporaryFile; DownloadMedia path])) /\
            chat_queues s' =
              <[chat_id ev :=
                  append q (mk_message (py "user")
                              (who ++ py ": [Изображение - не удалось обработать] " ++
                               text))]>
                (chat_queues s)).
  { unfold _handle_media_message, try_except. unfold bind at 1.
    rewrite (is_image_true m Hm). unfold ret at 1. cbv iota beta.
    unfold bind at 1.
    assert (Himg : exists s',
              (_download_image W ev (s, tr) =
                 (inr None, (s', tr ++ [NamedTemporaryFile; DownloadMedia path])) \/
               _download_image W ev (s, tr) =
                 (inr (Some []), (s', tr ++ [NamedTemporaryFile; DownloadMedia path]))) /\
              chat_queues s' = chat_queues s).
    { unfold _download_image, try_except, bind, call, modify, ret, get.
      cbn [fst snd]. rewrite Hfile. cbn [fst snd].
      rewrite length_app, Nat.add_comm. cbn [length Nat.add].
      destruct (w_download_media W (S (length tr)) path) as [e|data]; cbn [fst snd].
      - eexists. split; [left; by rewrite <- (app_assoc tr)|done].
      - subst data. cbn [fst snd files set_files]. rewrite lookup_insert_eq.
        cbn [fst snd]. eexists. split; [right; by rewrite <- (app_assoc tr)|done]. }
    destruct Himg as (s' & [-> | ->] & Hs');
      unfold queue_append, bind, get, modify; cbn [fst snd];
      rewrite Hs', Hq; cbn [fst snd]; eexists; (split; [reflexivity|]);
      cbn [chat_queues set_chat_queues]; by rewrite Hs'. }
  destruct Hrun as (s' & Hrun & Hs'). cbv zeta. rewrite Hrun. cbn [fst snd].
  by rewrite Hs'.
Qed.

(** X27. An image that was downloaded but whose analysis fails (the
    service is not connected, the vision model raises or answers nothing) is
    stored under the placeholder for a failed analysis and the failure is
    reported to the service chat; no response is given, in a private chat as
    well. *)
Theorem failed_analysis_is_stored_and_reported ev m who text s tr q path c data :
  chat_queues s !! chat_id ev = Some q ->
  m = MediaPhoto \/
  (exists mime_type, m = MediaDocument (Some mime_type) /\
                     startswith mime_type (py "image/") = true) ->
  w_named_temporary_file W (length tr) = inr path ->
  w_download_media W (S (length tr)) path = inr (c :: data) ->
  let request := [mk_message (py "user") (_get_image_analysis_prompt text)] in
  cs_client s = false \/
  match w_chat W (S (S (length tr))) (cs_vision_model s) request [c :: data] with
  | inl _ => True
  | inr content => content = []
  end ->
  let r := _handle_media_message B W cfg ev m who text (s, tr) in
  fst r = inr tt /\
  chat_queues (fst (snd r)) =
    <[chat_id ev :=
        append q (mk_message (py "user")
                    (who ++ py ": [Изображение - ошибка анализа] " ++ text))]>
      (chat_queues s) /\
  exists diagnostic,
    snd (snd r) =
    tr ++ [NamedTemporaryFile; DownloadMedia path] ++
    (if cs_client s then [OllamaChat (cs_vision_model s) request [c :: data]] else []) ++
    [SendMessage (ToChat (service_chat_id cfg)) diagnostic].
Proof.
  intros Hq Hm Hfile Hdown request Hfail.
  assert (Hrun : exists s' diagnostic,
            _handle_media_message B W cfg ev m who text (s, tr) =
              (inr tt,
               (s', tr ++ [NamedTemporaryFile; DownloadMedia path] ++
                    (if cs_client s
                     then [OllamaChat (cs_vision_model s) request [c :: data]]
                     else []) ++
                    [SendMessage (ToChat (service_chat_id cfg)) diagnostic])) /\
            chat_queues s' =
              <[chat_id ev :=
                  append q (mk_message (py "user")
                              (who ++ py ": [Изображение - ошибка анализа] " ++ text))]>
                (chat_queues s)).
  { unfold _handle_media_message. unfold try_except at 1. unfold bind at 1.
    rewrite (is_image_true m Hm). unfold ret at 1. cbv iota beta.
    unfold bind at 1.
    assert (Himg : exists s',
              _download_image W ev (s, tr) =
                (inr (Some (c :: data)),
                 (s', tr ++ [NamedTemporaryFile; DownloadMedia path])) /\
              chat_queues s' = chat_queues s /\ cs_client s' = cs_client s /\
              cs_vision_model s' = cs_vision_model s).
    { unfold _download_image, try_except, bind, call, modify, ret, get.
      cbn [fst snd]. rewrite Hfile. cbn [fst snd].
      rewrite length_app, Nat.add_comm. cbn [length Nat.add]. rewrite Hdown.
      cbn [fst snd files set_files]. rewrite lookup_insert_eq. cbn [fst snd].
      eexists. split; [by rewrite <- (app_assoc tr)|done]. }
    destruct Himg as (s' & -> & Hs' & Hc & Hv). cbv iota beta.
    remember (tr ++ [NamedTemporaryFile; DownloadMedia path]) as tr2 eqn:Htr2.
    assert (Hlen : length tr2 = S (S (length tr)))
      by (subst tr2; rewrite length_app, Nat.add_comm; done).
    assert (Hana : exists e,
              analyze_image W (c :: data) (_get_image_analysis_prompt text) (s', tr2) =
              (inl e,
               (s', tr2 ++ if cs_client s
                           then [OllamaChat (cs_vision_model s) request [c :: data]]
                           else []))).
    { unfold analyze_image, try_except, bind, get, call, raise, ret. cbn [fst snd].
      rewrite Hc. destruct (cs_client s); cbn [negb]; [|rewrite app_nil_r; by eexists].
      cbn [fst snd]. rewrite Hv, Hlen. fold request.
      destruct Hfail as [?|Hfail]; [done|].
      destruct (w_chat W _ _ request _) as [e|content]; cbn [fst snd]; [by eexists|].
      subst content. cbn [truthy negb fst snd]. by eexists. }
    destruct Hana as [e Hana].
    unfold try_except at 1. unfold bind at 1. rewrite Hana.
    unfold bind at 1. unfold queue_append, bind, get, modify. cbn [fst snd].
    rewrite Hs', Hq.
    match goal with |- context [_send_error_to_service W cfg ?a ?b (?s0, ?tr0)] =>
      destruct (send_error_to_service_run a b s0 tr0) as [diagnostic ->] end.
    eexists _, diagnostic. split.
    - cbn [fst snd]. subst tr2. rewrite <- !(app_assoc tr). reflexivity.
    - cbn [chat_queues set_chat_queues]. by rewrite Hs'. }
  destruct Hrun as (s' & diagnostic & Hrun & Hs'). cbv zeta. rewrite Hrun.
  cbn [fst snd]. split; [done|]. split; [by rewrite Hs'|]. by exists diagnostic.
Qed.

End Images.

(** ** [ChatService.initialize] *)

Section Initialize.
Context (connect : nat -> option exn) (delay : Z).

(** X28. With a number of attempts that is not positive, [initialize]
    makes no attempt and returns normally: the service is left without a
    client and no exception tells so. *)
Theorem initialize_without_attempts max_attempts s :
  max_attempts <= 0 ->
  initialize connect max_attempts delay s = (inr tt, (s, [])).
Proof.
  intros Hle. unfold initialize, range, seqZ.
  by replace (Z.to_nat max_attempts) with 0%nat by lia.
Qed.

Lemma initialize_loop_outcome max_attempts k n s tr :
  Z.of_nat (k + S n) = max_attempts ->
  let r := initialize_loop connect max_attempts delay (seqZ (Z.of_nat k) (Z.of_nat (S n)))
             s tr in
  match fst r with
  | inr _ => fst (snd r) = set_cs_client true s
  | inl e =>
    e = Exn ChatServiceError
          (py "Failed to connect to Ollama after " ++ str_of_Z max_attempts ++
           py " attempts") /\
    fst (snd r) = s /\
    snd (snd r) = tr ++ failed_attempts (cs_host s) delay (S n)
  end /\
  (length (snd (snd r)) <= length tr + 2 * n + 1)%nat /\
  ((forall i, connect i <> None) -> exists e, fst r = inl e).
Proof.
  revert k tr. induction n as [|n IH]; intros k tr Hk; cbv zeta.
  - change (seqZ (Z.of_nat k) (Z.of_nat 1)) with [Z.of_nat 0 + Z.of_nat k].
    cbn [initialize_loop].
    destruct (connect (length tr)) as [e|] eqn:Hc.
    + assert ((Z.of_nat 0 + Z.of_nat k <? max_attempts - 1) = false) as ->
        by (apply Z.ltb_ge; lia).
      cbn [fst snd]. rewrite length_app. simpl. split; [done|]. split; [lia|].
      intros _. by eexists.
    + cbn [fst snd]. rewrite length_app. simpl. split; [done|]. split; [lia|].
      intros H. by destruct (H (length tr)).
  - rewrite (seqZ_cons (Z.of_nat k) (Z.of_nat (S (S n)))) by lia.
    replace (Z.succ (Z.of_nat k)) with (Z.of_nat (S k)) by lia.
    replace (Z.pred (Z.of_nat (S (S n)))) with (Z.of_nat (S n)) by lia.
    cbn [initialize_loop].
    destruct (connect (length tr)) as [e|] eqn:Hc.
    + assert ((Z.of_nat k <? max_attempts - 1) = true) as ->
        by (apply Z.ltb_lt; lia).
      specialize (IH (S k) ((tr ++ [ClientList (cs_host s)]) ++ [Sleep delay])
                    ltac:(lia)).
      cbv zeta in IH. destruct IH as (IH1 & IH2 & IH3).
      split; [|split; [|done]].
      * destruct (fst (initialize_loop _ _ _ _ _ _)) as [e'|[]]; [|done].
        destruct IH1 as (-> & -> & ->). split; [done|]. split; [done|].
        by rewrite <- !(app_assoc tr).
      * rewrite !length_app in IH2. simpl in IH2. lia.
    + cbn [fst snd]. rewrite length_app. simpl. split; [done|]. split; [lia|].
      intros H. by destruct (H (length tr)).
Qed.

(** X29. With a positive number of attempts, [initialize] either returns
    with the client set and nothing else changed, or raises the
    [ChatServiceError] that names the number of attempts, with the service as
    before.  It tests the connection at most that many times, with a pause
    only between two tests; when every test fails it raises, after exactly
    that many tests. *)
Theorem initialize_outcome max_attempts s :
  0 < max_attempts ->
  let r := initialize connect max_attempts delay s in
  match fst r with
  | inr _ => fst (snd r) = set_cs_client true s
  | inl e =>
    e = Exn ChatServiceError
          (py "Failed to connect to Ollama after " ++ str_of_Z max_attempts ++
           py " attempts") /\
    fst (snd r) = s /\
    snd (snd r) = failed_attempts (cs_host s) delay (Z.to_nat max_attempts)
  end /\
  Z.of_nat (length (snd (snd r))) <= 2 * max_attempts - 1 /\
  ((forall i, connect i <> None) -> exists e, fst r = inl e).
Proof.
  intros Hpos. cbv zeta. unfold initialize, range.
  destruct (Z.to_nat max_attempts) as [|n] eqn:Hn; [lia|].
  pose proof (initialize_loop_outcome max_attempts 0 n s [] ltac:(lia)) as H.
  cbv zeta in H. change (Z.of_nat 0) with 0 in H.
  replace (Z.of_nat (S n)) with max_attempts in H by lia.
  destruct H as (H1 & H2 & H3). split; [exact H1|]. split; [|exact H3].
  simpl in H2. lia.
Qed.

End Initialize.

Section AnalysedImage.
Context (B : builtins) (W : world) (cfg : config).

(** X30. An image that was downloaded and described by the vision model
    is stored with its description.  When the message neither replies to a
    sent message nor has a keyword in its text or in the description, the
    random source is asked once, and with at most five messages in the
    history or a draw that is not below the response probability nothing more
    happens.  The sign of the chat identifier plays no part: unlike a text
    message, an image in a private chat is not answered for being private. *)
Theorem analysed_image_is_stored_with_description
    ev m who text s tr q path c data d description :
  chat_queues s !! chat_id ev = Some q ->
  m = MediaPhoto \/
  (exists mime_type, m = MediaDocument (Some mime_type) /\
                     startswith mime_type (py "image/") = true) ->
  w_named_temporary_file W (length tr) = inr path ->
  w_download_media W (S (length tr)) path = inr (c :: data) ->
  cs_client s = true ->
  let request := [mk_message (py "user") (_get_image_analysis_prompt text)] in
  w_chat W (S (S (length tr))) (cs_vision_model s) request [c :: data] =
    inr (d :: description) ->
  _should_respond_to_image B cfg s ev text (d :: description) = false ->
  let q1 := append q (mk_message (py "user")
                        (who ++ py ": [Изображение] " ++ text ++ nl ++
                         py "Описание изображения: " ++ d :: description)) in
  (size q1 <= 5)%nat \/
  fltb (w_random W (S (S (S (length tr))))) (message_probability s) = false ->
  let r := _handle_media_message B W cfg ev m who text (s, tr) in
  fst r = inr tt /\
  chat_queues (fst (snd r)) = <[chat_id ev := q1]> (chat_queues s) /\
  snd (snd r) =
    tr ++ [NamedTemporaryFile; DownloadMedia path;
           OllamaChat (cs_vision_model s) request [c :: data]; RandomRandom].
Proof.
  intros Hq Hm Hfile Hdown Hclient request Hchat Hno q1 Hgate.
  assert (Hrun : exists s',
            _handle_media_message B W cfg ev m who text (s, tr) =
              (inr tt,
               (s', tr ++ [NamedTemporaryFile; DownloadMedia path;
                           OllamaChat (cs_vision_model s) request [c :: data];
                           RandomRandom])) /\
            chat_queues s' = <[chat_id ev := q1]> (chat_queues s)).
  { unfold _handle_media_message. unfold try_except at 1. unfold bind at 1.
    rewrite (is_image_true m Hm). unfold ret at 1. cbv iota beta.
    unfold bind at 1.
    assert (Himg : exists s',
              _download_image W ev (s, tr) =
                (inr (Some (c :: data)),
                 (s', tr ++ [NamedTemporaryFile; DownloadMedia path])) /\
              chat_queues s' = chat_queues s /\ cs_client s' = cs_client s /\
              cs_vision_model s' = cs_vision_model s /\
              sent_message_ids s' = sent_message_ids s /\
              message_probability s' = message_probability s).
    { unfold _download_image, try_except, bind, call, modify, ret, get.
      cbn [fst snd]. rewrite Hfile. cbn [fst snd].
      rewrite length_app, Nat.add_comm. cbn [length Nat.add]. rewrite Hdown.
      cbn [fst snd files set_files]. rewrite lookup_insert_eq. cbn [fst snd].
      eexists. split; [by rewrite <- (app_assoc tr)|done]. }
    destruct Himg as (s' & -> & Hs' & Hc & Hv & Hids & Hp). cbv iota beta.
    remember (tr ++ [NamedTemporaryFile; DownloadMedia path]) as tr2 eqn:Htr2.
    assert (Hlen : length tr2 = S (S (length tr)))
      by (subst tr2; rewrite length_app, Nat.add_comm; done).
    assert (Hana :
              analyze_image W (c :: data) (_get_image_analysis_prompt text) (s', tr2) =
              (inr (d :: description),
               (s', tr2 ++ [OllamaChat (cs_vision_model s) request [c :: data]]))).
    { unfold analyze_image, try_except, bind, get, call, raise, ret. cbn [fst snd].
      rewrite Hc, Hclient. cbn [negb fst snd]. rewrite Hv, Hlen. fold request.
      by rewrite Hchat. }
    unfold try_except at 1. unfold bind at 1. rewrite Hana.
    unfold bind at 1. unfold queue_append at 1. unfold bind at 1, get at 1.
    cbn [fst snd]. rewrite Hs', Hq. unfold modify at 1. cbn [fst snd].
    unfold bind at 1, get at 1. cbn [fst snd].
    assert (Hno' : forall f,
              _should_respond_to_image B cfg (set_chat_queues f s') ev text
                (d :: description) = false).
    { intros f. revert Hno. unfold _should_respond_to_image, reply_to_sent.
      cbn [sent_message_ids set_chat_queues]. by rewrite Hids. }
    rewrite Hno'.
    unfold _should_respond_randomly, bind, get, call, ret. cbn [fst snd].
    unfold queue_length. cbn [chat_queues set_chat_queues message_probability].
    rewrite lookup_insert_eq, Hp. fold q1.
    rewrite length_app, Hlen, Nat.add_comm. cbn [length Nat.add].
    assert (Hclosed :
              fltb (w_random W (S (S (S (length tr))))) (message_probability s) &&
              (Z.of_nat (size q1) >? 5) = false).
    { destruct Hgate as [Hshort|Hdraw].
      - assert ((Z.of_nat (size q1) >? 5) = false) as -> by lia.
        by rewrite andb_false_r.
      - by rewrite Hdraw. }
    rewrite Hclosed. eexists. split.
    - subst tr2. rewrite <- !(app_assoc tr). reflexivity.
    - cbn [chat_queues set_chat_queues]. by rewrite Hs'. }
  destruct Hrun as (s' & Hrun & Hs'). cbv zeta. rewrite Hrun. cbn [fst snd].
  by rewrite Hs'.
Qed.

End AnalysedImage.

(** ** The theorems above at concrete inputs *)

(** X1 at two messages of four and eight tokens and a budget of twelve. *)
Lemma limit_messages_by_tokens_keeps_what_fits_witness :
  limit_messages_by_tokens builtins0 two_messages 12 = two_messages.
Proof.
  apply (limit_messages_by_tokens_keeps_what_fits builtins0 two_messages 12).
  left. exists one_token_per_code_point. split; [reflexivity|]. split.
  - repeat constructor; discriminate.
  - by vm_compute.
Defined.

(** X2 at the same messages and a budget of eight. *)
Lemma count_tokens_of_limited_within_budget_witness :
  count_tokens builtins0 (limit_messages_by_tokens builtins0 two_messages 8) <= 8.
Proof.
  apply (count_tokens_of_limited_within_budget builtins0 two_messages 8). lia.
Defined.

(** X4 at a budget of minus one. *)
Lemma limit_messages_by_tokens_negative_budget_witness :
  limit_messages_by_tokens builtins0 two_messages (-1) = [].
Proof.
  apply (limit_messages_by_tokens_negative_budget builtins0 two_messages (-1)). lia.
Defined.

(** X6: a private message in chat 5 and the history of chat 7. *)
Lemma handle_message_other_chats_untouched_witness :
  chat_queues (fst (snd (handle_message builtins0 world_ok config0 private_hi start))) !! 7 =
  chat_queues (fst start) !! 7.
Proof.
  assert (H : 7 <> chat_id private_hi) by (vm_compute; discriminate).
  exact (handle_message_other_chats_untouched builtins0 world_ok config0 private_hi start 7 H).
Defined.

(** X7: the administrator's command sent by someone else. *)
Lemma handle_message_settings_need_administrator_witness :
  let s' := fst (snd (handle_message builtins0 world_ok config0 intruder_event start)) in
  message_probability s' = message_probability (fst start) /\
  cs_model s' = cs_model (fst start) /\
  cs_vision_model s' = cs_vision_model (fst start).
Proof.
  assert (Hwho : sender_username_of world_ok start = (inr (py "@alice"), (fst start, [GetSender])))
    by (vm_compute; reflexivity).
  assert (Hne : py "@alice" <> admin_username config0) by (vm_compute; discriminate).
  apply (handle_message_settings_need_administrator builtins0 world_ok config0
           intruder_event start).
  intros who st' H. rewrite Hwho in H. injection H as <- _. exact Hne.
Defined.

(** X8 after one answered message. *)
Lemma probability_stays_in_unit_interval_witness :
  in_unit_interval (message_probability (fst (after builtins0 world_ok 1 group_hello))) = true.
Proof.
  assert (H : in_unit_interval (cfg_message_probability config0) = true)
    by (vm_compute; reflexivity).
  exact (probability_stays_in_unit_interval builtins0 world_ok config0
           (after builtins0 world_ok 1 group_hello) H
           (reachable_after builtins0 world_ok 1 group_hello)).
Defined.

(** X9 at a text message. *)
Lemma handle_message_without_media_downloads_nothing_witness :
  files (fst (snd (handle_message builtins0 world_ok config0 private_hi start))) =
    files (fst start) /\
  extends_with no_download (snd start)
    (snd (handle_message builtins0 world_ok config0 private_hi start)).
Proof.
  exact (handle_message_without_media_downloads_nothing builtins0 world_ok config0
           private_hi start eq_refl).
Defined.

(** X13 in upper case, in a chat with one stored message. *)
Lemma forget_all_clears_this_chat_witness :
  let r := _handle_admin_commands builtins0 world_admin config0 private_hi
             (admin_username config0) (py "!ЗАБУДЬ ВСЕ") (private_hi_stored, []) in
  fst r = inr true /\
  queue_length (fst (snd r)) (chat_id private_hi) = 0 /\
  (forall chat, chat <> chat_id private_hi ->
     chat_queues (fst (snd r)) !! chat = chat_queues private_hi_stored !! chat) /\
  sent_message_ids (fst (snd r)) = sent_message_ids private_hi_stored /\
  snd (snd r) =
    [] ++ [SendMessage (ToChat (service_chat_id config0))
             (py "✅ Контекст чата " ++ str_of_Z (chat_id private_hi) ++ py " очищен")].
Proof.
  assert (H : str_lower builtins0 (py "!ЗАБУДЬ ВСЕ") = py "!забудь все")
    by (vm_compute; reflexivity).
  exact (forget_all_clears_this_chat builtins0 world_admin config0 private_hi
           (py "!ЗАБУДЬ ВСЕ") private_hi_stored [] H).
Defined.

(** X14 with a name of two words. *)
Lemma model_command_takes_rest_of_line_witness :
  _handle_admin_commands builtins0 world_admin config0 private_hi (admin_username config0)
    (py "!Модель" ++ 32%N :: py "llama3 8b") (init config0 true, []) =
  (inr true,
   (set_cs_model (py "llama3 8b") (init config0 true),
    [] ++ [SendMessage (ToChat (service_chat_id config0))
             (py "✅ Модель изменена на: " ++ py "llama3 8b")])).
Proof.
  assert (H1 : startswith (str_lower builtins0 (py "!Модель" ++ 32%N :: py "llama3 8b"))
                 (py "!модель") = true) by (vm_compute; reflexivity).
  assert (H2 : 32%N ∉ py "!Модель")
    by (apply (bool_decide_unpack _); vm_compute; exact I).
  exact (model_command_takes_rest_of_line builtins0 world_admin config0 private_hi
           (py "!Модель") (py "llama3 8b") (init config0 true) [] H1 H2).
Defined.

(** X15 likewise. *)
Lemma vision_command_takes_rest_of_line_witness :
  _handle_admin_commands builtins0 world_admin config0 private_hi (admin_username config0)
    (py "!vision" ++ 32%N :: py "llava") (init config0 true, []) =
  (inr true,
   (set_cs_vision_model (py "llava") (init config0 true),
    [] ++ [SendMessage (ToChat (service_chat_id config0))
             (py "✅ Vision модель изменена на: " ++ py "llava")])).
Proof.
  assert (H1 : startswith (str_lower builtins0 (py "!vision" ++ 32%N :: py "llava"))
                 (py "!vision") = true) by (vm_compute; reflexivity).
  assert (H2 : 32%N ∉ py "!vision")
    by (apply (bool_decide_unpack _); vm_compute; exact I).
  exact (vision_command_takes_rest_of_line builtins0 world_admin config0 private_hi
           (py "!vision") (py "llava") (init config0 true) [] H1 H2).
Defined.

(** X16 at the bare command words. *)
Lemma model_command_without_name_witness :
  _handle_admin_commands builtins0 world_admin config0 private_hi (admin_username config0)
    (py "!модель") (init config0 true, []) =
  (inr true,
   (init config0 true,
    [] ++ [SendMessage (ToChat (service_chat_id config0))
             (py "❌ Неправильный формат. Используйте: !модель <название_модели>")])).
Proof.
  assert (H1 : 32%N ∉ py "!модель")
    by (apply (bool_decide_unpack _); vm_compute; exact I).
  assert (H2 : startswith (str_lower builtins0 (py "!модель")) (py "!модель") = true)
    by (vm_compute; reflexivity).
  exact (proj1 (model_command_without_name builtins0 world_admin config0 private_hi
                  (py "!модель") (init config0 true) [] H1) H2).
Defined.

(** X17 at five thousand messages. *)
Lemma summary_command_out_of_range_witness :
  _handle_summary_command builtins0 world_ok config0 too_many_event (py "@alice")
    (py "!5000 сообщений") (init config0 true, []) =
  (inr true,
   (init config0 true,
    [] ++ [SendMessage (ToChat (service_chat_id config0))
             (if 5000 <=? 0 then py "❌ Количество сообщений должно быть больше 0"
              else py "❌ Максимальное количество сообщений: 1000")])).
Proof.
  assert (H1 : summary_pattern builtins0 (strip (str_lower builtins0 (py "!5000 сообщений"))) =
               Some (py "5000")) by (vm_compute; reflexivity).
  assert (H2 : int_of_str builtins0 (py "5000") = Some 5000) by (vm_compute; reflexivity).
  assert (H3 : 5000 <= 0 \/ 1000 < 5000) by (right; lia).
  exact (summary_command_out_of_range builtins0 world_ok config0 too_many_event (py "@alice")
           (py "!5000 сообщений") (py "5000") 5000 (init config0 true) [] H1 H2 H3).
Defined.

(** X18 with the backend down. *)
Lemma summary_command_is_consumed_witness :
  fst (_handle_summary_command builtins0 world_backend_down config0 summary_event
         (py "@alice") (py "!5 сообщений") start) = inr true /\
  fst (snd (_handle_summary_command builtins0 world_backend_down config0 summary_event
              (py "@alice") (py "!5 сообщений") start)) = fst start.
Proof.
  assert (H : summary_pattern builtins0 (strip (str_lower builtins0 (py "!5 сообщений"))) =
              Some (py "5")) by (vm_compute; reflexivity).
  exact (summary_command_is_consumed builtins0 world_backend_down config0 summary_event
           (py "@alice") (py "!5 сообщений") (py "5") start H).
Defined.

(** X19 with a transport that has no message. *)
Lemma summary_without_history_witness :
  _generate_and_send_summary world_ok config0 summary_event (Some alice) 5
    (init config0 true, []) =
  (inr tt,
   (init config0 true,
    [] ++ [IterMessages (chat_id summary_event) 5;
           SendMessage (ToSender (Some alice))
             (py "❌ Не удалось получить сообщения из чата")])).
Proof.
  assert (H1 : match w_iter_messages world_ok (length (@nil effect)) (chat_id summary_event) 5
               with
               | inl _ => True
               | inr fetched =>
                 Forall (fun hm => default [] (hm_text hm) = []) fetched \/
                 Exists nameless fetched
               end) by (left; constructor).
  assert (H2 : w_send_message world_ok (S (length (@nil effect))) (ToSender (Some alice))
                 (py "❌ Не удалось получить сообщения из чата") = inr 1) by reflexivity.
  exact (summary_without_history world_ok config0 summary_event (Some alice) 5
           (init config0 true) [] 1 H1 H2).
Defined.

(** X20 at a private message. *)
Lemma private_or_keyword_message_is_answered_witness :
  _handle_text_message builtins0 world_ok config0 private_hi (py "@alice") (py "hi")
    (private_hi_stored, []) =
  _generate_and_send_response builtins0 world_ok config0 private_hi false
    (set_chat_queues
       (<[chat_id private_hi :=
            append private_hi_queue
              (mk_message (py "user") (py "@alice" ++ py ": " ++ py "hi"))]>)
       private_hi_stored,
     []).
Proof.
  assert (H1 : chat_queues private_hi_stored !! chat_id private_hi = Some private_hi_queue)
    by (vm_compute; reflexivity).
  assert (H2 : 0 < chat_id private_hi \/
               any_keyword config0 (str_lower builtins0 (py "hi")) = true)
    by (left; vm_compute; reflexivity).
  exact (private_or_keyword_message_is_answered builtins0 world_ok config0 private_hi
           (py "@alice") (py "hi") private_hi_stored [] private_hi_queue H1 H2).
Defined.

(** X21 in a group chat with two stored messages. *)
Lemma random_response_needs_long_history_witness :
  _handle_text_message builtins0 world_ok config0 group_hello (py "@alice") (py "hello")
    (group_state, []) =
  (inr tt,
   (set_chat_queues
      (<[chat_id group_hello :=
           append answered_queue
             (mk_message (py "user") (py "@alice" ++ py ": " ++ py "hello"))]>)
      group_state,
    [] ++ [RandomRandom])).
Proof.
  assert (H1 : chat_id group_hello <= 0) by (vm_compute; discriminate).
  assert (H2 : chat_queues group_state !! chat_id group_hello = Some answered_queue)
    by (vm_compute; reflexivity).
  assert (H3 : _should_respond_to_message builtins0 config0 group_state group_hello
                 (py "hello") = false) by (vm_compute; reflexivity).
  assert (H4 : (size (append answered_queue
                        (mk_message (py "user") (py "@alice" ++ py ": " ++ py "hello")))
                <= 5)%nat \/
               fltb (w_random world_ok (length (@nil effect)))
                 (message_probability group_state) = false)
    by (right; vm_compute; reflexivity).
  exact (random_response_needs_long_history builtins0 world_ok config0 group_hello
           (py "@alice") (py "hello") group_state [] answered_queue H1 H2 H3 H4).
Defined.

(** X22 in a group chat with five stored messages and probability 1. *)
Lemma random_response_fires_witness :
  _handle_text_message builtins0 world_ok config0 group_hello (py "@alice") (py "hello")
    (eager_state, []) =
  _generate_and_send_response builtins0 world_ok config0 group_hello true
    (set_chat_queues
       (<[chat_id group_hello :=
            append long_queue
              (mk_message (py "user") (py "@alice" ++ py ": " ++ py "hello"))]>)
       eager_state,
     [] ++ [RandomRandom]).
Proof.
  assert (H1 : chat_id group_hello <= 0) by (vm_compute; discriminate).
  assert (H2 : chat_queues eager_state !! chat_id group_hello = Some long_queue)
    by (vm_compute; reflexivity).
  assert (H3 : _should_respond_to_message builtins0 config0 eager_state group_hello
                 (py "hello") = false) by (vm_compute; reflexivity).
  assert (H4 : (5 < size (append long_queue
                            (mk_message (py "user") (py "@alice" ++ py ": " ++ py "hello"))))%nat)
    by (vm_compute; lia).
  assert (H5 : fltb (w_random world_ok (length (@nil effect)))
                 (message_probability eager_state) = true) by (vm_compute; reflexivity).
  exact (random_response_fires builtins0 world_ok config0 group_hello
           (py "@alice") (py "hello") eager_state [] long_queue H1 H2 H3 H4 H5).
Defined.

(** X23 at a private chat. *)
Lemma other_media_is_stored_unanswered_witness :
  _handle_media_message builtins0 world_ok config0 private_hi MediaOther (py "@alice") []
    (private_hi_stored, []) =
  (inr tt,
   (set_chat_queues
      (<[chat_id private_hi :=
           append private_hi_queue
             (mk_message (py "user") (py "@alice" ++ py ": [Медиа файл] " ++ []))]>)
      private_hi_stored,
    [])).
Proof.
  assert (H1 : chat_queues private_hi_stored !! chat_id private_hi = Some private_hi_queue)
    by (vm_compute; reflexivity).
  exact (other_media_is_stored_unanswered builtins0 world_ok config0 private_hi MediaOther
           (py "@alice") [] private_hi_stored [] private_hi_queue H1 (or_introl eq_refl)).
Defined.

(** X24 at the state [__init__] leaves without a client. *)
Lemma uninitialised_service_is_silent_witness :
  _generate_and_send_response builtins0 world_ok config0 private_hi false
    (init config0 false, []) =
  (inr tt, (init config0 false, [])).
Proof.
  exact (uninitialised_service_is_silent builtins0 world_ok config0 private_hi false
           (init config0 false) [] eq_refl).
Defined.


(** X26 with a download that fails. *)
Lemma image_without_data_is_not_analysed_witness :
  let r := _handle_media_message builtins0 world_download_fails config0 (photo_event 5)
             MediaPhoto (py "@alice") [] (private_hi_stored, []) in
  fst r = inr tt /\
  chat_queues (fst (snd r)) =
    <[chat_id (photo_event 5) :=
        append private_hi_queue
          (mk_message (py "user")
             (py "@alice" ++ py ": [Изображение - не удалось обработать] " ++ []))]>
      (chat_queues private_hi_stored) /\
  snd (snd r) = [] ++ [NamedTemporaryFile; DownloadMedia (py "/tmp/tmpk3x9")].
Proof.
  assert (H1 : chat_queues private_hi_stored !! chat_id (photo_event 5) = Some private_hi_queue)
    by (vm_compute; reflexivity).
  assert (H2 : w_named_temporary_file world_download_fails (length (@nil effect)) =
               inr (py "/tmp/tmpk3x9")) by reflexivity.
  assert (H3 : match w_download_media world_download_fails (S (length (@nil effect)))
                       (py "/tmp/tmpk3x9") with
               | inl _ => True
               | inr data => data = []
               end) by exact I.
  exact (image_without_data_is_not_analysed builtins0 world_download_fails config0
           (photo_event 5) MediaPhoto (py "@alice") [] private_hi_stored []
           private_hi_queue (py "/tmp/tmpk3x9") H1 (or_introl eq_refl) H2 H3).
Defined.

(** X27 with the backend down. *)
Lemma failed_analysis_is_stored_and_reported_witness :
  let request := [mk_message (py "user") (_get_image_analysis_prompt [])] in
  let r := _handle_media_message builtins0 world_backend_down config0 (photo_event 5)
             MediaPhoto (py "@alice") [] (private_hi_stored, []) in
  fst r = inr tt /\
  chat_queues (fst (snd r)) =
    <[chat_id (photo_event 5) :=
        append private_hi_queue
          (mk_message (py "user")
             (py "@alice" ++ py ": [Изображение - ошибка анализа] " ++ []))]>
      (chat_queues private_hi_stored) /\
  exists diagnostic,
    snd (snd r) =
    [] ++ [NamedTemporaryFile; DownloadMedia (py "/tmp/tmpk3x9")] ++
    (if cs_client private_hi_stored
     then [OllamaChat (cs_vision_model private_hi_stored) request [255 :: [216; 255]]%N]
     else []) ++
    [SendMessage (ToChat (service_chat_id config0)) diagnostic].
Proof.
  assert (H1 : chat_queues private_hi_stored !! chat_id (photo_event 5) = Some private_hi_queue)
    by (vm_compute; reflexivity).
  assert (H2 : w_named_temporary_file world_backend_down (length (@nil effect)) =
               inr (py "/tmp/tmpk3x9")) by reflexivity.
  assert (H3 : w_download_media world_backend_down (S (length (@nil effect)))
                 (py "/tmp/tmpk3x9") = inr (255 :: [216; 255])%N) by reflexivity.
  assert (H4 : cs_client private_hi_stored = false \/
               match w_chat world_backend_down (S (S (length (@nil effect))))
                       (cs_vision_model private_hi_stored)
                       [mk_message (py "user") (_get_image_analysis_prompt [])]
                       [255 :: [216; 255]]%N with
               | inl _ => True
               | inr content => content = []
               end) by (right; exact I).
  exact (failed_analysis_is_stored_and_reported builtins0 world_backend_down config0
           (photo_event 5) MediaPhoto (py "@alice") [] private_hi_stored []
           private_hi_queue (py "/tmp/tmpk3x9") 255%N [216; 255]%N
           H1 (or_introl eq_refl) H2 H3 H4).
Defined.

(** X28 at no attempt. *)
Lemma initialize_without_attempts_witness :
  initialize never_connects 0 1 (init config0 false) = (inr tt, (init config0 false, [])).
Proof.
  assert (H : 0 <= 0) by lia.
  exact (initialize_without_attempts never_connects 1 0 (init config0 false) H).
Defined.

(** X29 at three attempts that all fail. *)
Lemma initialize_outcome_witness :
  let r := initialize never_connects 3 1 (init config0 false) in
  match fst r with
  | inr _ => fst (snd r) = set_cs_client true (init config0 false)
  | inl e =>
    e = Exn ChatServiceError
          (py "Failed to connect to Ollama after " ++ str_of_Z 3 ++ py " attempts") /\
    fst (snd r) = init config0 false /\
    snd (snd r) = failed_attempts (cs_host (init config0 false)) 1 (Z.to_nat 3)
  end /\
  Z.of_nat (length (snd (snd r))) <= 2 * 3 - 1 /\
  ((forall i, never_connects i <> None) -> exists e, fst r = inl e).
Proof.
  assert (H : 0 < 3) by lia.
  exact (initialize_outcome never_connects 1 3 (init config0 false) H).
Defined.

(** X30 at a photo without caption in a private chat. *)
Lemma analysed_image_is_stored_with_description_witness :
  let request := [mk_message (py "user") (_get_image_analysis_prompt [])] in
  let q1 := append private_hi_queue
              (mk_message (py "user")
                 (py "@alice" ++ py ": [Изображение] " ++ [] ++ nl ++
                  py "Описание изображения: " ++ 111%N :: [107%N])) in
  let r := _handle_media_message builtins0 world_ok config0 (photo_event 5)
             MediaPhoto (py "@alice") [] (private_hi_stored, []) in
  fst r = inr tt /\
  chat_queues (fst (snd r)) =
    <[chat_id (photo_event 5) := q1]> (chat_queues private_hi_stored) /\
  snd (snd r) =
    [] ++ [NamedTemporaryFile; DownloadMedia (py "/tmp/tmpk3x9");
           OllamaChat (cs_vision_model private_hi_stored) request [255 :: [216; 255]]%N;
           RandomRandom].
Proof.
  assert (H1 : chat_queues private_hi_stored !! chat_id (photo_event 5) = Some private_hi_queue)
    by (vm_compute; reflexivity).
  assert (H2 : w_named_temporary_file world_ok (length (@nil effect)) =
               inr (py "/tmp/tmpk3x9")) by reflexivity.
  assert (H3 : w_download_media world_ok (S (length (@nil effect)))
                 (py "/tmp/tmpk3x9") = inr (255 :: [216; 255])%N) by reflexivity.
  assert (H4 : cs_client private_hi_stored = true) by reflexivity.
  assert (H5 : w_chat world_ok (S (S (length (@nil effect))))
                 (cs_vision_model private_hi_stored)
                 [mk_message (py "user") (_get_image_analysis_prompt [])]
                 [255 :: [216; 255]]%N = inr (111%N :: [107%N]))
    by (vm_compute; reflexivity).
  assert (H6 : _should_respond_to_image builtins0 config0 private_hi_stored (photo_event 5)
                 [] (111%N :: [107%N]) = false) by (vm_compute; reflexivity).
  assert (H7 : (size (append private_hi_queue
                        (mk_message (py "user")
                           (py "@alice" ++ py ": [Изображение] " ++ [] ++ nl ++
                            py "Описание изображения: " ++ 111%N :: [107%N])))
                <= 5)%nat \/
               fltb (w_random world_ok (S (S (S (length (@nil effect))))))
                 (message_probability private_hi_stored) = false)
    by (right; vm_compute; reflexivity).
  exact (analysed_image_is_stored_with_description builtins0 world_ok config0
           (photo_event 5) MediaPhoto (py "@alice") [] private_hi_stored []
           private_hi_queue (py "/tmp/tmpk3x9") 255%N [216; 255]%N 111%N [107%N]
           H1 (or_introl eq_refl) H2 H3 H4 H5 H6 H7).
Defined.
